(** * GENIEHelper: driver assembly, fiducial-cut language and spill accounting

    A shallow embedding of [EventGeneratorBase/GENIE/GENIEHelper.cxx]
    (class [evgb::GENIEHelper]).

    Modelling conventions.
    - A C++ [double] is an exact rational ([Q]): rounding, infinities and
      NaN are outside the model; [==] is equality of values.
    - [int] members are [Z]; counters stay far below 2^31.
    - [exit], uncaught exceptions, failed [assert]s and dereferences of a
      null pointer or of a vector past its end are fatal: the operation
      returns [Fatal] and no object state survives.
    - The GENIE, ROOT and art objects the helper drives are records that
      hold what the helper told them; what they answer (generated events,
      used POTs, random draws, the file system) comes in as oracle
      arguments. *)

From Stdlib Require Import Bool Arith ZArith QArith Qround Qabs Lia Lqa.
From Stdlib Require Import Ascii String DecimalString List Permutation.
Import ListNotations.

Set Implicit Arguments.

Local Open Scope string_scope.

(** ** std::string operations used by the helper *)

Module StdString.

Definition tab : ascii := ascii_of_nat 9.
Definition newline : ascii := ascii_of_nat 10.

(** The character set [" \t\n"] of the trimming idiom. *)
Definition blanks : string :=
  String " " (String tab (String newline EmptyString)).

Fixpoint mem (c : ascii) (set : string) : bool :=
  match set with
  | EmptyString => false
  | String d rest => Ascii.eqb c d || mem c rest
  end.

(** [s.find_first_not_of(set)]; [None] is [npos]. *)
Fixpoint find_first_not_of (s set : string) : option nat :=
  match s with
  | EmptyString => None
  | String c rest =>
      if mem c set then option_map S (find_first_not_of rest set)
      else Some O
  end.

(** [s.find_first_of(set)]; [None] is [npos]. *)
Fixpoint find_first_of (s set : string) : option nat :=
  match s with
  | EmptyString => None
  | String c rest =>
      if mem c set then Some O
      else option_map S (find_first_of rest set)
  end.

Fixpoint drop (n : nat) (s : string) : string :=
  match n, s with
  | O, _ => s
  | S k, EmptyString => EmptyString
  | S k, String _ rest => drop k rest
  end.

Fixpoint take (n : nat) (s : string) : string :=
  match n, s with
  | O, _ => EmptyString
  | S k, EmptyString => EmptyString
  | S k, String c rest => String c (take k rest)
  end.

(** [s.erase(0, n)] with [n = None] for [npos]. *)
Definition erase_front (s : string) (n : option nat) : string :=
  match n with
  | None => EmptyString
  | Some k => drop k s
  end.

(** The idiom
    [if (s.find_first_not_of(" \t\n") != 0) s.erase(0, s.find_first_not_of(" \t\n"));]
    which removes leading blanks only. *)
Definition trim_leading (s : string) : string :=
  match find_first_not_of s blanks with
  | Some O => s
  | other => erase_front s other
  end.

(** [::tolower] in the C locale. *)
Definition tolower_ascii (c : ascii) : ascii :=
  let n := nat_of_ascii c in
  if (65 <=? n)%nat && (n <=? 90)%nat then ascii_of_nat (n + 32) else c.

Fixpoint tolower (s : string) : string :=
  match s with
  | EmptyString => EmptyString
  | String c rest => String (tolower_ascii c) (tolower rest)
  end.

(** [s.find(pat)]; [None] is [npos]. *)
Fixpoint find (s pat : string) : option nat :=
  if String.prefix pat s then Some O
  else match s with
       | EmptyString => None
       | String _ rest => option_map S (find rest pat)
       end.

Definition contains (s pat : string) : bool :=
  match find s pat with Some _ => true | None => false end.

(** [s.find_last_of(c)] for a single character. *)
Fixpoint find_last_of (s : string) (c : ascii) : option nat :=
  match s with
  | EmptyString => None
  | String d rest =>
      match find_last_of rest c with
      | Some k => Some (S k)
      | None => if Ascii.eqb c d then Some O else None
      end
  end.

End StdString.

(** ** External string helpers: GENIE's [utils::str::Split] and C's [atof] *)

Module GenieUtils.
Import StdString.

(** [genie::utils::str::Split(input, delimiters)] (GENIE, [Utils/StringUtils]):
    cut [input] at every character of [delimiters]; empty pieces are kept
    and the remainder after the last delimiter is always pushed. *)
Fixpoint split_aux (s delim : string) (cur : string) : list string :=
  match s with
  | EmptyString => [cur]
  | String c rest =>
      if mem c delim then cur :: split_aux rest delim EmptyString
      else split_aux rest delim (cur ++ String c EmptyString)
  end.

Definition Split (input delim : string) : list string :=
  split_aux input delim EmptyString.

Definition is_digit (c : ascii) : bool :=
  let n := nat_of_ascii c in (48 <=? n)%nat && (n <=? 57)%nat.

Definition digit_val (c : ascii) : Z := Z.of_nat (nat_of_ascii c - 48).

(** C [isspace] in the C locale: space, and the controls 9..13. *)
Definition is_space (c : ascii) : bool :=
  let n := nat_of_ascii c in
  (n =? 32)%nat || ((9 <=? n)%nat && (n <=? 13)%nat).

Fixpoint skip_space (s : string) : string :=
  match s with
  | String c rest => if is_space c then skip_space rest else s
  | EmptyString => s
  end.

(** Reads a run of decimal digits: the accumulated value, how many digits
    were read, and the rest of the text. *)
Fixpoint read_digits (s : string) (acc : Z) (n : nat) : Z * nat * string :=
  match s with
  | String c rest =>
      if is_digit c then read_digits rest (10 * acc + digit_val c)%Z (S n)
      else (acc, n, s)
  | EmptyString => (acc, n, s)
  end.

Definition read_sign (s : string) : bool * string :=
  match s with
  | String "-" rest => (true, rest)
  | String "+" rest => (false, rest)
  | _ => (false, s)
  end.

(** The optional exponent part [e[+-]ddd]; it counts only when at least
    one digit follows. *)
Definition read_exponent (s : string) : Z :=
  match s with
  | String c rest =>
      if Ascii.eqb c "e" || Ascii.eqb c "E" then
        let '(neg, r1) := read_sign rest in
        let '(e, n, _) := read_digits r1 0%Z O in
        match n with
        | O => 0%Z
        | _ => if neg then (- e)%Z else e
        end
      else 0%Z
  | EmptyString => 0%Z
  end.

(** [atof] on decimal text: leading white space, a sign, digits with an
    optional point, an optional exponent; anything after is ignored and a
    text with no digits gives 0.  Hexadecimal, [inf] and [nan] inputs are
    outside the model. *)
Definition atof (s : string) : Q :=
  let '(neg, s1) := read_sign (skip_space s) in
  let '(ip, ni, s2) := read_digits s1 0%Z O in
  let '(m, nf, s3) :=
    match s2 with
    | String "." rest => read_digits rest ip O
    | _ => (ip, O, s2)
    end in
  match (ni + nf)%nat with
  | O => 0%Q
  | _ =>
      let e := (read_exponent s3 - Z.of_nat nf)%Z in
      let v := (inject_Z m * Qpower 10 e)%Q in
      Qred (if neg then Qopp v else v)
  end.

End GenieUtils.

(** ** Data model *)

Definition double := Q.
Definition TVector3 := (Q * Q * Q)%type.

(** *** Fatal outcomes and the message log *)

Inductive Fatal : Type :=
| Exit (code : Z)                 (* exit(code) *)
| Throw (what : string)           (* an exception nobody catches *)
| AssertFailed (what : string)    (* assert(...) *)
| Undefined (what : string).      (* null or out-of-range dereference *)

Inductive Result (A : Type) : Type :=
| Ok (a : A)
| Failed (f : Fatal).
Arguments Ok {A} a.
Arguments Failed {A} f.

Inductive Severity : Type := LogDebug | LogInfo | LogWarning | LogError.

Inductive LogArg : Type :=
| LStr (s : string)
| LNum (q : Q)
| LInt (z : Z).

Record LogEntry : Type := mkLog {
  logSeverity : Severity;
  logText : list LogArg
}.

Definition is_report (e : LogEntry) : bool :=
  match logSeverity e with
  | LogWarning | LogError => true
  | _ => false
  end.

(** *** GENIE volume selectors

    [GeomVolSelectorFiducial] and its subclass [GeomVolSelectorRockBox] are
    GENIE classes; the records keep the calls the helper makes on them. *)

Inductive FidShape : Type :=
| ZCylinder (x0 y0 radius zmin zmax : Q)
| Box (xyzmin xyzmax : TVector3)
| ZPolygon (nfaces : Z) (x0 y0 rin phi zmin zmax : Q)
| Sphere (x0 y0 z0 radius : Q).

Record GeomVolSelectorFiducial : Type := mkFid {
  fidShape : option FidShape;       (* the last Make... call, if any *)
  fidRemoveEntries : bool;          (* SetRemoveEntries *)
  fidMaster2Top : bool;             (* ConvertShapeMaster2Top was applied *)
  fidReverse : bool                 (* SetReverseFiducial *)
}.

Record GeomVolSelectorRockBox : Type := mkRock {
  rockFid : GeomVolSelectorFiducial;          (* the base-class part *)
  rockBoxMinimal : option (TVector3 * TVector3); (* SetRockBoxMinimal *)
  rockMinimumWall : option Q;                 (* SetMinimumWall *)
  rockDeDx : option Q                         (* SetDeDx *)
}.

Inductive GeomVolSelector : Type :=
| SelFiducial (s : GeomVolSelectorFiducial)
| SelRockBox (s : GeomVolSelectorRockBox).

Definition new_GeomVolSelectorFiducial : GeomVolSelectorFiducial :=
  mkFid None false false false.

Definition new_GeomVolSelectorRockBox : GeomVolSelectorRockBox :=
  mkRock new_GeomVolSelectorFiducial None None None.

Definition fid_of (s : GeomVolSelector) : GeomVolSelectorFiducial :=
  match s with
  | SelFiducial f => f
  | SelRockBox r => rockFid r
  end.

(** Modelled from the spec: the point-membership reading of a box selector
    (GENIE's selector classes are not part of this repository).  A point is
    in the box when every coordinate lies between the two corners; the
    reverse flag negates the decision. *)
Definition in_box (lo hi p : TVector3) : bool :=
  let '(lx, ly, lz) := lo in
  let '(hx, hy, hz) := hi in
  let '(x, y, z) := p in
  Qle_bool lx x && Qle_bool x hx &&
  Qle_bool ly y && Qle_bool y hy &&
  Qle_bool lz z && Qle_bool z hz.

Definition selects (s : GeomVolSelectorFiducial) (p : TVector3) : option bool :=
  match fidShape s with
  | Some (Box lo hi) => Some (xorb (fidReverse s) (in_box lo hi p))
  | _ => None
  end.

(** *** Objects the helper owns or drives *)

Record TH1D : Type := mkTH1D {
  hName : string;
  hIntegral : Q
}.

Record ROOTGeomAnalyzer : Type := mkRgeom {
  rgTopVolName : string;
  rgSelector : option GeomVolSelector;
  rgScannerNPoints : Z;
  rgScannerNRays : Z;
  rgScannerNParticles : Z;
  rgScannerFlux : bool;
  rgMaxPlSafetyFactor : option Q
}.

Inductive AtmoKind : Type := Fluka3D | Bartol.

Inductive GFluxI : Type :=
| GNuMIFlux (file detloc : string) (probes : list Z) (upstreamZ : option Q)
| GSimpleNtpFlux (file detloc : string) (probes : list Z) (upstreamZ : option Q)
| GCylindTH1Flux (spectra : list (Z * TH1D)) (dir spot : TVector3) (radius : Q)
| GMonoEnergeticFlux (energy : Q) (pdgw : list (Z * Q)) (dir origin : TVector3)
| GAtmoFlux (kind : AtmoKind) (emin emax : Q) (files : list (Z * string))
            (rl rt : Q).

Record GFlavorMixerI : Type := mkMixer {
  mixerClass : string;
  mixerConfig : string
}.

(** What is handed to the event driver: the bare flux, or a blender
    wrapped around it. *)
Inductive FluxForDriver : Type :=
| BareFlux
| GFluxBlender (baseline : Q) (mixer : option GFlavorMixerI).

Record GMCJDriver : Type := mkDriver {
  drvMaxPathLengths : option string   (* UseMaxPathLengths(file) *)
}.

Record EventRecord : Type := mkEvent {
  evVertex : TVector3
}.

(** Calls on collaborators whose order matters. *)
Inductive ExtCall : Type :=
| RgeomSetTopVolName (name : string)
| RgeomAdoptGeomVolSelector (sel : GeomVolSelector)
| GeoSetTopVolume (name : string)
| DriverGenerateEvent.

(** *** The helper

    [Settings] are the members fixed once the constructor has run. *)

Record Settings : Type := mkSettings {
  fFluxType : string;
  fBeamName : string;
  fDetLocation : string;
  fFluxUpstreamZ : Q;
  fEventsPerSpill : Q;
  fPOTPerSpill : Q;
  fMonoEnergy : Q;
  fBeamRadius : Q;
  fSurroundingMass : Q;
  fGlobalTimeOffset : Q;
  fRandomTimeOffset : Q;
  fAtmoEmin : Q;
  fAtmoEmax : Q;
  fAtmoRl : Q;
  fAtmoRt : Q;
  fEnvironment : list string;
  fMixerBaseline : Q;
  fFiducialCut : string;
  fDebugFlags : Z;
  fBeamCenter : TVector3;
  fBeamDirection : TVector3;
  fGenFlavors : list Z;              (* std::set<int>, ascending *)
  fFluxFiles : list string;          (* std::set<std::string> *)
  fFluxHistograms : list (option TH1D); (* TH1D*, None for a null pointer *)
  fTotalHistFlux : Q
}.

Record Names : Type := mkNames {
  fTopVolume : string;
  fWorldVolume : string;
  fMixerConfig : string;
  fGeomScan : string;
  fMaxPathOutInfo : string
}.

Record Drivers : Type := mkDrivers {
  fGeomD : option ROOTGeomAnalyzer;
  fFluxD : option GFluxI;
  fFluxD2GMCJD : option FluxForDriver;
  fDriver : option GMCJDriver;
  fGenieEventRecord : option EventRecord
}.

Record Detector : Type := mkDetector {
  fDetLength : Q;
  fDetectorMass : Q;
  fXSecMassPOT : Q
}.

Record SpillState : Type := mkSpill {
  fSpillEvents : Z;
  fSpillExposure : Q;
  fTotalExposure : Q;
  fHistEventsPerSpill : Q
}.

(** The collaborators' state the claims talk about: the ROOT geometry
    manager's current top volume, what was logged, and the ordered calls. *)
Record World : Type := mkWorld {
  geoTopVolume : string;
  wLog : list LogEntry;
  wTrace : list ExtCall
}.

Record GENIEHelper : Type := mkHelper {
  settings : Settings;
  names : Names;
  drivers : Drivers;
  detector : Detector;
  spill : SpillState;
  world : World
}.

(** Member access through the groups, under the source's names. *)
Definition FluxType (h : GENIEHelper) : string := fFluxType (settings h).
Definition SpillEvents (h : GENIEHelper) : Z := fSpillEvents (spill h).
Definition SpillExposure (h : GENIEHelper) : Q := fSpillExposure (spill h).
Definition TotalExposure (h : GENIEHelper) : Q := fTotalExposure (spill h).
Definition HistEventsPerSpill (h : GENIEHelper) : Q :=
  fHistEventsPerSpill (spill h).

Definition with_names (f : Names -> Names) (h : GENIEHelper) : GENIEHelper :=
  mkHelper (settings h) (f (names h)) (drivers h) (detector h) (spill h)
           (world h).
Definition with_drivers (f : Drivers -> Drivers) (h : GENIEHelper)
  : GENIEHelper :=
  mkHelper (settings h) (names h) (f (drivers h)) (detector h) (spill h)
           (world h).
Definition with_detector (f : Detector -> Detector) (h : GENIEHelper)
  : GENIEHelper :=
  mkHelper (settings h) (names h) (drivers h) (f (detector h)) (spill h)
           (world h).
Definition with_spill (f : SpillState -> SpillState) (h : GENIEHelper)
  : GENIEHelper :=
  mkHelper (settings h) (names h) (drivers h) (detector h) (f (spill h))
           (world h).
Definition with_world (f : World -> World) (h : GENIEHelper) : GENIEHelper :=
  mkHelper (settings h) (names h) (drivers h) (detector h) (spill h)
           (f (world h)).

Definition set_fTopVolume (v : string) (n : Names) : Names :=
  mkNames v (fWorldVolume n) (fMixerConfig n) (fGeomScan n)
          (fMaxPathOutInfo n).
Definition set_fWorldVolume (v : string) (n : Names) : Names :=
  mkNames (fTopVolume n) v (fMixerConfig n) (fGeomScan n)
          (fMaxPathOutInfo n).
Definition set_fMixerConfig (v : string) (n : Names) : Names :=
  mkNames (fTopVolume n) (fWorldVolume n) v (fGeomScan n)
          (fMaxPathOutInfo n).
Definition set_fGeomScan (v : string) (n : Names) : Names :=
  mkNames (fTopVolume n) (fWorldVolume n) (fMixerConfig n) v
          (fMaxPathOutInfo n).
Definition set_fMaxPathOutInfo (v : string) (n : Names) : Names :=
  mkNames (fTopVolume n) (fWorldVolume n) (fMixerConfig n) (fGeomScan n) v.

Definition set_fGeomD (v : option ROOTGeomAnalyzer) (d : Drivers) : Drivers :=
  mkDrivers v (fFluxD d) (fFluxD2GMCJD d) (fDriver d) (fGenieEventRecord d).
Definition set_fFluxD (v : option GFluxI) (d : Drivers) : Drivers :=
  mkDrivers (fGeomD d) v (fFluxD2GMCJD d) (fDriver d) (fGenieEventRecord d).
Definition set_fFluxD2GMCJD (v : option FluxForDriver) (d : Drivers)
  : Drivers :=
  mkDrivers (fGeomD d) (fFluxD d) v (fDriver d) (fGenieEventRecord d).
Definition set_fDriver (v : option GMCJDriver) (d : Drivers) : Drivers :=
  mkDrivers (fGeomD d) (fFluxD d) (fFluxD2GMCJD d) v (fGenieEventRecord d).
Definition set_fGenieEventRecord (v : option EventRecord) (d : Drivers)
  : Drivers :=
  mkDrivers (fGeomD d) (fFluxD d) (fFluxD2GMCJD d) (fDriver d) v.

Definition set_fDetLength (v : Q) (d : Detector) : Detector :=
  mkDetector v (fDetectorMass d) (fXSecMassPOT d).
Definition set_fDetectorMass (v : Q) (d : Detector) : Detector :=
  mkDetector (fDetLength d) v (fXSecMassPOT d).
Definition set_fXSecMassPOT (v : Q) (d : Detector) : Detector :=
  mkDetector (fDetLength d) (fDetectorMass d) v.

Definition set_fSpillEvents (v : Z) (s : SpillState) : SpillState :=
  mkSpill v (fSpillExposure s) (fTotalExposure s) (fHistEventsPerSpill s).
Definition set_fSpillExposure (v : Q) (s : SpillState) : SpillState :=
  mkSpill (fSpillEvents s) v (fTotalExposure s) (fHistEventsPerSpill s).
Definition set_fTotalExposure (v : Q) (s : SpillState) : SpillState :=
  mkSpill (fSpillEvents s) (fSpillExposure s) v (fHistEventsPerSpill s).
Definition set_fHistEventsPerSpill (v : Q) (s : SpillState) : SpillState :=
  mkSpill (fSpillEvents s) (fSpillExposure s) (fTotalExposure s) v.

Definition set_geoTopVolume (v : string) (w : World) : World :=
  mkWorld v (wLog w) (wTrace w).
Definition add_log (e : LogEntry) (w : World) : World :=
  mkWorld (geoTopVolume w) (wLog w ++ [e])%list (wTrace w).
Definition add_call (c : ExtCall) (w : World) : World :=
  mkWorld (geoTopVolume w) (wLog w) (wTrace w ++ [c])%list.

Definition set_rgTopVolName (v : string) (g : ROOTGeomAnalyzer)
  : ROOTGeomAnalyzer :=
  mkRgeom v (rgSelector g) (rgScannerNPoints g) (rgScannerNRays g)
          (rgScannerNParticles g) (rgScannerFlux g) (rgMaxPlSafetyFactor g).
Definition set_rgSelector (v : option GeomVolSelector) (g : ROOTGeomAnalyzer)
  : ROOTGeomAnalyzer :=
  mkRgeom (rgTopVolName g) v (rgScannerNPoints g) (rgScannerNRays g)
          (rgScannerNParticles g) (rgScannerFlux g) (rgMaxPlSafetyFactor g).
Definition set_rgScannerNPoints (v : Z) (g : ROOTGeomAnalyzer)
  : ROOTGeomAnalyzer :=
  mkRgeom (rgTopVolName g) (rgSelector g) v (rgScannerNRays g)
          (rgScannerNParticles g) (rgScannerFlux g) (rgMaxPlSafetyFactor g).
Definition set_rgScannerNRays (v : Z) (g : ROOTGeomAnalyzer)
  : ROOTGeomAnalyzer :=
  mkRgeom (rgTopVolName g) (rgSelector g) (rgScannerNPoints g) v
          (rgScannerNParticles g) (rgScannerFlux g) (rgMaxPlSafetyFactor g).
Definition set_rgScannerNParticles (v : Z) (g : ROOTGeomAnalyzer)
  : ROOTGeomAnalyzer :=
  mkRgeom (rgTopVolName g) (rgSelector g) (rgScannerNPoints g)
          (rgScannerNRays g) v (rgScannerFlux g) (rgMaxPlSafetyFactor g).
Definition set_rgScannerFlux (v : bool) (g : ROOTGeomAnalyzer)
  : ROOTGeomAnalyzer :=
  mkRgeom (rgTopVolName g) (rgSelector g) (rgScannerNPoints g)
          (rgScannerNRays g) (rgScannerNParticles g) v
          (rgMaxPlSafetyFactor g).
Definition set_rgMaxPlSafetyFactor (v : option Q) (g : ROOTGeomAnalyzer)
  : ROOTGeomAnalyzer :=
  mkRgeom (rgTopVolName g) (rgSelector g) (rgScannerNPoints g)
          (rgScannerNRays g) (rgScannerNParticles g) (rgScannerFlux g) v.

(** ** Member functions as state transformers that may end fatally *)

Definition M (A : Type) : Type := GENIEHelper -> Result (A * GENIEHelper).

Definition ret {A : Type} (a : A) : M A := fun h => Ok (a, h).

Definition bind {A B : Type} (m : M A) (k : A -> M B) : M B :=
  fun h =>
    match m h with
    | Ok (a, h') => k a h'
    | Failed f => Failed f
    end.

Definition die {A : Type} (f : Fatal) : M A := fun _ => Failed f.

Definition gets {A : Type} (f : GENIEHelper -> A) : M A :=
  fun h => Ok (f h, h).

Definition modify (f : GENIEHelper -> GENIEHelper) : M unit :=
  fun h => Ok (tt, f h).

Declare Scope helper_scope.
Delimit Scope helper_scope with helper.
Notation "x <- c1 ;; c2" := (bind c1 (fun x => c2))
  (at level 100, c1 at next level, right associativity) : helper_scope.
Notation "c1 ;;; c2" := (bind c1 (fun _ => c2))
  (at level 100, right associativity) : helper_scope.

Definition log (sev : Severity) (text : list LogArg) : M unit :=
  modify (with_world (add_log (mkLog sev text))).

Definition call (c : ExtCall) : M unit :=
  modify (with_world (add_call c)).

(** [rgeom->SetTopVolName(name)] on the analyzer the helper points to. *)
Definition rgeom_update (f : ROOTGeomAnalyzer -> ROOTGeomAnalyzer) : M unit :=
  modify (with_drivers (fun d => set_fGeomD (option_map f (fGeomD d)) d)).

Definition rgeom_SetTopVolName (name : string) : M unit :=
  (rgeom_update (set_rgTopVolName name) ;;;
   call (RgeomSetTopVolName name))%helper.

Definition rgeom_AdoptGeomVolSelector (sel : GeomVolSelector) : M unit :=
  (rgeom_update (set_rgSelector (Some sel)) ;;;
   call (RgeomAdoptGeomVolSelector sel))%helper.

(** ** Fiducial selection *)

Section FiducialSelection.
Import StdString GenieUtils.
Local Open Scope helper_scope.

(** The trimmed, lower-cased copy of [fFiducialCut] both functions start
    from. *)
Definition normalized_fidcut (h : GENIEHelper) : string :=
  tolower (trim_leading (fFiducialCut (settings h))).

(** The values after the colon: the non-empty pieces between separators,
    each through [atof]. *)
Definition parse_values (text : string) : list Q :=
  map atof
      (filter (fun piece => negb (String.eqb piece ""))
              (Split text " ,;(){}[]")).

(** [a - b] on [size_t] (64 bits, wrapping). *)
Definition size_t_sub (a b : nat) : Z :=
  ((Z.of_nat a - Z.of_nat b) mod 2 ^ 64)%Z.

(** [std::vector<double>::max_size()] on a 64-bit platform. *)
Definition vector_max_size : Z := (2 ^ 60 - 1)%Z.

(** [for (size_t nadd = 0; nadd < want - nvals; ++nadd) vals.push_back(0);]
    When there are more than [want] values the bound wraps around and the
    vector grows until the allocation fails. *)
Definition pad_values (want : nat) (vals : list Q) : Result (list Q) :=
  let npad := size_t_sub want (length vals) in
  if (vector_max_size <? npad + Z.of_nat (length vals))%Z
  then Failed (Throw "std::bad_alloc")
  else Ok (vals ++ repeat 0%Q (Z.to_nat npad))%list.

(** [vals[i]] once the vector is long enough. *)
Definition val (vals : list Q) (i : nat) : Q := nth i vals 0%Q.

(** [(int)x]: truncation toward zero. *)
Definition to_int (x : Q) : Z :=
  if Qle_bool 0 x then Qfloor x else Qceiling x.

(** The loop that logs every piece of a bad split. *)
Fixpoint log_strtok (i : nat) (pieces : list string) : M unit :=
  match pieces with
  | [] => ret tt
  | p :: rest =>
      log LogWarning [LStr "strtok["; LInt (Z.of_nat i); LStr "] = "; LStr p] ;;;
      log_strtok (S i) rest
  end.

Definition log_if (b : bool) (sev : Severity) (text : list LogArg) : M unit :=
  if b then log sev text else ret tt.

(** The shape dispatch of [InitializeFiducialSelection]: the probes run
    in the order zcyl, box, zpoly, sphere. *)
Definition make_shape (stype fidcut : string) (nvals : nat) (vals : list Q)
           (fidsel : GeomVolSelectorFiducial) : M GeomVolSelectorFiducial :=
  let made shape :=
    mkFid (Some shape) (fidRemoveEntries fidsel) (fidMaster2Top fidsel)
          (fidReverse fidsel) in
  if contains stype "zcyl" then
    log_if (nvals <? 5)%nat LogError
           [LStr "MakeZCylinder needs 5 values, not "; LInt (Z.of_nat nvals);
            LStr fidcut] ;;;
    ret (made (ZCylinder (val vals 0) (val vals 1) (val vals 2)
                         (val vals 3) (val vals 4)))
  else if contains stype "box" then
    log_if (nvals <? 6)%nat LogError
           [LStr "MakeBox needs 6 values, not "; LInt (Z.of_nat nvals);
            LStr fidcut] ;;;
    let xyzmin := (val vals 0, val vals 1, val vals 2) in
    let xyzmax := (val vals 4, val vals 5, val vals 5) in
    ret (made (Box xyzmin xyzmax))
  else if contains stype "zpoly" then
    log_if (nvals <? 7)%nat LogError
           [LStr "MakeZPolygon needs 7 values, not "; LInt (Z.of_nat nvals);
            LStr fidcut] ;;;
    let nfaces := to_int (val vals 0) in
    log_if (nfaces <? 3)%Z LogError
           [LStr "MakeZPolygon needs nfaces>=3, not "; LInt nfaces;
            LStr fidcut] ;;;
    ret (made (ZPolygon nfaces (val vals 1) (val vals 2) (val vals 3)
                        (val vals 4) (val vals 5) (val vals 6)))
  else if contains stype "sphere" then
    log_if (nvals <? 4)%nat LogError
           [LStr "MakeZSphere needs 4 values, not "; LInt (Z.of_nat nvals);
            LStr fidcut] ;;;
    ret (made (Sphere (val vals 0) (val vals 1) (val vals 2) (val vals 3)))
  else
    log LogError
        [LStr "Can not create GeomVolSelectorFiduction for shape ";
         LStr stype] ;;;
    ret fidsel.

(** The optional trailing values of a rock cut and their defaults:
    [rockonly], [wallmin] (cm), [dedx] (GeV/cm) and [fudge]. *)
Definition rock_options (vals : list Q) : bool * Q * Q * Q :=
  let nvals := length vals in
  let rockonly :=
    if (7 <=? nvals)%nat then negb (Qeq_bool (val vals 6) 0) else true in
  let wallmin := if (8 <=? nvals)%nat then val vals 7 else 800%Q in
  let dedx := if (9 <=? nvals)%nat then val vals 8 else (2.5 * 1.7e-3)%Q in
  let fudge := if (10 <=? nvals)%nat then val vals 9 else 1.05%Q in
  (rockonly, wallmin, dedx, fudge).

(** [GENIEHelper::InitializeRockBoxSelection]. *)
Definition InitializeRockBoxSelection : M unit :=
  fidcut <- gets normalized_fidcut ;;
  geom_driver <- gets (fun h => fGeomD (drivers h)) ;;
  match geom_driver with
  | None =>
      log LogWarning
          [LStr "Can not create GeomVolSelectorRockBox,";
           LStr " geometry driver is not ROOTGeomAnalyzer"]
  | Some _ =>
      log LogInfo [LStr "fiducial (rock) cut: "; LStr fidcut] ;;;
      let rocksel := new_GeomVolSelectorRockBox in
      let strtok := Split fidcut ":" in
      match strtok with
      | [stype; valtext] =>
          let vals := parse_values valtext in
          let nvals := length vals in
          (* rocksel->SetRemoveEntries(true) *)
          let fid1 := mkFid None true false false in
          (* coordinates are in the master system *)
          world_name <- gets (fun h => fWorldVolume (names h)) ;;
          modify (with_names (set_fTopVolume world_name)) ;;;
          rgeom_SetTopVolName world_name ;;;
          (if (nvals <? 6)%nat then
             log LogError
                 [LStr "rockbox needs at least 6 values, found ";
                  LInt (Z.of_nat nvals); LStr valtext] ;;;
             die (AssertFailed "nvals >= 6")
           else ret tt) ;;;
          let xyzmin := (val vals 0, val vals 1, val vals 2) in
          let xyzmax := (val vals 3, val vals 4, val vals 5) in
          let '(rockonly, wallmin, dedx, fudge) := rock_options vals in
          let shape :=
            if negb rockonly then Sphere 0 0 0 1.0e-10
            else Box xyzmin xyzmax in
          let rocksel' :=
            mkRock (mkFid (Some shape) true false false)
                   (Some (xyzmin, xyzmax))
                   (Some wallmin)
                   (Some (dedx / fudge)%Q) in
          rgeom_AdoptGeomVolSelector (SelRockBox rocksel')
      | _ =>
          log LogWarning
              [LStr "Can not create GeomVolSelectorRockBox,";
               LStr " no : separating type from values.  nsplit=";
               LInt (Z.of_nat (length strtok))] ;;;
          log_strtok 0 strtok
      end
  end.

(** [GENIEHelper::InitializeFiducialSelection]. *)
Definition InitializeFiducialSelection : M unit :=
  fidcut <- gets normalized_fidcut ;;
  if String.eqb "" fidcut || String.eqb "none" fidcut then ret tt
  else if contains fidcut "rock" then InitializeRockBoxSelection
  else
    geom_driver <- gets (fun h => fGeomD (drivers h)) ;;
    match geom_driver with
    | None =>
        log LogWarning
            [LStr "Can not create GeomVolSelectorFiduction,";
             LStr " geometry driver is not ROOTGeomAnalyzer"]
    | Some _ =>
        log LogInfo [LStr "fiducial cut: "; LStr fidcut] ;;;
        (* fidsel->SetRemoveEntries(true) *)
        let fidsel := mkFid None true false false in
        let strtok := Split fidcut ":" in
        match strtok with
        | [stype; valtext] =>
            let reverse := contains stype "0" in
            let master := contains stype "m" in
            let vals0 := parse_values valtext in
            let nvals := length vals0 in
            match pad_values 7 vals0 with
            | Failed f => die f
            | Ok vals =>
                shaped <- make_shape stype fidcut nvals vals fidsel ;;
                log_if master LogInfo
                  [LStr "Convert fiducial volume from master to topvol coords"] ;;;
                log_if reverse LogInfo
                  [LStr "Reverse sense of fiducial volume cut"] ;;;
                let final :=
                  mkFid (fidShape shaped) (fidRemoveEntries shaped)
                        master reverse in
                rgeom_AdoptGeomVolSelector (SelFiducial final)
            end
        | _ =>
            log LogWarning
                [LStr "Can not create GeomVolSelectorFiduction,";
                 LStr " no : separating type from values.  nsplit=";
                 LInt (Z.of_nat (length strtok))] ;;;
            log_strtok 0 strtok
        end
    end.

End FiducialSelection.

(** ** Spill accounting: [Stop] and [Sample] *)

(** What the collaborators answer during one [Sample] call: the event the
    driver generates (none for a null record), the flux driver's
    [UsedPOTs()], the event driver's [GlobProbScale()], and the flux ray
    position. *)
Record SampleObs : Type := mkSampleObs {
  obsEvent : option EventRecord;
  obsUsedPOTs : Q;
  obsGlobProbScale : Q;
  obsPosition : TVector3
}.

(** What the collaborators answer during one [Stop] call: the atmospheric
    driver's [NFluxNeutrinos()] and [gRandom->Poisson(mean)]. *)
Record StopObs : Type := mkStopObs {
  obsNFluxNeutrinos : Z;
  obsPoisson : Q -> Z
}.

Section SpillAccounting.
Local Open Scope helper_scope.

Definition is_type (t : string) (h : GENIEHelper) : bool :=
  String.eqb (FluxType h) t.

Definition is_atmo (h : GENIEHelper) : bool :=
  is_type "atmo_FLUKA" h || is_type "atmo_BARTOL" h.

Definition is_ntuple_like (h : GENIEHelper) : bool :=
  is_type "ntuple" h || is_type "simple_flux" h.

(** [a < b] and [a > b] on doubles. *)
Definition Qlt_bool (a b : Q) : bool := negb (Qle_bool b a).

(** [TMath::Pi()]. *)
Definition TMath_Pi : Q := 3.14159265358979323846%Q.

(** The first half of [Stop]: [true] when one of the early
    [return false] statements is taken.  Only the histogram branch
    writes, and only when it does not return early. *)
Definition keep_throwing : M bool :=
  h <- gets (fun h => h) ;;
  let eps := fEventsPerSpill (settings h) in
  let events := inject_Z (SpillEvents h) in
  if is_atmo h then
    ret (Qlt_bool 0 eps && Qlt_bool events eps)
  else if Qlt_bool 0 eps then
    ret (Qlt_bool events eps)
  else if is_ntuple_like h
          && Qlt_bool (SpillExposure h) (fPOTPerSpill (settings h)) then
    ret true
  else if is_type "histogram" h then
    if Qlt_bool events (HistEventsPerSpill h) then ret true
    else
      modify (with_spill (set_fSpillExposure (fPOTPerSpill (settings h)))) ;;;
      ret false
  else ret false.

(** The second half of [Stop]: book the spill and reset the counters. *)
Definition close_spill (o : StopObs) : M unit :=
  h <- gets (fun h => h) ;;
  (if is_atmo h then
     match fFluxD (drivers h) with
     | Some (GAtmoFlux _ _ _ _ _ _) =>
         let rt := fAtmoRt (settings h) in
         let seconds :=
           (1e4 * inject_Z (obsNFluxNeutrinos o) / (TMath_Pi * rt * rt))%Q in
         modify (with_spill (set_fTotalExposure seconds)) ;;;
         log LogDebug [LStr "===> Atmo EXPOSURE = "; LNum seconds;
                       LStr " seconds"]
     | _ => die (Undefined "fFluxD is not a GAtmoFlux")
     end
   else
     modify (with_spill
               (fun s => set_fTotalExposure
                           (fTotalExposure s + fSpillExposure s)%Q s))) ;;;
  modify (with_spill (set_fSpillEvents 0%Z)) ;;;
  modify (with_spill (set_fSpillExposure 0%Q)) ;;;
  mean <- gets (fun h => (fXSecMassPOT (detector h)
                          * fTotalHistFlux (settings h))%Q) ;;
  modify (with_spill (set_fHistEventsPerSpill (inject_Z (obsPoisson o mean)))).

(** [GENIEHelper::Stop]. *)
Definition Stop (o : StopObs) : M bool :=
  open <- keep_throwing ;;
  if open then ret false
  else close_spill o ;;; ret true.

(** [geo->ROOTGeoManager()->SetTopVolume(FindVolumeFast(name))]. *)
Definition geo_SetTopVolume (name : string) : M unit :=
  modify (with_world (set_geoTopVolume name)) ;;;
  call (GeoSetTopVolume name).

Definition known_flavor (pdg : Z) : bool :=
  existsb (Z.eqb pdg) [12; -12; 14; -14; 16; -16]%Z.

(** The histogram reads of [Sample]: [fFluxHistograms[0]] and then
    [fFluxHistograms[ctr]] for every known flavor at position [ctr] of
    the flavor set; each must be a histogram. *)
Fixpoint flavor_reads_ok (flavors : list Z) (ctr : nat)
         (hists : list (option TH1D)) : bool :=
  match flavors with
  | [] => true
  | pdg :: rest =>
      (if known_flavor pdg then
         match nth_error hists ctr with
         | Some (Some _) => true
         | _ => false
         end
       else true)
      && flavor_reads_ok rest (S ctr) hists
  end.

Definition histogram_reads_ok (h : GENIEHelper) : bool :=
  match fFluxHistograms (settings h) with
  | Some _ :: _ =>
      flavor_reads_ok (fGenFlavors (settings h)) 0
                      (fFluxHistograms (settings h))
  | _ => false
  end.

Definition incr_fSpillEvents : M unit :=
  modify (with_spill (fun s => set_fSpillEvents (fSpillEvents s + 1)%Z s)).

(** The exposure of the current spill as [Sample] recomputes it for the
    ntuple drivers. *)
Definition exposure_delta (o : SampleObs) (h : GENIEHelper) : Q :=
  (obsUsedPOTs o / obsGlobProbScale o - TotalExposure h)%Q.

(** The flux bookkeeping of [Sample], done before the viability test. *)
Definition pack_flux_exposure (o : SampleObs) : M unit :=
  h <- gets (fun h => h) ;;
  if is_type "ntuple" h then
    match fFluxD (drivers h) with
    | Some (GNuMIFlux _ _ _ _) =>
        modify (with_spill (set_fSpillExposure (exposure_delta o h)))
    | _ => die (Undefined "fFluxD is not a GNuMIFlux")
    end
  else if is_type "simple_flux" h then
    match fFluxD (drivers h) with
    | Some (GSimpleNtpFlux _ _ _ _) =>
        modify (with_spill (set_fSpillExposure (exposure_delta o h)))
    | _ => die (Undefined "fFluxD is not a GSimpleNtpFlux")
    end
  else ret tt.

(** The event counting of [Sample] on a viable interaction. *)
Definition count_event : M unit :=
  h <- gets (fun h => h) ;;
  (if Qlt_bool 0 (fEventsPerSpill (settings h)) && is_ntuple_like h
   then incr_fSpillEvents else ret tt) ;;;
  if is_type "histogram" h then
    if histogram_reads_ok h then incr_fSpillEvents
    else die (Undefined "fFluxHistograms read past its end or null")
  else if is_type "mono" h then incr_fSpillEvents
  else if is_atmo h then
    if Qlt_bool 0 (fEventsPerSpill (settings h)) then incr_fSpillEvents
    else ret tt
  else ret tt.

(** [GENIEHelper::Sample].  The output records ([truth], [flux],
    [gtruth]) are filled by field-by-field copies and are not part of
    the state. *)
Definition Sample (o : SampleObs) : M bool :=
  top <- gets (fun h => fTopVolume (names h)) ;;
  geo_SetTopVolume top ;;;
  driver <- gets (fun h => fDriver (drivers h)) ;;
  match driver with
  | None => die (Undefined "fDriver is null")
  | Some _ =>
      call DriverGenerateEvent ;;;
      modify (with_drivers (set_fGenieEventRecord (obsEvent o))) ;;;
      pack_flux_exposure o ;;;
      match obsEvent o with
      | None => ret false
      | Some record =>
          count_event ;;;
          fluxd <- gets (fun h => fFluxD (drivers h)) ;;
          match fluxd with
          | None => die (Undefined "fFluxD is null")
          | Some _ =>
              flags <- gets (fun h => fDebugFlags (settings h)) ;;
              (if negb (Z.land flags 4 =? 0)%Z then
                 log LogInfo [LStr "vertex loc "; LStr " flux ray start "]
               else ret tt) ;;;
              world_name <- gets (fun h => fWorldVolume (names h)) ;;
              geo_SetTopVolume world_name ;;;
              ret true
          end
      end
  end.

End SpillAccounting.

(** ** Construction *)

(** The configuration table.  Keys the constructor reads with a default
    are optional; the others are required. *)
Record ParameterSet : Type := mkPset {
  pFluxType : string;
  pBeamName : string;
  pTopVolume : string;
  pDetectorLocation : string;
  pFluxUpstreamZ : option Q;
  pEventsPerSpill : option Q;
  pPOTPerSpill : option Q;
  pMonoEnergy : option Q;
  pBeamRadius : option Q;
  pSurroundingMass : option Q;
  pGlobalTimeOffset : option Q;
  pRandomTimeOffset : option Q;
  pAtmoEmin : option Q;
  pAtmoEmax : option Q;
  pRl : option Q;
  pRt : option Q;
  pEnvironment : list string;
  pMixerConfig : option string;
  pMixerBaseline : option Q;
  pFiducialCut : option string;
  pGeomScan : option string;
  pDebugFlags : option Z;
  pBeamCenter : list Q;
  pBeamDirection : list Q;
  pFluxFiles : list string;
  pGenFlavors : list Z;
  pRandomSeed : option Z
}.

(** The process environment and the services the helper consults. *)
Record System : Type := mkSystem {
  (* std::getenv *)
  sys_getenv : string -> option string;
  (* cet::search_path(spec).find_file(name, result): the full path when
     found; on failure [result] is left as it was *)
  sys_find_file : string -> string -> option string;
  sys_strtol : string -> Z;
  sys_GetRandomNumberSeed : Z;
  (* cet::split_path *)
  sys_split_path : string -> list string;
  (* entries of a directory that equal or match a file pattern; None when
     the directory cannot be opened *)
  sys_dir_matches : string -> string -> option nat;
  sys_WorkingDirectory : string;
  (* TFile(file).Get(name) cast to TH1D*, None for a null pointer *)
  sys_TFile_Get : string -> string -> option TH1D;
  (* what the storage of the members without an initializer holds *)
  raw_fTotalHistFlux : Q;
  raw_fXSecMassPOT : Q;
  raw_fDetLength : Q;
  raw_fDetectorMass : Q;
  (* the geometry service *)
  geo_TopVolumeName : string;
  geo_DetLength : Q;
  geo_TotalMass : string -> Q;
  geo_ROOTFile : string;
  (* GENIE: scanner defaults, XML path lookup, the mixer factory *)
  genie_ScannerNPoints : Z;
  genie_ScannerNRays : Z;
  genie_ScannerNParticles : Z;
  genie_GetXMLFilePath : string -> string;
  FLAVORMIXERFACTORY : bool;
  genie_GetFlavorMixer : string -> bool;
  genie_AvailableFlavorMixers : list string;
  (* gRandom->Poisson(mean) during Initialize *)
  sys_Poisson : Q -> Z
}.

Module StdSet.

(** [std::set<int>::insert]: ascending, no duplicates. *)
Fixpoint insert_int (x : Z) (s : list Z) : list Z :=
  match s with
  | [] => [x]
  | y :: rest =>
      if (x <? y)%Z then x :: s
      else if (x =? y)%Z then s
      else y :: insert_int x rest
  end.

(** [std::set<std::string>::insert]. *)
Fixpoint insert_string (x : string) (s : list string) : list string :=
  match s with
  | [] => [x]
  | y :: rest =>
      if String.ltb x y then x :: s
      else if String.eqb x y then s
      else y :: insert_string x rest
  end.

(** [m[key] += n] on a [std::map<std::string,size_t>]. *)
Fixpoint map_add (key : string) (n : nat) (m : list (string * nat))
  : list (string * nat) :=
  match m with
  | [] => [(key, n)]
  | (k, v) :: rest =>
      if String.ltb key k then (key, n) :: m
      else if String.eqb key k then (k, v + n)%nat :: rest
      else (k, v) :: map_add key n rest
  end.

End StdSet.

Section Construction.
Import StdString.
Variable sys : System.

Definition rbind {A B : Type} (r : Result A) (k : A -> Result B)
  : Result B :=
  match r with
  | Ok a => k a
  | Failed f => Failed f
  end.

Definition or_default {A : Type} (o : option A) (d : A) : A :=
  match o with Some a => a | None => d end.

(** [v[0], v[1], v[2]] of a configured vector. *)
Definition xyz_of (v : list Q) : Result TVector3 :=
  match v with
  | x :: y :: z :: _ => Ok (x, y, z)
  | _ => Failed (Undefined "vector read past its end")
  end.

(** One directory alternative of [FindFluxPath]: the pattern under that
    directory and how many entries match it. *)
Definition alternative (userpattern dir : string) : string * option nat :=
  let len := String.length dir in
  let dalt :=
    if (0 <? len)%nat
       && negb (match find_last_of dir "/" with
                | Some k => (k =? len - 1)%nat
                | None => false
                end)
    then dir ++ "/" else dir in
  let filepatt := dalt ++ userpattern in
  match find_last_of filepatt "/" with
  | Some slashpos =>
      (filepatt,
       sys_dir_matches sys (take slashpos filepatt)
                       (drop (S slashpos) filepatt))
  | None =>
      (filepatt, sys_dir_matches sys (sys_WorkingDirectory sys) filepatt)
  end.

Definition count_alternatives (userpattern : string) (dirs : list string)
  : list (string * nat) :=
  fold_left
    (fun path2n dir =>
       match alternative userpattern dir with
       | (filepatt, Some (S k)) => StdSet.map_add filepatt (S k) path2n
       | _ => path2n
       end)
    dirs [].

(** The scan for the path with the most files: a later path replaces the
    current one only with strictly more files. *)
Definition path_with_most (path2n : list (string * nat)) : string * nat :=
  fold_left
    (fun best entry =>
       if (snd best <? snd entry)%nat then entry else best)
    path2n ("", O).

(** [GENIEHelper::FindFluxPath]: the path to insert into [fFluxFiles]. *)
Definition FindFluxPath (fluxType userpattern : string) : Result string :=
  let dirs0 :=
    sys_split_path sys (or_default (sys_getenv sys "FW_SEARCH_PATH") "") in
  let dirs := match dirs0 with [] => [""] | _ => dirs0 end in
  let path2n := count_alternatives userpattern dirs in
  let nftot := fold_left (fun acc e => (acc + snd e)%nat) path2n O in
  let pathmax := fst (path_with_most path2n) in
  if (String.eqb fluxType "ntuple" || String.eqb fluxType "simple_flux")
     && (String.eqb pathmax "" || (nftot =? 0)%nat)
  then Failed (AssertFailed "pathmax != && nftot > 0")
  else Ok pathmax.

(** The loop over the configured flux files; [fileName] is declared
    outside the loop and keeps its value when a lookup fails. *)
Fixpoint resolve_files (files : list string) (fileName : string)
         (acc : list string) : list string :=
  match files with
  | [] => acc
  | f :: rest =>
      let fileName' :=
        or_default (sys_find_file sys "FW_SEARCH_PATH" f) fileName in
      if negb (String.eqb fileName' "") then
        resolve_files rest fileName' (StdSet.insert_string fileName' acc)
      else if String.prefix "/" f then
        resolve_files rest fileName' (StdSet.insert_string f acc)
      else resolve_files rest fileName' acc
  end.

Definition has_wildcard (s : string) : bool :=
  match find_first_of s "*?" with Some _ => true | None => false end.

(** The flux-file set the constructor ends up with. *)
Definition resolved_flux_files (pset : ParameterSet) : Result (list string) :=
  match pFluxFiles pset with
  | [pattern] =>
      if has_wildcard pattern then
        rbind (FindFluxPath (pFluxType pset) pattern)
              (fun path => Ok [path])
      else Ok (resolve_files [pattern] "" [])
  | files => Ok (resolve_files files "" [])
  end.

End Construction.

Section Constructor.
Import StdString.
Variable sys : System.

Fixpoint set_nth (i : nat) (v : string) (l : list string) : list string :=
  match i, l with
  | O, _ :: rest => v :: rest
  | S k, x :: rest => x :: set_nth k v rest
  | _, [] => []
  end.

(** The search for ["GXMLPATH"] among the names, which sit at the even
    positions. *)
Fixpoint find_name (key : string) (env : list string) (i : nat)
  : option nat :=
  match env with
  | [] => None
  | name :: rest =>
      if String.eqb name key then Some i
      else match rest with
           | [] => None
           | _ :: rest' => find_name key rest' (S (S i))
           end
  end.

Definition string_of_int (z : Z) : string :=
  DecimalString.NilZero.string_of_int (Z.to_int z).

(** The last loop over the name/value pairs: expand [GSPLOAD] and export
    each pair.  [pairs] bounds the number of iterations. *)
Fixpoint export_pairs (pairs i indxGXMLPATH : nat) (env : list string)
  : Result (list string) :=
  match pairs with
  | O => Ok env
  | S more =>
      match nth_error env i with
      | None => Ok env                      (* i >= size: loop ends *)
      | Some name =>
          match nth_error env (S i) with
          | None => Failed (Undefined "fEnvironment read past its end")
          | Some value =>
              if String.eqb name "GSPLOAD" then
                match nth_error env (S indxGXMLPATH) with
                | None => Failed (Undefined "fEnvironment read past its end")
                | Some gxmlpath =>
                    match sys_find_file sys gxmlpath value with
                    | None => Failed (Throw "UnresolvedGSPLOAD")
                    | Some fullpath =>
                        if String.eqb fullpath "" then
                          Failed (Throw "UnresolvedGSPLOAD")
                        else
                          export_pairs more (S (S i)) indxGXMLPATH
                                       (set_nth (S i) fullpath env)
                    end
                end
              else export_pairs more (S (S i)) indxGXMLPATH env
          end
      end
  end.

(** The environment block of the constructor: [GSEED], [GXMLPATH],
    [GSPLOAD]. *)
Definition setup_environment (pset : ParameterSet) : Result (list string) :=
  let dfltseed :=
    match sys_getenv sys "GSEED" with
    | Some gseedstr => sys_strtol sys gseedstr
    | None => sys_GetRandomNumberSeed sys
    end in
  let seed := string_of_int (or_default (pRandomSeed pset) dfltseed) in
  let env1 := (pEnvironment pset ++ ["GSEED"; seed])%list in
  let gxml0 := or_default (sys_getenv sys "GXMLPATH") "" in
  let gxmlpathadd :=
    match sys_getenv sys "FW_SEARCH_PATH" with
    | Some fwpath =>
        (if negb (String.eqb gxml0 "") then gxml0 ++ ":" else gxml0)
          ++ fwpath
    | None => gxml0
    end in
  let located :=
    match find_name "GXMLPATH" env1 O with
    | None =>
        Ok (List.length env1, (env1 ++ ["GXMLPATH"; gxmlpathadd])%list)
    | Some indx =>
        match nth_error env1 (S indx) with
        | None => Failed (Undefined "fEnvironment read past its end")
        | Some old =>
            Ok (indx, set_nth (S indx) (old ++ ":" ++ gxmlpathadd) env1)
        end
    end in
  rbind located
        (fun '(indx, env2) =>
           export_pairs (List.length env2) O indx env2).

(** The histogram name the constructor asks the file for. *)
Definition histogram_names (pdg : Z) : list string :=
  ((if (pdg =? 12)%Z then ["nue"] else [])
   ++ (if (pdg =? -12)%Z then ["nuebar"] else [])
   ++ (if (pdg =? 14)%Z then ["numu"] else [])
   ++ (if (pdg =? -14)%Z then ["numubar"] else [])
   ++ (if (pdg =? 16)%Z then ["nutau"] else [])
   ++ (if (pdg =? -16)%Z then ["nutaubar"] else []))%list.

Definition load_histograms (file : string) (flavors : list Z)
  : list (option TH1D) :=
  flat_map (fun pdg => map (sys_TFile_Get sys file) (histogram_names pdg))
           flavors.

(** [for (i...) { fFluxHistograms[i]->SetDirectory(savedir);
                 fTotalHistFlux += fFluxHistograms[i]->Integral(); }] *)
Fixpoint add_integrals (hists : list (option TH1D)) (total : Q) : Result Q :=
  match hists with
  | [] => Ok total
  | Some hist :: rest => add_integrals rest (total + hIntegral hist)%Q
  | None :: _ => Failed (Undefined "null histogram pointer")
  end.

(** The atmospheric block of the constructor. *)
Definition check_atmo (fluxType : string) (nflavors nfiles : nat) (eps : Q)
  : Result unit :=
  if contains fluxType "atmo" then
    if negb (nflavors =? nfiles)%nat then Failed (Exit 1)
    else if negb (Qeq_bool eps 1) then Failed (Exit 1)
    else if String.eqb fluxType "atmo_FLUKA" then Ok tt
    else if String.eqb fluxType "atmo_BARTOL" then Ok tt
    else Failed (Exit 1)
  else Ok tt.

(** The histogram block of the constructor: the histograms and the
    accumulated total, which starts from whatever the member held. *)
Definition make_histograms (fluxType : string) (files : list string)
           (flavors : list Z) : Result (list (option TH1D) * Q) :=
  if String.eqb fluxType "histogram" then
    match files with
    | [] => Failed (Undefined "fFluxFiles.begin() of an empty set")
    | file :: _ =>
        let hists := load_histograms file flavors in
        rbind (add_integrals hists (raw_fTotalHistFlux sys))
              (fun total => Ok (hists, total))
    end
  else Ok ([], raw_fTotalHistFlux sys).

(** [GENIEHelper::GENIEHelper(pset)].  Informational log lines of the
    constructor are not recorded. *)
Definition construct (pset : ParameterSet) : Result GENIEHelper :=
  rbind (xyz_of (pBeamCenter pset)) (fun center =>
  rbind (xyz_of (pBeamDirection pset)) (fun direction =>
  let flavors :=
    fold_left (fun s x => StdSet.insert_int x s) (pGenFlavors pset) [] in
  rbind (resolved_flux_files sys pset) (fun files =>
  rbind (setup_environment pset) (fun env =>
  let fluxType := pFluxType pset in
  let eps0 := or_default (pEventsPerSpill pset) 0%Q in
  rbind (check_atmo fluxType (List.length (pGenFlavors pset))
                    (List.length files) eps0) (fun _ =>
  rbind (make_histograms fluxType files flavors) (fun '(hists, total) =>
  let eps := if String.eqb fluxType "mono" then 1%Q else eps0 in
  Ok (mkHelper
        (mkSettings fluxType (pBeamName pset) (pDetectorLocation pset)
           (or_default (pFluxUpstreamZ pset) (-2e30)%Q)
           eps
           (or_default (pPOTPerSpill pset) 5e13%Q)
           (or_default (pMonoEnergy pset) 2.0%Q)
           (or_default (pBeamRadius pset) 3.0%Q)
           (or_default (pSurroundingMass pset) 0%Q)
           (or_default (pGlobalTimeOffset pset) 1e4%Q)
           (or_default (pRandomTimeOffset pset) 1e4%Q)
           (or_default (pAtmoEmin pset) 0.1%Q)
           (or_default (pAtmoEmax pset) 10.0%Q)
           (or_default (pRl pset) 20.0%Q)
           (or_default (pRt pset) 20.0%Q)
           env
           (or_default (pMixerBaseline pset) 0%Q)
           (or_default (pFiducialCut pset) "none")
           (or_default (pDebugFlags pset) 0%Z)
           center direction flavors files hists total)
        (mkNames (pTopVolume pset) "volWorld"
                 (or_default (pMixerConfig pset) "none")
                 (or_default (pGeomScan pset) "default") "")
        (mkDrivers None None None None None)
        (mkDetector (raw_fDetLength sys) (raw_fDetectorMass sys)
                    (raw_fXSecMassPOT sys))
        (mkSpill 0%Z 0%Q 0%Q 0%Q)
        (mkWorld (geo_TopVolumeName sys) [] [])))))))).

(** [GENIEHelper::TotalHistFlux]. *)
Definition TotalHistFlux (h : GENIEHelper) : Q :=
  if String.eqb (FluxType h) "ntuple"
     || String.eqb (FluxType h) "mono"
     || String.eqb (FluxType h) "simple_flux"
  then (-999)%Q
  else fTotalHistFlux (settings h).

End Constructor.

(** ** Initialization *)

Section Initialization.
Import StdString GenieUtils.
Variable sys : System.
Local Open Scope helper_scope.

(** [GENIEHelper::InitializeGeometry]. *)
Definition InitializeGeometry : M unit :=
  let rgeom :=
    mkRgeom "" None (genie_ScannerNPoints sys) (genie_ScannerNRays sys)
            (genie_ScannerNParticles sys) false None in
  modify (with_names (set_fWorldVolume (geo_TopVolumeName sys))) ;;;
  top <- gets (fun h => fTopVolume (names h)) ;;
  modify (with_drivers (set_fGeomD (Some rgeom))) ;;;
  rgeom_SetTopVolName top ;;;
  InitializeFiducialSelection ;;;
  modify (with_detector (set_fDetLength (geo_DetLength sys))) ;;;
  top' <- gets (fun h => fTopVolume (names h)) ;;
  modify (with_detector (set_fDetectorMass (geo_TotalMass sys top'))).

(** [SetUpstreamZ] is called only for a finite override. *)
Definition upstream_override (z : Q) : option Q :=
  if Qlt_bool (Qabs z) 1.0e30 then Some z else None.

(** The histogram driver takes [fFluxHistograms[ctr]] for the flavor at
    position [ctr] of the set. *)
Fixpoint energy_spectra (flavors : list Z) (ctr : nat)
         (hists : list (option TH1D)) : Result (list (Z * TH1D)) :=
  match flavors with
  | [] => Ok []
  | pdg :: rest =>
      match nth_error hists ctr with
      | Some (Some hist) =>
          rbind (energy_spectra rest (S ctr) hists)
                (fun tail => Ok ((pdg, hist) :: tail))
      | _ => Failed (Undefined "fFluxHistograms read past its end or null")
      end
  end.

(** The double loop that hands flux files to the atmospheric driver:
    [ctrfv] counts every inner step, [ctrff] every call. *)
Fixpoint atmo_inner (pdg : Z) (files : list string) (ctrfv ctrff : nat)
         (acc : list (Z * string)) : nat * nat * list (Z * string) :=
  match files with
  | [] => (ctrfv, ctrff, acc)
  | file :: rest =>
      if (ctrfv =? ctrff)%nat
      then atmo_inner pdg rest (S ctrfv) (S ctrff) (acc ++ [(pdg, file)])%list
      else atmo_inner pdg rest (S ctrfv) ctrff acc
  end.

Fixpoint atmo_outer (flavors : list Z) (files : list string)
         (ctrfv ctrff : nat) (acc : list (Z * string)) : list (Z * string) :=
  match flavors with
  | [] => acc
  | pdg :: rest =>
      let '(ctrfv', ctrff', acc') := atmo_inner pdg files ctrfv ctrff acc in
      atmo_outer rest files ctrfv' ctrff' acc'
  end.

(** The flux driver for the configured type; [None] leaves [fFluxD] null. *)
Definition make_flux_driver (h : GENIEHelper) : Result (option GFluxI) :=
  let s := settings h in
  let first_file (k : string -> GFluxI) : Result (option GFluxI) :=
    match fFluxFiles s with
    | [] => Failed (Undefined "fFluxFiles.begin() of an empty set")
    | file :: _ => Ok (Some (k file))
    end in
  if is_type "ntuple" h then
    first_file (fun file =>
      GNuMIFlux file (fDetLocation s) (fGenFlavors s)
                (upstream_override (fFluxUpstreamZ s)))
  else if is_type "simple_flux" h then
    first_file (fun file =>
      GSimpleNtpFlux file (fDetLocation s) (fGenFlavors s)
                     (upstream_override (fFluxUpstreamZ s)))
  else if is_type "histogram" h then
    rbind (energy_spectra (fGenFlavors s) 0 (fFluxHistograms s))
          (fun spectra =>
             Ok (Some (GCylindTH1Flux spectra (fBeamDirection s)
                                      (fBeamCenter s) (fBeamRadius s))))
  else if is_type "mono" h then
    let weight := (1 / inject_Z (Z.of_nat (List.length (fGenFlavors s))))%Q in
    Ok (Some (GMonoEnergeticFlux (fMonoEnergy s)
                (map (fun pdg => (pdg, weight)) (fGenFlavors s))
                (fBeamDirection s) (fBeamCenter s)))
  else if is_atmo h then
    let kind := if is_type "atmo_BARTOL" h then Bartol else Fluka3D in
    Ok (Some (GAtmoFlux kind (fAtmoEmin s) (fAtmoEmax s)
                (atmo_outer (fGenFlavors s) (fFluxFiles s) 0 0 [])
                (fAtmoRl s) (fAtmoRt s)))
  else Ok None.

(** The mixer for a keyword, and the configuration text left for it. *)
Definition make_mixer (keyword config : string)
  : option GFlavorMixerI * string :=
  if String.eqb keyword "map" || String.eqb keyword "swap"
     || String.eqb keyword "fixedfrac"
  then (Some (mkMixer "GFlavorMap" config), config)
  else if FLAVORMIXERFACTORY sys && genie_GetFlavorMixer sys keyword then
    let config' := trim_leading (drop (String.length keyword) config) in
    (Some (mkMixer keyword config'), config')
  else (None, config).

Fixpoint log_known_mixers (j : nat) (known : list string) : M unit :=
  match known with
  | [] => ret tt
  | name :: rest =>
      log LogWarning [LStr "   ["; LInt (Z.of_nat j); LStr "]  "; LStr name] ;;;
      log_known_mixers (S j) rest
  end.

(** [GENIEHelper::InitializeFluxDriver]. *)
Definition InitializeFluxDriver : M unit :=
  h <- gets (fun h => h) ;;
  match make_flux_driver h with
  | Failed f => die f
  | Ok fluxd =>
      modify (with_drivers (set_fFluxD fluxd)) ;;;
      modify (with_drivers (set_fFluxD2GMCJD (option_map (fun _ => BareFlux) fluxd))) ;;;
      modify (with_names (fun n => set_fMixerConfig
                                     (trim_leading (fMixerConfig n)) n)) ;;;
      config <- gets (fun h => fMixerConfig (names h)) ;;
      let keyword :=
        match find_first_of config blanks with
        | Some k => take k config
        | None => config
        end in
      if String.eqb keyword "none" then ret tt
      else
        let '(mixer, config') := make_mixer keyword config in
        modify (with_names (set_fMixerConfig config')) ;;;
        (match mixer with
         | Some _ => ret tt
         | None =>
             (if FLAVORMIXERFACTORY sys then
                log LogWarning [LStr " GFlavorMixerFactory known mixers: "] ;;;
                log_known_mixers 0 (genie_AvailableFlavorMixers sys)
              else ret tt) ;;;
             log LogWarning
                 [LStr "GENIEHelper MixerConfig keyword was ";
                  LStr keyword;
                  LStr " but that did not map to a class; ";
                  LStr "GFluxBlender in use, but no mixer"]
         end) ;;;
        modify (with_drivers
                  (set_fFluxD2GMCJD
                     (Some (GFluxBlender (fMixerBaseline (settings h))
                                         mixer))))
  end.

Definition line (text : string) : string := text ++ String newline "".

(** [GENIEHelper::SetMaxPathOutInfo]. *)
Definition SetMaxPathOutInfo : M unit :=
  log LogInfo [LStr "about to create MaxPathOutInfo"] ;;;
  h <- gets (fun h => h) ;;
  let s := settings h in
  let n := names h in
  let info :=
    line ""
    ++ line ("   FluxType:     " ++ fFluxType s)
    ++ line ("   BeamName:     " ++ fBeamName s)
    ++ "   FluxFiles:    "
    ++ String.concat ""
         (map (fun f => String newline "" ++ "         " ++ f)
              (fFluxFiles s))
    ++ line ""
    ++ line ("   DetLocation:  " ++ fDetLocation s)
    ++ line ("   ROOTFile:     " ++ geo_ROOTFile sys)
    ++ line ("   WorldVolume:  " ++ fWorldVolume n)
    ++ line ("   TopVolume:    " ++ fTopVolume n)
    ++ line ("   FiducialCut:  " ++ fFiducialCut s)
    ++ line ("   GeomScan:     " ++ fGeomScan n) in
  modify (with_names (set_fMaxPathOutInfo info)) ;;;
  log LogInfo [LStr "MaxPathOutInfo: "; LStr info].

(** The numeric tokens of a scan spec: tokens 1.. that are not empty. *)
Definition scan_values (strtok : list string) : list Q :=
  map atof (filter (fun t => negb (String.eqb t "")) (tl strtok)).

(** [GENIEHelper::ConfigGeomScan]. *)
Definition ConfigGeomScan : M unit :=
  modify (with_names (fun n => set_fGeomScan
                                 (trim_leading (fGeomScan n)) n)) ;;;
  scan0 <- gets (fun h => fGeomScan (names h)) ;;
  if contains scan0 "default" then ret tt
  else
    geomd <- gets (fun h => fGeomD (drivers h)) ;;
    match geomd with
    | None =>
        log LogError
            [LStr "fGeomD wasn't of type genie::geometry::ROOTGeomAnalyzer*"] ;;;
        die (AssertFailed "rgeom")
    | Some rgeom =>
        modify (with_names (set_fGeomScan (tolower scan0))) ;;;
        let scan := tolower scan0 in
        let strtok := Split scan " " in
        let scanmethod := hd "" strtok in
        if contains scanmethod "file" then
          match nth_error strtok 1 with
          | None => die (Undefined "strtok read past its end")
          | Some filename =>
              let fullname := genie_GetXMLFilePath sys filename in
              driver <- gets (fun h => fDriver (drivers h)) ;;
              match driver with
              | None => die (Undefined "fDriver is null")
              | Some _ =>
                  modify (with_drivers
                            (set_fDriver (Some (mkDriver (Some fullname))))) ;;;
                  log LogInfo
                      [LStr "ConfigGeomScan getting MaxPathLengths from ";
                       LStr fullname]
              end
          end
        else
          let vals0 := scan_values strtok in
          let nvals := List.length vals0 in
          match pad_values 4 vals0 with
          | Failed f => die f
          | Ok vals =>
              choice <-
                (if contains scanmethod "box" then
                   let np0 := to_int (val vals 0) in
                   let nr0 := to_int (val vals 1) in
                   let safetyfactor :=
                     if (3 <=? nvals)%nat then val vals 2 else 0%Q in
                   let writeout :=
                     if (4 <=? nvals)%nat then to_int (val vals 3) else 0%Z in
                   let np := if (np0 <=? 10)%Z then rgScannerNPoints rgeom
                             else np0 in
                   let nr := if (nr0 <=? 10)%Z then rgScannerNRays rgeom
                             else nr0 in
                   log LogInfo [LStr "ConfigGeomScan scan using box ";
                                LInt np; LStr " points, "; LInt nr;
                                LStr " rays"] ;;;
                   rgeom_update (set_rgScannerNPoints np) ;;;
                   rgeom_update (set_rgScannerNRays nr) ;;;
                   ret (safetyfactor, writeout)
                 else if contains scanmethod "flux" then
                   let np0 := to_int (val vals 0) in
                   let safetyfactor :=
                     if (2 <=? nvals)%nat then val vals 1 else 0%Q in
                   let writeout :=
                     if (3 <=? nvals)%nat then to_int (val vals 2) else 0%Z in
                   let np := if (np0 <=? 10)%Z then rgScannerNParticles rgeom
                             else np0 in
                   log LogInfo [LStr "ConfigGeomScan scan using flux ";
                                LInt np; LStr " particles "] ;;;
                   rgeom_update (set_rgScannerFlux true) ;;;
                   rgeom_update (set_rgScannerNParticles np) ;;;
                   ret (safetyfactor, writeout)
                 else
                   log LogError [LStr "fGeomScan unknown method: ";
                                 LStr scan] ;;;
                   die (AssertFailed "0")) ;;
              let '(safetyfactor, writeout) := choice in
              (if Qlt_bool 0 safetyfactor then
                 log LogInfo [LStr "ConfigGeomScan setting safety factor to ";
                              LNum safetyfactor] ;;;
                 rgeom_update (set_rgMaxPlSafetyFactor (Some safetyfactor))
               else ret tt) ;;;
              if negb (writeout =? 0)%Z then SetMaxPathOutInfo else ret tt
          end
    end.

(** The nucleon mass in kg the event-rate estimate divides by. *)
Definition nucleon_mass_kg : Q := 1.67262158e-27%Q.

(** [GENIEHelper::Initialize]. *)
Definition Initialize : M unit :=
  modify (with_drivers (set_fDriver (Some (mkDriver None)))) ;;;
  InitializeGeometry ;;;
  InitializeFluxDriver ;;;
  ConfigGeomScan ;;;
  h <- gets (fun h => h) ;;
  (if is_type "histogram" h
      && Qlt_bool (fEventsPerSpill (settings h)) 0.01 then
     let xsecmasspot :=
       (1.0e-38 * 1.0e-20
        * (fPOTPerSpill (settings h)
           * (fDetectorMass (detector h) + fSurroundingMass (settings h))
           / nucleon_mass_kg))%Q in
     modify (with_detector (set_fXSecMassPOT xsecmasspot)) ;;;
     let mean := (xsecmasspot * fTotalHistFlux (settings h))%Q in
     log LogInfo
         [LStr "Number of events per spill will be based on poisson mean of ";
          LNum mean] ;;;
     modify (with_spill
               (set_fHistEventsPerSpill (inject_Z (sys_Poisson sys mean))))
   else ret tt) ;;;
  modify (with_spill (set_fSpillEvents 0%Z)) ;;;
  modify (with_spill (set_fSpillExposure 0%Q)) ;;;
  modify (with_spill (set_fTotalExposure 0%Q)).

End Initialization.

(** ** Sequences of calls *)

Inductive Call : Type :=
| CallSample (o : SampleObs)
| CallStop (o : StopObs).

Definition step (c : Call) (h : GENIEHelper) : Result GENIEHelper :=
  match c with
  | CallSample o =>
      match Sample o h with
      | Ok (_, h') => Ok h'
      | Failed f => Failed f
      end
  | CallStop o =>
      match Stop o h with
      | Ok (_, h') => Ok h'
      | Failed f => Failed f
      end
  end.

Fixpoint run (calls : list Call) (h : GENIEHelper) : Result GENIEHelper :=
  match calls with
  | [] => Ok h
  | c :: rest =>
      match step c h with
      | Ok h' => run rest h'
      | Failed f => Failed f
      end
  end.



(** The dynamic type of [fFluxD] is the one [InitializeFluxDriver] builds
    for the configured flux type. *)
Definition flux_driver_ok (h : GENIEHelper) : bool :=
  match fFluxD (drivers h) with
  | Some (GNuMIFlux _ _ _ _) => is_type "ntuple" h
  | Some (GSimpleNtpFlux _ _ _ _) => is_type "simple_flux" h
  | Some (GCylindTH1Flux _ _ _ _) => is_type "histogram" h
  | Some (GMonoEnergeticFlux _ _ _ _) => is_type "mono" h
  | Some (GAtmoFlux _ _ _ _ _ _) => is_atmo h
  | None =>
      negb (is_type "ntuple" h || is_type "simple_flux" h
            || is_type "histogram" h || is_type "mono" h || is_atmo h)
  end.

(** What [Initialize] leaves behind and every later call keeps: an event
    driver, and a flux driver of the configured type. *)
Definition ready (h : GENIEHelper) : Prop :=
  fDriver (drivers h) <> None /\ flux_driver_ok h = true.

(** The helper as [Sample] has it when the flux bookkeeping starts: the
    geometry manager set to the top volume, the event generated and
    stored. *)
Definition entered (o : SampleObs) (h : GENIEHelper) : GENIEHelper :=
  with_drivers (set_fGenieEventRecord (obsEvent o))
    (with_world (add_call DriverGenerateEvent)
       (with_world (add_call (GeoSetTopVolume (fTopVolume (names h))))
          (with_world (set_geoTopVolume (fTopVolume (names h))) h))).

(** ** Concrete configurations *)

Module Examples.

(** A system with nothing in the environment, flux files under [/data],
    one [numu] histogram of integral 5, and a world volume [volWorld]. *)
Definition sys0 : System :=
  mkSystem (fun _ => None)
    (fun _ name =>
       if String.prefix "flux" name then Some ("/data/" ++ name) else None)
    (fun _ => 0%Z) 7%Z (fun _ => []) (fun _ _ => None) "/work"
    (fun _ name =>
       if String.eqb name "numu" then Some (mkTH1D "numu" 5) else None)
    0 0 0 0
    "volWorld" 100 (fun _ => 1000) "geo.gdml"
    200%Z 200%Z 10000%Z (fun s => s) false (fun _ => false) []
    (fun mean => if Qle_bool mean 0 then 0%Z else 3%Z).

(** The same system with a stale 1 in the storage of [fTotalHistFlux]. *)
Definition sys_stale : System :=
  mkSystem (sys_getenv sys0) (sys_find_file sys0) (sys_strtol sys0)
    (sys_GetRandomNumberSeed sys0) (sys_split_path sys0)
    (sys_dir_matches sys0) (sys_WorkingDirectory sys0) (sys_TFile_Get sys0)
    1 0 0 0
    (geo_TopVolumeName sys0) (geo_DetLength sys0) (geo_TotalMass sys0)
    (geo_ROOTFile sys0) (genie_ScannerNPoints sys0) (genie_ScannerNRays sys0)
    (genie_ScannerNParticles sys0) (genie_GetXMLFilePath sys0)
    (FLAVORMIXERFACTORY sys0) (genie_GetFlavorMixer sys0)
    (genie_AvailableFlavorMixers sys0) (sys_Poisson sys0).

Definition pset_of (fluxType : string) (flavors : list Z)
           (files : list string) (eventsPerSpill potPerSpill : option Q)
           (fiducialCut : option string) : ParameterSet :=
  mkPset fluxType "numi" "volDetEnclosure" "NOvA-ND"
         None eventsPerSpill potPerSpill None None None None None
         None None None None [] None None fiducialCut None None
         [0; 0; 0]%Q [0; 0; 1]%Q files flavors None.

(** [{type: mono, flavors: [14], energy: 2.0, perSpillEvents: 1}] *)
Definition pset_mono : ParameterSet :=
  pset_of "mono" [14%Z] [] (Some 1%Q) None None.

Definition pset_ntuple : ParameterSet :=
  pset_of "ntuple" [14%Z] ["flux1.root"] None None None.

Definition pset_histogram (potPerSpill : Q) : ParameterSet :=
  pset_of "histogram" [14%Z] ["flux.root"] None (Some potPerSpill) None.

Definition pset_atmo (flavors : list Z) (files : list string) (eps : Q)
  : ParameterSet :=
  pset_of "atmo_FLUKA" flavors files (Some eps) None None.

Definition pset_cut (cut : string) : ParameterSet :=
  pset_of "mono" [14%Z] [] (Some 1%Q) None (Some cut).

(** The helper after construction and [Initialize], when both succeed. *)
Definition initialized (sys : System) (pset : ParameterSet)
  : Result GENIEHelper :=
  match construct sys pset with
  | Ok h =>
      match Initialize sys h with
      | Ok (_, h') => Ok h'
      | Failed f => Failed f
      end
  | Failed f => Failed f
  end.

(** The helper after construction and [InitializeGeometry], which runs
    the fiducial selection. *)
Definition with_geometry (sys : System) (pset : ParameterSet)
  : Result GENIEHelper :=
  match construct sys pset with
  | Ok h =>
      match InitializeGeometry sys h with
      | Ok (_, h') => Ok h'
      | Failed f => Failed f
      end
  | Failed f => Failed f
  end.

(** The helper the constructor builds, with a default standing in for a
    fatal outcome. *)
Definition constructed (sys : System) (pset : ParameterSet)
           (default : GENIEHelper) : GENIEHelper :=
  match construct sys pset with
  | Ok h => h
  | Failed _ => default
  end.

(** The helper after construction, [Initialize] and a sequence of calls. *)
Definition after (sys : System) (pset : ParameterSet) (calls : list Call)
  : Result GENIEHelper :=
  match initialized sys pset with
  | Ok h => run calls h
  | Failed f => Failed f
  end.

(** The same, with a default helper standing in for a fatal outcome. *)
Definition helper_after (sys : System) (pset : ParameterSet)
           (calls : list Call) (default : GENIEHelper) : GENIEHelper :=
  match after sys pset calls with
  | Ok h => h
  | Failed _ => default
  end.

Definition event : EventRecord := mkEvent (1, 2, 3)%Q.

Definition hit (usedPOTs : Q) : SampleObs :=
  mkSampleObs (Some event) usedPOTs 1 (0, 0, 0)%Q.

Definition miss (usedPOTs : Q) : SampleObs :=
  mkSampleObs None usedPOTs 1 (0, 0, 0)%Q.

Definition quiet : StopObs := mkStopObs 0 (fun _ => 0%Z).

(** A default helper for a given cut, with an analyzer in place. *)
Definition helper_with_cut (cut : string) : GENIEHelper :=
  mkHelper
    (mkSettings "mono" "numi" "NOvA-ND" 0 1 0 2 3 0 0 0 0 0 0 0 [] 0 cut
                0%Z (0, 0, 0)%Q (0, 0, 1)%Q [14%Z] [] [] 0)
    (mkNames "volDetEnclosure" "volWorld" "none" "default" "")
    (mkDrivers (Some (mkRgeom "volDetEnclosure" None 200 200 10000 false None))
               None None None None)
    (mkDetector 0 0 0) (mkSpill 0 0 0 0) (mkWorld "volWorld" [] []).

End Examples.

(** ** Reasoning about state transformers *)

(** [m] keeps the invariant [I] whenever it returns. *)
Definition preserves {A : Type} (I : GENIEHelper -> Prop) (m : M A) : Prop :=
  forall h a h', I h -> m h = Ok (a, h') -> I h'.

(** Invariants that do not look at the log, the trace or the geometry
    manager. *)
Definition world_blind (I : GENIEHelper -> Prop) : Prop :=
  forall f h, I h -> I (with_world f h).

(** The settings are the given ones. *)
Definition settings_are (s : Settings) (h : GENIEHelper) : Prop :=
  settings h = s.

(** There is an event driver. *)
Definition has_driver (h : GENIEHelper) : Prop :=
  fDriver (drivers h) <> None.

(** The flux driver is the given one. *)
Definition flux_is (fd : option GFluxI) (h : GENIEHelper) : Prop :=
  fFluxD (drivers h) = fd.

(** The invariants the frame lemmas are stated for. *)
Inductive framed : (GENIEHelper -> Prop) -> Prop :=
| framed_settings (s : Settings) : framed (settings_are s)
| framed_driver : framed has_driver
| framed_flux (fd : option GFluxI) : framed (flux_is fd).

(** The spill counters are the given ones. *)
Definition spill_is (s : SpillState) (h : GENIEHelper) : Prop :=
  spill h = s.



(** The constructor gets as far as its atmospheric block: the beam
    vectors, the flux files and the environment were all fine. *)
Definition reaches_atmo_check (sys : System) (pset : ParameterSet) : Prop :=
  (exists c, xyz_of (pBeamCenter pset) = Ok c)
  /\ (exists d, xyz_of (pBeamDirection pset) = Ok d)
  /\ (exists files, resolved_flux_files sys pset = Ok files)
  /\ (exists env, setup_environment sys pset = Ok env).

(** The sum of the integrals of the loaded histograms. *)
Definition sum_of_integrals (hists : list TH1D) : Q :=
  fold_right (fun hist acc => (hIntegral hist + acc)%Q) 0%Q hists.


(** What the sampling calls must leave alone besides the settings. *)
Definition names_are (n : Names) (h : GENIEHelper) : Prop := names h = n.
Definition detector_is (d : Detector) (h : GENIEHelper) : Prop :=
  detector h = d.
Definition geom_is (g : option ROOTGeomAnalyzer) (h : GENIEHelper) : Prop :=
  fGeomD (drivers h) = g.
Definition blender_is (b : option FluxForDriver) (h : GENIEHelper) : Prop :=
  fFluxD2GMCJD (drivers h) = b.
Definition driver_is (d : option GMCJDriver) (h : GENIEHelper) : Prop :=
  fDriver (drivers h) = d.

Inductive framed_run : (GENIEHelper -> Prop) -> Prop :=
| framed_names (n : Names) : framed_run (names_are n)
| framed_detector (d : Detector) : framed_run (detector_is d)
| framed_geom (g : option ROOTGeomAnalyzer) : framed_run (geom_is g)
| framed_blender (b : option FluxForDriver) : framed_run (blender_is b)
| framed_event_driver (d : option GMCJDriver) : framed_run (driver_is d).

(** What the later initialization steps (flux driver, geometry scan) must
    leave alone: the volume names, the detector numbers, the presence of
    the analyzer and its selector. *)
Definition world_volume_is (w : string) (h : GENIEHelper) : Prop :=
  fWorldVolume (names h) = w.
Definition top_volume_is (t : string) (h : GENIEHelper) : Prop :=
  fTopVolume (names h) = t.
Definition selector_is (s : option GeomVolSelector) (h : GENIEHelper) : Prop :=
  option_map rgSelector (fGeomD (drivers h)) = Some s.

Inductive framed_late : (GENIEHelper -> Prop) -> Prop :=
| framed_world_volume (w : string) : framed_late (world_volume_is w)
| framed_top_volume (t : string) : framed_late (top_volume_is t)
| framed_selector (s : option GeomVolSelector) : framed_late (selector_is s)
| framed_late_detector (d : Detector) : framed_late (detector_is d).

(** Whether [Sample] counts a viable event into [fSpillEvents]. *)
Definition counts_event (h : GENIEHelper) : bool :=
  is_type "histogram" h || is_type "mono" h
  || (Qlt_bool 0 (fEventsPerSpill (settings h))
      && (is_ntuple_like h || is_atmo h)).


(** None of the flux types [InitializeFluxDriver] knows. *)
Definition unknown_type (h : GENIEHelper) : bool :=
  negb (is_type "ntuple" h || is_type "simple_flux" h
        || is_type "histogram" h || is_type "mono" h || is_atmo h).

(** The helper with more entries in the log and nothing else changed. *)
Definition append_log (entries : list LogEntry) (h : GENIEHelper)
  : GENIEHelper :=
  with_world
    (fun w => mkWorld (geoTopVolume w) (wLog w ++ entries)%list (wTrace w)) h.

(** The warnings [log_strtok] writes. *)
Fixpoint strtok_entries (i : nat) (pieces : list string) : list LogEntry :=
  match pieces with
  | [] => []
  | p :: rest =>
      mkLog LogWarning
            [LStr "strtok["; LInt (Z.of_nat i); LStr "] = "; LStr p]
      :: strtok_entries (S i) rest
  end.

(** The histogram the flux file is asked for, for a flavor the constructor
    knows. *)
Definition spectrum_name (pdg : Z) : string :=
  if (pdg =? 12)%Z then "nue"
  else if (pdg =? -12)%Z then "nuebar"
  else if (pdg =? 14)%Z then "numu"
  else if (pdg =? -14)%Z then "numubar"
  else if (pdg =? 16)%Z then "nutau"
  else "nutaubar".

(** Every path of the map has at least one file counted. *)
Definition counted (m : list (string * nat)) : Prop :=
  Forall (fun e => (0 < snd e)%nat) m.

(** * View2D: a collection of drawable 2-D objects, recycled through
    per-class static lists

    A shallow embedding of [EventDisplayBase/View2D.cxx].  ROOT objects
    live on a heap, one per class; a pointer is the position of the object
    there, and [new] takes the next free position.  Each class has one
    static list of pointers ([fgMarkerL], ...) shared by all views, and
    every view has its own list ([fMarkerL], ...).  The attributes a ROOT
    constructor takes from the current style come from [gStyle]. *)

Module View2D.

(** The attribute groups of ROOT's [TAttLine], [TAttFill], [TAttMarker]
    and [TAttText]. *)
Record AttLine : Type := mkAttLine {
  fLineColor : Z;
  fLineWidth : Z;
  fLineStyle : Z
}.

Record AttFill : Type := mkAttFill {
  fFillColor : Z;
  fFillStyle : Z
}.

Record AttText : Type := mkAttText {
  fTextColor : Z;
  fTextFont : Z;
  fTextSize : Q
}.

Record TMarker : Type := mkTMarker {
  tmX : Q;
  tmY : Q;
  tmColor : Z;
  tmStyle : Z;
  tmSize : Q;
  tmCanDelete : bool
}.

Record TPolyMarker : Type := mkTPolyMarker {
  pmN : Z;
  pmColor : Z;
  pmStyle : Z;
  pmSize : Q;
  pmCanDelete : bool
}.

Record TLine : Type := mkTLine {
  lnX1 : Q;
  lnY1 : Q;
  lnX2 : Q;
  lnY2 : Q;
  lnAtt : AttLine;
  lnCanDelete : bool
}.

Record TPolyLine : Type := mkTPolyLine {
  plN : Z;
  plOption : string;
  plAtt : AttLine;
  plFill : AttFill;
  plCanDelete : bool
}.

Record TArc : Type := mkTArc {
  arX1 : Q;
  arY1 : Q;
  arR1 : Q;
  arR2 : Q;
  arPhimin : Q;
  arPhimax : Q;
  arTheta : Q;
  arAtt : AttLine;
  arFill : AttFill;
  arCanDelete : bool
}.

Record TBox : Type := mkTBox {
  bxX1 : Q;
  bxY1 : Q;
  bxX2 : Q;
  bxY2 : Q;
  bxAtt : AttLine;
  bxFill : AttFill;
  bxCanDelete : bool
}.

(** [TText], and [TLatex] as far as the view uses it. *)
Record TText : Type := mkTText {
  txX : Q;
  txY : Q;
  txTitle : string;
  txAtt : AttText;
  txCanDelete : bool
}.

(** The current style the constructors read their defaults from. *)
Record Style : Type := mkStyle {
  styleLine : AttLine;
  styleFill : AttFill;
  styleMarkerColor : Z;
  styleMarkerStyle : Z;
  styleMarkerSize : Q;
  styleText : AttText
}.

(** One class of objects: the heap and the static list of cached
    pointers. *)
Record Cache (Obj : Type) : Type := mkCache {
  objects : list Obj;
  fgL : list nat
}.
Arguments mkCache {Obj} _ _.
Arguments objects {Obj} _.
Arguments fgL {Obj} _.

(** The object [p] points to becomes [f] of it; a pointer to nowhere
    changes nothing. *)
Fixpoint update {Obj : Type} (p : nat) (f : Obj -> Obj) (heap : list Obj)
  : list Obj :=
  match heap, p with
  | [], _ => []
  | o :: rest, O => f o :: rest
  | o :: rest, S k => o :: update k f rest
  end.

(** The pattern every [Add] function follows: with nothing cached, make a
    new object as instructed; otherwise take the last cached one and reset
    it; either way remember it in the view's own list. *)
Definition Add {Obj : Type} (fresh : Obj) (reset : Obj -> Obj)
           (c : Cache Obj) (fL : list nat) : nat * Cache Obj * list nat :=
  match fgL c with
  | [] =>
      let m := List.length (objects c) in
      (m, mkCache (objects c ++ [fresh])%list [], (fL ++ [m])%list)
  | first :: more =>
      let m := last (first :: more) O in              (* back() *)
      (m, mkCache (update m reset (objects c))
                  (removelast (first :: more)),       (* pop_back() *)
       (fL ++ [m])%list)
  end.

(** [fgL.splice(fgL.end(), fL)]. *)
Definition splice {Obj : Type} (c : Cache Obj) (fL : list nat)
  : Cache Obj * list nat :=
  (mkCache (objects c) (fgL c ++ fL)%list, []).

(** The static members and the style. *)
Record Statics : Type := mkStatics {
  gStyle : Style;
  fgMarkerL : Cache TMarker;
  fgPolyMarkerL : Cache TPolyMarker;
  fgLineL : Cache TLine;
  fgPolyLineL : Cache TPolyLine;
  fgArcL : Cache TArc;
  fgBoxL : Cache TBox;
  fgTextL : Cache TText;
  fgLatexL : Cache TText
}.

(** A view's own lists. *)
Record View : Type := mkView {
  fMarkerL : list nat;
  fPolyMarkerL : list nat;
  fLineL : list nat;
  fPolyLineL : list nat;
  fArcL : list nat;
  fBoxL : list nat;
  fTextL : list nat;
  fLatexL : list nat
}.

(** [View2D::View2D()]. *)
Definition new_View : View := mkView [] [] [] [] [] [] [] [].

(** [View2D::Clear()]. *)
Definition Clear (s : Statics) (v : View) : Statics * View :=
  let '(markers, _) := splice (fgMarkerL s) (fMarkerL v) in
  let '(arcs, _) := splice (fgArcL s) (fArcL v) in
  let '(boxes, _) := splice (fgBoxL s) (fBoxL v) in
  let '(polylines, _) := splice (fgPolyLineL s) (fPolyLineL v) in
  let '(lines, _) := splice (fgLineL s) (fLineL v) in
  let '(polymarkers, _) := splice (fgPolyMarkerL s) (fPolyMarkerL v) in
  let '(texts, _) := splice (fgTextL s) (fTextL v) in
  let '(latexes, _) := splice (fgLatexL s) (fLatexL v) in
  (mkStatics (gStyle s) markers polymarkers lines polylines arcs boxes
             texts latexes,
   new_View).

(** [View2D::AddMarker(x, y, c, st, sz)]. *)
Definition AddMarker (x y : Q) (c st : Z) (sz : Q) (s : Statics) (v : View)
  : nat * Statics * View :=
  let '(m, cache, mine) :=
    Add (mkTMarker x y c st sz false)
        (fun old => mkTMarker x y c st sz (tmCanDelete old))
        (fgMarkerL s) (fMarkerL v) in
  (m,
   mkStatics (gStyle s) cache (fgPolyMarkerL s) (fgLineL s) (fgPolyLineL s)
             (fgArcL s) (fgBoxL s) (fgTextL s) (fgLatexL s),
   mkView mine (fPolyMarkerL v) (fLineL v) (fPolyLineL v) (fArcL v)
          (fBoxL v) (fTextL v) (fLatexL v)).

(** [View2D::AddPolyMarker(n, c, st, sz)]. *)
Definition AddPolyMarker (n c st : Z) (sz : Q) (s : Statics) (v : View)
  : nat * Statics * View :=
  let '(pm, cache, mine) :=
    Add (mkTPolyMarker n c st sz false)
        (fun old => mkTPolyMarker n c st sz (pmCanDelete old))
        (fgPolyMarkerL s) (fPolyMarkerL v) in
  (pm,
   mkStatics (gStyle s) (fgMarkerL s) cache (fgLineL s) (fgPolyLineL s)
             (fgArcL s) (fgBoxL s) (fgTextL s) (fgLatexL s),
   mkView (fMarkerL v) mine (fLineL v) (fPolyLineL v) (fArcL v)
          (fBoxL v) (fTextL v) (fLatexL v)).

(** [View2D::AddLine(x1, y1, x2, y2)]. *)
Definition AddLine (x1 y1 x2 y2 : Q) (s : Statics) (v : View)
  : nat * Statics * View :=
  let '(ln, cache, mine) :=
    Add (mkTLine x1 y1 x2 y2 (styleLine (gStyle s)) false)
        (fun old => mkTLine x1 y1 x2 y2 (lnAtt old) (lnCanDelete old))
        (fgLineL s) (fLineL v) in
  (ln,
   mkStatics (gStyle s) (fgMarkerL s) (fgPolyMarkerL s) cache (fgPolyLineL s)
             (fgArcL s) (fgBoxL s) (fgTextL s) (fgLatexL s),
   mkView (fMarkerL v) (fPolyMarkerL v) mine (fPolyLineL v) (fArcL v)
          (fBoxL v) (fTextL v) (fLatexL v)).

(** [View2D::AddPolyLine(n, c, w, s)]. *)
Definition AddPolyLine (n c w st : Z) (s : Statics) (v : View)
  : nat * Statics * View :=
  let '(pl, cache, mine) :=
    Add (mkTPolyLine n "" (mkAttLine c w st) (styleFill (gStyle s)) false)
        (fun old => mkTPolyLine n "" (mkAttLine c w st) (plFill old)
                                (plCanDelete old))
        (fgPolyLineL s) (fPolyLineL v) in
  (pl,
   mkStatics (gStyle s) (fgMarkerL s) (fgPolyMarkerL s) (fgLineL s) cache
             (fgArcL s) (fgBoxL s) (fgTextL s) (fgLatexL s),
   mkView (fMarkerL v) (fPolyMarkerL v) (fLineL v) mine (fArcL v)
          (fBoxL v) (fTextL v) (fLatexL v)).

(** [View2D::AddArc(x, y, r, p1, p2)]. *)
Definition AddArc (x y r p1 p2 : Q) (s : Statics) (v : View)
  : nat * Statics * View :=
  let '(a, cache, mine) :=
    Add (mkTArc x y r r p1 p2 0 (styleLine (gStyle s))
                (styleFill (gStyle s)) false)
        (fun old => mkTArc x y r r p1 p2 (arTheta old) (arAtt old)
                           (arFill old) (arCanDelete old))
        (fgArcL s) (fArcL v) in
  (a,
   mkStatics (gStyle s) (fgMarkerL s) (fgPolyMarkerL s) (fgLineL s)
             (fgPolyLineL s) cache (fgBoxL s) (fgTextL s) (fgLatexL s),
   mkView (fMarkerL v) (fPolyMarkerL v) (fLineL v) (fPolyLineL v) mine
          (fBoxL v) (fTextL v) (fLatexL v)).

(** [View2D::AddBox(x1, y1, x2, y2)]. *)
Definition AddBox (x1 y1 x2 y2 : Q) (s : Statics) (v : View)
  : nat * Statics * View :=
  let '(b, cache, mine) :=
    Add (mkTBox x1 y1 x2 y2 (styleLine (gStyle s)) (styleFill (gStyle s))
                false)
        (fun old => mkTBox x1 y1 x2 y2 (bxAtt old) (bxFill old)
                           (bxCanDelete old))
        (fgBoxL s) (fBoxL v) in
  (b,
   mkStatics (gStyle s) (fgMarkerL s) (fgPolyMarkerL s) (fgLineL s)
             (fgPolyLineL s) (fgArcL s) cache (fgTextL s) (fgLatexL s),
   mkView (fMarkerL v) (fPolyMarkerL v) (fLineL v) (fPolyLineL v) (fArcL v)
          mine (fTextL v) (fLatexL v)).

(** [View2D::AddText(x, y, text)]. *)
Definition AddText (x y : Q) (text : string) (s : Statics) (v : View)
  : nat * Statics * View :=
  let '(t, cache, mine) :=
    Add (mkTText x y text (styleText (gStyle s)) false)
        (fun old => mkTText x y text (txAtt old) (txCanDelete old))
        (fgTextL s) (fTextL v) in
  (t,
   mkStatics (gStyle s) (fgMarkerL s) (fgPolyMarkerL s) (fgLineL s)
             (fgPolyLineL s) (fgArcL s) (fgBoxL s) cache (fgLatexL s),
   mkView (fMarkerL v) (fPolyMarkerL v) (fLineL v) (fPolyLineL v) (fArcL v)
          (fBoxL v) mine (fLatexL v)).

(** [View2D::AddLatex(x, y, text)]. *)
Definition AddLatex (x y : Q) (text : string) (s : Statics) (v : View)
  : nat * Statics * View :=
  let '(t, cache, mine) :=
    Add (mkTText x y text (styleText (gStyle s)) false)
        (fun old => mkTText x y text (txAtt old) (txCanDelete old))
        (fgLatexL s) (fLatexL v) in
  (t,
   mkStatics (gStyle s) (fgMarkerL s) (fgPolyMarkerL s) (fgLineL s)
             (fgPolyLineL s) (fgArcL s) (fgBoxL s) (fgTextL s) cache,
   mkView (fMarkerL v) (fPolyMarkerL v) (fLineL v) (fPolyLineL v) (fArcL v)
          (fBoxL v) (fTextL v) mine).

(** What a caller does with the reference [AddLine] returned:
    [line.SetLineColor(c)]. *)
Definition SetLineColor (ln : nat) (c : Z) (s : Statics) : Statics :=
  mkStatics (gStyle s) (fgMarkerL s) (fgPolyMarkerL s)
            (mkCache
               (update ln
                  (fun old =>
                     mkTLine (lnX1 old) (lnY1 old) (lnX2 old) (lnY2 old)
                             (mkAttLine c (fLineWidth (lnAtt old))
                                        (fLineStyle (lnAtt old)))
                             (lnCanDelete old))
                  (objects (fgLineL s)))
               (fgL (fgLineL s)))
            (fgPolyLineL s) (fgArcL s) (fgBoxL s) (fgTextL s) (fgLatexL s).

(** Every object of a class is held exactly once: by the static list,
    by this view, or by one of the other views ([others] is their lists
    put together); and only allocated objects are held. *)
Definition held_once {Obj : Type} (c : Cache Obj)
           (mine others : list nat) : Prop :=
  NoDup (fgL c ++ mine ++ others)
  /\ forall p, In p (fgL c ++ mine ++ others)
               <-> (p < List.length (objects c))%nat.

(** The same for a family of views: the static list holds its pointers
    and the views hold theirs. *)
Definition held {Obj : Type} (c : Cache Obj) (lists : list (list nat))
  : Prop :=
  held_once c [] (concat lists).

(** All eight classes at once. *)
Definition consistent (s : Statics) (views : list View) : Prop :=
  held (fgMarkerL s) (map fMarkerL views)
  /\ held (fgPolyMarkerL s) (map fPolyMarkerL views)
  /\ held (fgLineL s) (map fLineL views)
  /\ held (fgPolyLineL s) (map fPolyLineL views)
  /\ held (fgArcL s) (map fArcL views)
  /\ held (fgBoxL s) (map fBoxL views)
  /\ held (fgTextL s) (map fTextL views)
  /\ held (fgLatexL s) (map fLatexL views).

(** The calls a program makes on its views; [i] names the view. *)
Inductive Op : Type :=
| NewView
| CallClear (i : nat)
| CallAddMarker (i : nat) (x y : Q) (c st : Z) (sz : Q)
| CallAddPolyMarker (i : nat) (n c st : Z) (sz : Q)
| CallAddLine (i : nat) (x1 y1 x2 y2 : Q)
| CallAddPolyLine (i : nat) (n c w st : Z)
| CallAddArc (i : nat) (x y r p1 p2 : Q)
| CallAddBox (i : nat) (x1 y1 x2 y2 : Q)
| CallAddText (i : nat) (x y : Q) (text : string)
| CallAddLatex (i : nat) (x y : Q) (text : string).

(** A member function called on view [i]; a call on a view that does not
    exist is not a call. *)
Definition on_view (i : nat) (f : Statics -> View -> Statics * View)
           (st : Statics * list View) : Statics * list View :=
  match nth_error (snd st) i with
  | None => st
  | Some v =>
      let '(s', v') := f (fst st) v in
      (s', update i (fun _ => v') (snd st))
  end.

Definition dropping_reference (r : nat * Statics * View) : Statics * View :=
  (snd (fst r), snd r).

Definition step (op : Op) (st : Statics * list View)
  : Statics * list View :=
  match op with
  | NewView => (fst st, (snd st ++ [new_View])%list)
  | CallClear i => on_view i Clear st
  | CallAddMarker i x y c sty sz =>
      on_view i (fun s v => dropping_reference (AddMarker x y c sty sz s v)) st
  | CallAddPolyMarker i n c sty sz =>
      on_view i (fun s v => dropping_reference (AddPolyMarker n c sty sz s v))
              st
  | CallAddLine i x1 y1 x2 y2 =>
      on_view i (fun s v => dropping_reference (AddLine x1 y1 x2 y2 s v)) st
  | CallAddPolyLine i n c w sty =>
      on_view i (fun s v => dropping_reference (AddPolyLine n c w sty s v)) st
  | CallAddArc i x y r p1 p2 =>
      on_view i (fun s v => dropping_reference (AddArc x y r p1 p2 s v)) st
  | CallAddBox i x1 y1 x2 y2 =>
      on_view i (fun s v => dropping_reference (AddBox x1 y1 x2 y2 s v)) st
  | CallAddText i x y text =>
      on_view i (fun s v => dropping_reference (AddText x y text s v)) st
  | CallAddLatex i x y text =>
      on_view i (fun s v => dropping_reference (AddLatex x y text s v)) st
  end.

Definition run (ops : list Op) (st : Statics * list View)
  : Statics * list View :=
  fold_left (fun st op => step op st) ops st.

(** The program start: nothing allocated, nothing cached, no view. *)
Definition initial (style : Style) : Statics * list View :=
  (mkStatics style (mkCache [] []) (mkCache [] []) (mkCache [] [])
             (mkCache [] []) (mkCache [] []) (mkCache [] [])
             (mkCache [] []) (mkCache [] []),
   []).

End View2D.

(** * Properties *)

(** ** The cut language: no cut, box cuts, rock cuts *)

Section NoCut.
Import StdString GenieUtils.

Lemma normalized_of_cut (h : GENIEHelper) (cut : string) :
  fFiducialCut (settings h) = cut ->
  normalized_fidcut h = tolower (trim_leading cut).
Proof. intros Hcut. unfold normalized_fidcut. now rewrite Hcut. Qed.

(** The early return: an empty or [none] cut after normalization leaves
    the helper exactly as it was. *)
Lemma early_return (h : GENIEHelper) :
  normalized_fidcut h = "" \/ normalized_fidcut h = "none" ->
  InitializeFiducialSelection h = Ok (tt, h).
Proof.
  intros Hnorm.
  unfold InitializeFiducialSelection, bind, gets.
  destruct Hnorm as [-> | ->]; reflexivity.
Qed.

(** A cut that normalizes to ["none "] misses the early return and ends
    in the warning about the missing colon, or about the analyzer. *)
Lemma trailing_blank_warns (h : GENIEHelper) :
  normalized_fidcut h = "none " ->
  exists entries,
    InitializeFiducialSelection h
    = Ok (tt, with_world
                (fun w => mkWorld (geoTopVolume w)
                                  (wLog w ++ entries)%list (wTrace w)) h)
    /\ existsb is_report entries = true.
Proof.
  intros Hnorm.
  unfold InitializeFiducialSelection, bind, gets. rewrite Hnorm.
  cbn [String.eqb Ascii.eqb orb]. 
  change (contains "none " "rock") with false. cbv iota.
  destruct h as [s n d dt sp w]. unfold log, modify, bind, ret. cbn.
  destruct (fGeomD d) as [g |].
  - eexists. split.
    + unfold with_world, add_log. cbn. rewrite <- !app_assoc. reflexivity.
    + reflexivity.
  - eexists. split; reflexivity.
Qed.

End NoCut.

(** C9 (as amended).  A cut that is empty or [none] once leading blanks
    are dropped and letters lower-cased -- [""], ["none"], [" NONE"] --
    makes fiducial initialization return at once: no selector, no log
    entry, the helper unchanged.  Trailing blanks are not trimmed: on
    [" NONE "] no selector is installed either and nothing but the log
    changes, but the log gains a warning. *)
Theorem none_cut_is_noop (h : GENIEHelper) :
  (In (StdString.tolower (StdString.trim_leading (fFiducialCut (settings h))))
      [""; "none"] ->
   InitializeFiducialSelection h = Ok (tt, h))
  /\ (fFiducialCut (settings h) = " NONE " ->
      exists h',
        InitializeFiducialSelection h = Ok (tt, h')
        /\ settings h' = settings h /\ names h' = names h
        /\ drivers h' = drivers h /\ spill h' = spill h
        /\ wTrace (world h') = wTrace (world h)
        /\ existsb is_report (wLog (world h')) = true).
Proof.
  split.
  - intros Hin. apply early_return. unfold normalized_fidcut.
    destruct Hin as [<- | [<- | []]]; auto.
  - intros Hcut.
    destruct (trailing_blank_warns h) as (entries & Hrun & Hreport).
    { now rewrite (normalized_of_cut h Hcut). }
    eexists. split; [exact Hrun |].
    repeat split; try reflexivity.
    cbn. rewrite existsb_app, Hreport. apply orb_true_r.
Qed.

(** The three spellings of the claim and one with leading blanks only. *)
Lemma none_cut_is_noop_witness :
  InitializeFiducialSelection (Examples.helper_with_cut "")
  = Ok (tt, Examples.helper_with_cut "")
  /\ InitializeFiducialSelection (Examples.helper_with_cut "none")
     = Ok (tt, Examples.helper_with_cut "none")
  /\ InitializeFiducialSelection (Examples.helper_with_cut " NONE")
     = Ok (tt, Examples.helper_with_cut " NONE")
  /\ exists h',
       InitializeFiducialSelection (Examples.helper_with_cut " NONE ")
       = Ok (tt, h')
       /\ existsb is_report (wLog (world h')) = true.
Proof.
  split; [| split; [| split]].
  - apply (none_cut_is_noop (Examples.helper_with_cut "")).
    simpl. auto.
  - apply (none_cut_is_noop (Examples.helper_with_cut "none")).
    vm_compute. auto.
  - apply (none_cut_is_noop (Examples.helper_with_cut " NONE")).
    vm_compute. auto.
  - destruct (none_cut_is_noop (Examples.helper_with_cut " NONE ")) as [_ H].
    destruct (H eq_refl) as (h' & Hrun & _ & _ & _ & _ & _ & Hrep).
    exists h'. split; assumption.
Defined.

(** C9 (as stated) fails on [" NONE "]: the call does not leave the helper
    silent, it logs two warnings. *)
Lemma none_cut_trailing_blank_reports :
  InitializeFiducialSelection (Examples.helper_with_cut " NONE ")
  <> Ok (tt, Examples.helper_with_cut " NONE ")
  /\ exists h',
       InitializeFiducialSelection (Examples.helper_with_cut " NONE ")
       = Ok (tt, h')
       /\ map logSeverity (wLog (world h')) = [LogInfo; LogWarning; LogWarning].
Proof.
  split.
  - vm_compute. discriminate.
  - eexists. split; vm_compute; reflexivity.
Qed.

Section ShapedCuts.
Import StdString GenieUtils.

(** A cut that mentions [rock] goes to the rock-box routine. *)
Lemma dispatch_rock (h : GENIEHelper) :
  normalized_fidcut h <> "" -> normalized_fidcut h <> "none" ->
  contains (normalized_fidcut h) "rock" = true ->
  InitializeFiducialSelection h = InitializeRockBoxSelection h.
Proof.
  intros Hne Hnn Hrock.
  unfold InitializeFiducialSelection.
  cbv beta iota delta [bind gets].
  rewrite Hrock.
  rewrite (proj2 (String.eqb_neq _ _)) by congruence.
  rewrite (proj2 (String.eqb_neq _ _)) by congruence.
  reflexivity.
Qed.

(** The rock-box routine on exactly six values. *)
Lemma rock_six (h : GENIEHelper) (g : ROOTGeomAnalyzer)
      (stype valtext : string) (v0 v1 v2 v3 v4 v5 : Q) :
  fGeomD (drivers h) = Some g ->
  Split (normalized_fidcut h) ":" = [stype; valtext] ->
  parse_values valtext = [v0; v1; v2; v3; v4; v5] ->
  let world_name := fWorldVolume (names h) in
  let sel :=
    SelRockBox
      (mkRock (mkFid (Some (Box (v0, v1, v2) (v3, v4, v5))) true false false)
              (Some ((v0, v1, v2), (v3, v4, v5)))
              (Some 800%Q) (Some (2.5 * 1.7e-3 / 1.05)%Q)) in
  InitializeRockBoxSelection h
  = Ok (tt,
        mkHelper (settings h)
          (set_fTopVolume world_name (names h))
          (set_fGeomD
             (Some (set_rgSelector (Some sel)
                      (set_rgTopVolName world_name g)))
             (drivers h))
          (detector h) (spill h)
          (mkWorld (geoTopVolume (world h))
             (wLog (world h)
              ++ [mkLog LogInfo [LStr "fiducial (rock) cut: ";
                                 LStr (normalized_fidcut h)]])%list
             (wTrace (world h)
              ++ [RgeomSetTopVolName world_name;
                  RgeomAdoptGeomVolSelector sel])%list)).
Proof.
  intros Hgeom Hsplit Hvals world_name sel.
  unfold InitializeRockBoxSelection.
  cbv beta iota delta [bind gets].
  rewrite Hgeom, Hsplit. cbv beta iota. rewrite Hvals.
  destruct h as [s n d dt sp w]. destruct d as [gd fd fd2 drv rec].
  cbn in Hgeom. subst gd world_name sel.
  unfold rgeom_AdoptGeomVolSelector, rgeom_SetTopVolName, rgeom_update,
    call, log, modify, bind, ret, with_drivers, with_world, with_names,
    add_call, add_log.
  cbn. rewrite <- app_assoc. reflexivity.
Qed.

(** The box branch on exactly six values: the minimum corner is
    [(v0,v1,v2)]; the maximum corner is read from positions 4, 5, 5. *)
Lemma box_six (h : GENIEHelper) (g : ROOTGeomAnalyzer)
      (stype valtext : string) (v0 v1 v2 v3 v4 v5 : Q) :
  normalized_fidcut h <> "" -> normalized_fidcut h <> "none" ->
  contains (normalized_fidcut h) "rock" = false ->
  fGeomD (drivers h) = Some g ->
  Split (normalized_fidcut h) ":" = [stype; valtext] ->
  parse_values valtext = [v0; v1; v2; v3; v4; v5] ->
  contains stype "zcyl" = false ->
  contains stype "box" = true ->
  exists h',
    InitializeFiducialSelection h = Ok (tt, h')
    /\ fGeomD (drivers h')
       = Some (set_rgSelector
                 (Some (SelFiducial
                          (mkFid (Some (Box (v0, v1, v2) (v4, v5, v5)))
                                 true (contains stype "m")
                                 (contains stype "0"))))
                 g).
Proof.
  intros Hne Hnn Hrock Hgeom Hsplit Hvals Hcyl Hbox.
  unfold InitializeFiducialSelection.
  cbv beta iota delta [bind gets].
  rewrite Hrock.
  rewrite (proj2 (String.eqb_neq _ _)) by congruence.
  rewrite (proj2 (String.eqb_neq _ _)) by congruence.
  cbv beta iota delta [orb].
  rewrite Hgeom, Hsplit. cbv beta iota. rewrite Hvals.
  change (pad_values 7 [v0; v1; v2; v3; v4; v5])
    with (Ok [v0; v1; v2; v3; v4; v5; 0%Q]).
  cbv beta iota delta [bind log modify make_shape].
  rewrite Hcyl, Hbox.
  destruct h as [s n d dt sp w]. destruct d as [gd fd fd2 drv rec].
  cbn in Hgeom. subst gd.
  destruct (contains stype "m"), (contains stype "0");
    (eexists; split; [reflexivity | reflexivity]).
Qed.

End ShapedCuts.

(** C1 at the cut ["box:0,0,0,1,2,3"]: the selector that is installed is
    the box from (0,0,0) to (2,3,3), not to (1,2,3); the point
    (3/2, 1, 1) lies outside the box of the cut and is selected. *)
Theorem box_cut_max_corner_is_shifted :
  exists h' g sel,
    InitializeFiducialSelection (Examples.helper_with_cut "box:0,0,0,1,2,3")
    = Ok (tt, h')
    /\ fGeomD (drivers h') = Some g
    /\ rgSelector g = Some (SelFiducial sel)
    /\ fidShape sel = Some (Box (0, 0, 0)%Q (2, 3, 3)%Q)
    /\ fidReverse sel = false
    /\ selects sel (3 # 2, 1, 1)%Q = Some true
    /\ in_box (0, 0, 0)%Q (1, 2, 3)%Q (3 # 2, 1, 1)%Q = false.
Proof.
  destruct (@box_six (Examples.helper_with_cut "box:0,0,0,1,2,3")
                     (mkRgeom "volDetEnclosure" None 200 200 10000 false None)
                     "box" "0,0,0,1,2,3" 0 0 0 1 2 3)
    as (h' & Hrun & Hgeom);
    try (vm_compute; (reflexivity || discriminate)).
  exists h'. do 2 eexists.
  split; [exact Hrun |]. split; [exact Hgeom |].
  repeat split.
Qed.

(** C8.  On the cut ["rock:0,0,0,10,10,10"], with an analyzer in place,
    fiducial initialization sets the top volume of the helper and of the
    analyzer to the world volume and then installs a rock-box selector:
    a box cut over (0,0,0)-(10,10,10), the same minimal rock box, a
    minimum wall of 800 and an energy loss of 0.00425/1.05; the rock-only
    flag defaults to true and the fudge factor to 1.05. *)
Theorem rock_cut_defaults (h : GENIEHelper) (g : ROOTGeomAnalyzer) :
  fFiducialCut (settings h) = "rock:0,0,0,10,10,10" ->
  fGeomD (drivers h) = Some g ->
  exists h' g' sel dedx,
    InitializeFiducialSelection h = Ok (tt, h')
    /\ fTopVolume (names h') = fWorldVolume (names h)
    /\ fGeomD (drivers h') = Some g'
    /\ rgTopVolName g' = fWorldVolume (names h)
    /\ rgSelector g' = Some (SelRockBox sel)
    /\ fidShape (rockFid sel) = Some (Box (0, 0, 0)%Q (10, 10, 10)%Q)
    /\ fidReverse (rockFid sel) = false
    /\ rockBoxMinimal sel = Some ((0, 0, 0)%Q, (10, 10, 10)%Q)
    /\ rockMinimumWall sel = Some 800%Q
    /\ rockDeDx sel = Some dedx
    /\ (dedx == 0.00425 / 1.05)%Q
    /\ (let '(rockonly, wallmin, dedx0, fudge) :=
          rock_options [0; 0; 0; 10; 10; 10]%Q in
        rockonly = true /\ wallmin = 800%Q
        /\ (dedx0 == 0.00425)%Q /\ fudge = 1.05%Q)
    /\ wTrace (world h')
       = (wTrace (world h)
          ++ [RgeomSetTopVolName (fWorldVolume (names h));
              RgeomAdoptGeomVolSelector (SelRockBox sel)])%list.
Proof.
  intros Hcut Hgeom.
  assert (Hnorm : normalized_fidcut h = "rock:0,0,0,10,10,10").
  { unfold normalized_fidcut. rewrite Hcut. vm_compute. reflexivity. }
  rewrite dispatch_rock
    by (rewrite Hnorm; vm_compute; (reflexivity || discriminate)).
  rewrite (@rock_six h g "rock" "0,0,0,10,10,10" 0 0 0 10 10 10 Hgeom)
    by (try rewrite Hnorm; vm_compute; reflexivity).
  do 4 eexists.
  split; [reflexivity |].
  cbn. repeat split; reflexivity.
Qed.

Lemma rock_cut_defaults_witness :
  exists h' g' sel,
    InitializeFiducialSelection
      (Examples.helper_with_cut "rock:0,0,0,10,10,10") = Ok (tt, h')
    /\ fGeomD (drivers h') = Some g'
    /\ rgTopVolName g' = "volWorld"
    /\ rgSelector g' = Some (SelRockBox sel)
    /\ rockMinimumWall sel = Some 800%Q.
Proof.
  destruct (@rock_cut_defaults
              (Examples.helper_with_cut "rock:0,0,0,10,10,10")
              (mkRgeom "volDetEnclosure" None 200 200 10000 false None)
              eq_refl eq_refl)
    as (h' & g' & sel & dedx & Hrun & _ & Hg & Htop & Hsel & _ & _ & _
        & Hwall & _).
  exists h', g', sel. repeat split; assumption.
Defined.

(** ** Frame rules *)

Section FrameRules.
Context {A B : Type}.
Variable I : GENIEHelper -> Prop.

Lemma bind_inv (m : M A) (k : A -> M B) (h h' : GENIEHelper) (b : B) :
  bind m k h = Ok (b, h') ->
  exists a h1, m h = Ok (a, h1) /\ k a h1 = Ok (b, h').
Proof.
  unfold bind. destruct (m h) as [[a h1] | f]; [| discriminate].
  intros Hk. now exists a, h1.
Qed.

Lemma preserves_bind (m : M A) (k : A -> M B) :
  preserves I m -> (forall a, preserves I (k a)) -> preserves I (bind m k).
Proof.
  intros Hm Hk h b h' HI Hrun.
  destruct (bind_inv _ _ _ Hrun) as (a & h1 & Hm1 & Hk1).
  eapply Hk; [| exact Hk1]. eapply Hm; eauto.
Qed.

Lemma preserves_ret (a : A) : preserves I (ret a).
Proof. intros h a' h' HI Hrun. inversion Hrun; subst; assumption. Qed.

Lemma preserves_die (f : Fatal) : preserves I (@die A f).
Proof. intros h a h' _ Hrun. discriminate. Qed.

Lemma preserves_gets (f : GENIEHelper -> A) : preserves I (gets f).
Proof. intros h a h' HI Hrun. inversion Hrun; subst; assumption. Qed.

End FrameRules.

Section FrameRulesUnit.
Variable I : GENIEHelper -> Prop.

Lemma preserves_modify (f : GENIEHelper -> GENIEHelper) :
  (forall h, I h -> I (f h)) -> preserves I (modify f).
Proof. intros Hf h a h' HI Hrun. inversion Hrun; subst. auto. Qed.

Hypothesis blind : world_blind I.

Lemma preserves_log (sev : Severity) (text : list LogArg) :
  preserves I (log sev text).
Proof. apply preserves_modify. intros h. apply blind. Qed.

Lemma preserves_call (c : ExtCall) : preserves I (call c).
Proof. apply preserves_modify. intros h. apply blind. Qed.

Lemma preserves_log_if (b : bool) (sev : Severity) (text : list LogArg) :
  preserves I (log_if b sev text).
Proof.
  destruct b; [apply preserves_log | apply preserves_ret].
Qed.

Lemma preserves_log_strtok (pieces : list string) :
  forall i, preserves I (log_strtok i pieces).
Proof.
  induction pieces as [| p rest IH]; intros i; cbn [log_strtok].
  - apply preserves_ret.
  - apply preserves_bind; [apply preserves_log | intros _; apply IH].
Qed.

Lemma preserves_log_known_mixers (known : list string) :
  forall j, preserves I (log_known_mixers j known).
Proof.
  induction known as [| p rest IH]; intros j; cbn [log_known_mixers].
  - apply preserves_ret.
  - apply preserves_bind; [apply preserves_log | intros _; apply IH].
Qed.

Lemma preserves_geo_SetTopVolume (name : string) :
  preserves I (geo_SetTopVolume name).
Proof.
  apply preserves_bind; [| intros _; apply preserves_call].
  apply preserves_modify. intros h. apply blind.
Qed.

End FrameRulesUnit.

Lemma framed_blind (I : GENIEHelper -> Prop) : framed I -> world_blind I.
Proof. intros [s | | fd] f h H; exact H. Qed.

Lemma framed_run_blind (I : GENIEHelper -> Prop) :
  framed_run I -> world_blind I.
Proof. intros [] f h H; exact H. Qed.

Lemma framed_late_blind (I : GENIEHelper -> Prop) :
  framed_late I -> world_blind I.
Proof. intros [] f h H; exact H. Qed.

Lemma spill_is_blind (s : SpillState) : world_blind (spill_is s).
Proof. intros f h H. exact H. Qed.

Create HintDb frame.
#[local] Hint Resolve framed_blind framed_run_blind framed_late_blind
  spill_is_blind framed_settings framed_driver framed_flux : frame.
#[local] Hint Constructors framed_run framed_late : frame.

(** Side conditions of [modify]: the update leaves what the invariant
    reads alone. *)
Ltac frame_side :=
  let h := fresh "h" in
  let H := fresh "H" in
  intros h H;
  unfold settings_are, has_driver, flux_is, spill_is, names_are,
    detector_is, geom_is, blender_is, driver_is, world_volume_is,
    top_volume_is, selector_is in *;
  destruct h as [? ? [? ? ? ? ?] ? ? ?];
  cbn in *;
  solve [ assumption | discriminate | congruence
        | match goal with
          | H : option_map _ ?g = Some _ |- _ =>
              destruct g; cbn in *; congruence
          end ].

Ltac frame_step :=
  match goal with
  | |- preserves _ (bind _ _) => apply preserves_bind; [| intros ?]
  | |- preserves _ (ret _) => apply preserves_ret
  | |- preserves _ (die _) => apply preserves_die
  | |- preserves _ (gets _) => apply preserves_gets
  | |- preserves _ (log _ _) => apply preserves_log; auto with frame
  | |- preserves _ (call _) => apply preserves_call; auto with frame
  | |- preserves _ (log_if _ _ _) => apply preserves_log_if; auto with frame
  | |- preserves _ (log_strtok _ _) =>
      apply preserves_log_strtok; auto with frame
  | |- preserves _ (log_known_mixers _ _) =>
      apply preserves_log_known_mixers; auto with frame
  | |- preserves _ (geo_SetTopVolume _) =>
      apply preserves_geo_SetTopVolume; auto with frame
  | |- preserves _ (modify _) => apply preserves_modify; frame_side
  | |- preserves _ (rgeom_update _) => unfold rgeom_update
  | |- preserves _ (rgeom_SetTopVolName _) => unfold rgeom_SetTopVolName
  | |- preserves _ (rgeom_AdoptGeomVolSelector _) =>
      unfold rgeom_AdoptGeomVolSelector
  | |- preserves _ (incr_fSpillEvents) => unfold incr_fSpillEvents
  | |- preserves _ (let _ := _ in _) => cbv zeta
  | |- preserves _ (if ?b then _ else _) => destruct b
  | |- preserves _ (match ?x with _ => _ end) => destruct x
  end.

Ltac frame := repeat frame_step.

(** *** What each member function leaves alone *)

Section Frames.
Variable I : GENIEHelper -> Prop.
Hypothesis HI : framed I.
Variable sys : System.

Lemma make_shape_frame stype fidcut nvals vals fidsel :
  preserves I (make_shape stype fidcut nvals vals fidsel).
Proof. destruct HI; unfold make_shape; frame. Qed.

Lemma InitializeRockBoxSelection_frame :
  preserves I InitializeRockBoxSelection.
Proof. destruct HI; unfold InitializeRockBoxSelection; frame. Qed.

Lemma InitializeFiducialSelection_frame :
  preserves I InitializeFiducialSelection.
Proof.
  unfold InitializeFiducialSelection.
  apply preserves_bind; [apply preserves_gets | intros fidcut].
  destruct (_ || _); [apply preserves_ret |].
  destruct (StdString.contains _ _);
    [apply InitializeRockBoxSelection_frame |].
  apply preserves_bind; [apply preserves_gets | intros [g |]].
  2: { apply preserves_log. auto with frame. }
  apply preserves_bind; [apply preserves_log; auto with frame | intros _].
  destruct (GenieUtils.Split fidcut ":") as [| stype [| valtext [| x rest]]].
  1, 2, 4: destruct HI; frame.
  destruct (pad_values _ _) as [vals | f]; [| apply preserves_die].
  apply preserves_bind; [apply make_shape_frame | intros shaped].
  destruct HI; frame.
Qed.

Lemma InitializeGeometry_frame : preserves I (InitializeGeometry sys).
Proof.
  unfold InitializeGeometry. cbv zeta.
  repeat first
    [ apply InitializeFiducialSelection_frame
    | match goal with
      | |- preserves _ (bind _ _) => apply preserves_bind; [| intros ?]
      end
    | solve [destruct HI; frame] ].
Qed.

Lemma SetMaxPathOutInfo_frame : preserves I (SetMaxPathOutInfo sys).
Proof. destruct HI; unfold SetMaxPathOutInfo; frame. Qed.

Lemma ConfigGeomScan_frame : preserves I (ConfigGeomScan sys).
Proof.
  unfold ConfigGeomScan.
  repeat first
    [ apply SetMaxPathOutInfo_frame
    | match goal with
      | |- preserves _ (bind _ _) => apply preserves_bind; [| intros ?]
      | |- preserves _ (if ?b then _ else _) => destruct b
      | |- preserves _ (match ?x with _ => _ end) => destruct x
      | |- preserves _ (let _ := _ in _) => cbv zeta
      end
    | solve [destruct HI; frame] ].
Qed.

Lemma keep_throwing_frame : preserves I keep_throwing.
Proof. destruct HI; unfold keep_throwing; frame. Qed.

Lemma close_spill_frame (o : StopObs) : preserves I (close_spill o).
Proof. destruct HI; unfold close_spill; frame. Qed.

Lemma Stop_frame (o : StopObs) : preserves I (Stop o).
Proof.
  unfold Stop.
  apply preserves_bind; [apply keep_throwing_frame | intros [|]].
  - apply preserves_ret.
  - apply preserves_bind; [apply close_spill_frame | intros _].
    apply preserves_ret.
Qed.

Lemma pack_flux_exposure_frame (o : SampleObs) :
  preserves I (pack_flux_exposure o).
Proof. destruct HI; unfold pack_flux_exposure; frame. Qed.

Lemma count_event_frame : preserves I count_event.
Proof. destruct HI; unfold count_event; frame. Qed.

Lemma Sample_frame (o : SampleObs) : preserves I (Sample o).
Proof.
  unfold Sample.
  repeat first
    [ apply pack_flux_exposure_frame
    | apply count_event_frame
    | match goal with
      | |- preserves _ (bind _ _) => apply preserves_bind; [| intros ?]
      | |- preserves _ (if ?b then _ else _) => destruct b
      | |- preserves _ (match ?x with _ => _ end) => destruct x
      end
    | solve [destruct HI; frame] ].
Qed.

End Frames.

(** ** What [Initialize] establishes *)

Ltac bind_inversion H :=
  let a := fresh "a" in
  let h := fresh "h" in
  let H1 := fresh "Hrun" in
  let H2 := fresh "Hrun" in
  apply bind_inv in H; destruct H as (a & h & H1 & H2).

Lemma modify_inv (f : GENIEHelper -> GENIEHelper) (h h' : GENIEHelper)
      (u : unit) :
  modify f h = Ok (u, h') -> h' = f h.
Proof. unfold modify. intros H. now inversion H. Qed.

Lemma gets_inv {A : Type} (f : GENIEHelper -> A) (h h' : GENIEHelper) (a : A) :
  gets f h = Ok (a, h') -> a = f h /\ h' = h.
Proof. unfold gets. intros H. now inversion H. Qed.

Lemma is_type_exclusive (h : GENIEHelper) (t1 t2 : string) :
  t1 <> t2 -> is_type t1 h = true -> is_type t2 h = false.
Proof.
  unfold is_type. intros Hne H1.
  apply String.eqb_eq in H1. apply String.eqb_neq. congruence.
Qed.

Lemma is_type_settings (h h' : GENIEHelper) (t : string) :
  settings h' = settings h -> is_type t h' = is_type t h.
Proof. unfold is_type, FluxType. now intros ->. Qed.

Lemma is_atmo_settings (h h' : GENIEHelper) :
  settings h' = settings h -> is_atmo h' = is_atmo h.
Proof.
  unfold is_atmo. intros H.
  now rewrite !(fun t => @is_type_settings h h' t H).
Qed.

Lemma flux_driver_ok_settings (h h' : GENIEHelper) :
  settings h' = settings h ->
  fFluxD (drivers h') = fFluxD (drivers h) ->
  flux_driver_ok h' = flux_driver_ok h.
Proof.
  intros Hs Hf. unfold flux_driver_ok. rewrite Hf.
  now rewrite (@is_atmo_settings h h' Hs),
    !(fun t => @is_type_settings h h' t Hs).
Qed.

Section InitializePost.
Variable sys : System.

(** The flux driver that is built has the dynamic type of the flux type. *)
Lemma make_flux_driver_ok (h h' : GENIEHelper) (fd : option GFluxI) :
  make_flux_driver h = Ok fd ->
  settings h' = settings h ->
  fFluxD (drivers h') = fd ->
  flux_driver_ok h' = true.
Proof.
  intros Hmake Hs Hf. unfold flux_driver_ok. rewrite Hf.
  rewrite (@is_atmo_settings h h' Hs),
    !(fun t => @is_type_settings h h' t Hs).
  unfold make_flux_driver in Hmake.
  destruct (is_type "ntuple" h) eqn:Hnt.
  { destruct (fFluxFiles (settings h)); inversion Hmake; subst. first [reflexivity | assumption]. }
  destruct (is_type "simple_flux" h) eqn:Hsf.
  { destruct (fFluxFiles (settings h)); inversion Hmake; subst. first [reflexivity | assumption]. }
  destruct (is_type "histogram" h) eqn:Hhi.
  { destruct (energy_spectra _ _ _); inversion Hmake; subst. first [reflexivity | assumption]. }
  destruct (is_type "mono" h) eqn:Hmo.
  { inversion Hmake; subst. first [reflexivity | assumption]. }
  destruct (is_atmo h) eqn:Hat.
  { inversion Hmake; subst. first [reflexivity | assumption]. }
  inversion Hmake; subst. reflexivity.
Qed.

Lemma InitializeFluxDriver_settings (s : Settings) :
  preserves (settings_are s) (InitializeFluxDriver sys).
Proof. unfold InitializeFluxDriver; frame. Qed.

Lemma InitializeFluxDriver_driver :
  preserves has_driver (InitializeFluxDriver sys).
Proof. unfold InitializeFluxDriver; frame. Qed.

Lemma InitializeFluxDriver_flux (h h' : GENIEHelper) (u : unit) :
  InitializeFluxDriver sys h = Ok (u, h') ->
  make_flux_driver h = Ok (fFluxD (drivers h')).
Proof.
  unfold InitializeFluxDriver. intros Hrun.
  bind_inversion Hrun. apply gets_inv in Hrun0 as [-> ->].
  destruct (make_flux_driver h) as [fd | f]; [| discriminate].
  bind_inversion Hrun1. apply modify_inv in Hrun. subst.
  f_equal. symmetry.
  revert Hrun0.
  match goal with
  | |- ?m ?h0 = Ok (?a, ?h1) -> _ =>
      assert (Hp : preserves (flux_is fd) m) by frame;
      intros Hrest; apply (Hp h0 a h1); [| exact Hrest]
  end.
  destruct h as [? ? [? ? ? ? ?] ? ? ?]. reflexivity.
Qed.

(** After [Initialize] the settings are those of the constructor, the
    three counters are zero, and the drivers are in place. *)
Lemma Initialize_post (h0 h1 : GENIEHelper) (u : unit) :
  Initialize sys h0 = Ok (u, h1) ->
  settings h1 = settings h0
  /\ SpillEvents h1 = 0%Z
  /\ SpillExposure h1 = 0%Q
  /\ TotalExposure h1 = 0%Q
  /\ ready h1.
Proof.
  unfold Initialize. intros Hrun.
  bind_inversion Hrun. apply modify_inv in Hrun0. subst h.
  bind_inversion Hrun1. rename h into hb, Hrun into Hgeom.
  bind_inversion Hrun0. rename h into hc, Hrun into Hflux.
  bind_inversion Hrun1. rename h into hd, Hrun into Hscan.
  bind_inversion Hrun0. apply gets_inv in Hrun as [-> ->].
  bind_inversion Hrun1. rename h into he, Hrun into Hhist.
  bind_inversion Hrun0. apply modify_inv in Hrun. subst h.
  bind_inversion Hrun1. apply modify_inv in Hrun. subst h.
  apply modify_inv in Hrun0. subst h1.
  set (ha := with_drivers (set_fDriver (Some (mkDriver None))) h0) in *.
  (* settings *)
  assert (Hsa : settings ha = settings h0) by reflexivity.
  assert (Hsb : settings hb = settings h0).
  { apply (@InitializeGeometry_frame _ (framed_settings (settings h0)) sys
             ha _ hb Hsa Hgeom). }
  assert (Hsc : settings hc = settings h0).
  { apply (@InitializeFluxDriver_settings (settings h0) hb _ hc Hsb Hflux). }
  assert (Hsd : settings hd = settings h0).
  { apply (@ConfigGeomScan_frame _ (framed_settings (settings h0)) sys
             hc _ hd Hsc Hscan). }
  assert (Hse : settings he = settings h0).
  { revert Hhist.
    match goal with
    | |- ?m ?x = Ok (?a, ?y) -> _ =>
        assert (Hp : preserves (settings_are (settings h0)) m) by frame;
        intros Hrest; apply (Hp x a y); [exact Hsd | exact Hrest]
    end. }
  (* the event driver *)
  assert (Hda : has_driver ha) by (unfold has_driver, ha; cbn; discriminate).
  assert (Hdb : has_driver hb).
  { apply (@InitializeGeometry_frame _ framed_driver sys ha _ hb Hda Hgeom). }
  assert (Hdc : has_driver hc).
  { apply (@InitializeFluxDriver_driver hb _ hc Hdb Hflux). }
  assert (Hdd : has_driver hd).
  { apply (@ConfigGeomScan_frame _ framed_driver sys hc _ hd Hdc Hscan). }
  assert (Hde : has_driver he).
  { revert Hhist.
    match goal with
    | |- ?m ?x = Ok (?a, ?y) -> _ =>
        assert (Hp : preserves has_driver m) by frame;
        intros Hrest; apply (Hp x a y); [exact Hdd | exact Hrest]
    end. }
  (* the flux driver *)
  pose proof (@InitializeFluxDriver_flux hb hc _ Hflux) as Hmake.
  assert (Hfd : flux_is (fFluxD (drivers hc)) hd).
  { apply (@ConfigGeomScan_frame _ (framed_flux (fFluxD (drivers hc))) sys
             hc _ hd eq_refl Hscan). }
  assert (Hfe : flux_is (fFluxD (drivers hc)) he).
  { revert Hhist.
    match goal with
    | |- ?m ?x = Ok (?a, ?y) -> _ =>
        assert (Hp : preserves (flux_is (fFluxD (drivers hc))) m) by frame;
        intros Hrest; apply (Hp x a y); [exact Hfd | exact Hrest]
    end. }
  repeat split; try reflexivity.
  - exact Hse.
  - exact Hde.
  - apply (@make_flux_driver_ok hb _ _ Hmake).
    + cbn. congruence.
    + exact Hfe.
Qed.

End InitializePost.

(** ** The spill-closure check *)

Section StopFacts.

(** The first half of [Stop] never fails, and it writes nothing when it
    asks to keep throwing. *)
Lemma keep_throwing_open (h h1 : GENIEHelper) :
  keep_throwing h = Ok (true, h1) -> h1 = h.
Proof.
  unfold keep_throwing, bind, gets, ret, modify.
  repeat match goal with
         | |- context [if ?b then _ else _] => destruct b
         end;
    intros H; inversion H; reflexivity.
Qed.

Lemma keep_throwing_total (h : GENIEHelper) :
  exists b h1, keep_throwing h = Ok (b, h1).
Proof.
  unfold keep_throwing, bind, gets, ret, modify.
  repeat match goal with
         | |- context [if ?b then _ else _] => destruct b
         end;
    eauto.
Qed.

(** [Stop] answers [false] exactly on the early returns, and then the
    helper is untouched. *)
Lemma Stop_false (o : StopObs) (h h' : GENIEHelper) :
  Stop o h = Ok (false, h') -> keep_throwing h = Ok (true, h) /\ h' = h.
Proof.
  unfold Stop. intros Hrun. bind_inversion Hrun.
  destruct a.
  - pose proof (keep_throwing_open _ Hrun0) as ->.
    inversion Hrun1; subst. split; [assumption | reflexivity].
  - bind_inversion Hrun1. inversion Hrun2.
Qed.

Lemma Stop_open (o : StopObs) (h : GENIEHelper) :
  keep_throwing h = Ok (true, h) -> Stop o h = Ok (false, h).
Proof. unfold Stop, bind. now intros ->. Qed.

(** A closing [Stop] zeroes the two per-spill counters and redraws the
    histogram target. *)
Lemma Stop_true (o : StopObs) (h h' : GENIEHelper) :
  Stop o h = Ok (true, h') ->
  SpillEvents h' = 0%Z
  /\ SpillExposure h' = 0%Q
  /\ HistEventsPerSpill h'
     = inject_Z (obsPoisson o (fXSecMassPOT (detector h)
                               * fTotalHistFlux (settings h))%Q).
Proof.
  unfold Stop. intros Hrun. bind_inversion Hrun.
  destruct a; [inversion Hrun1 |].
  bind_inversion Hrun1. inversion Hrun2; subst h1. clear Hrun2.
  assert (Hdet : detector h0 = detector h /\ settings h0 = settings h).
  { revert Hrun0. unfold keep_throwing, bind, gets, ret, modify.
    repeat match goal with
           | |- context [if ?b then _ else _] => destruct b
           end;
      intros H; inversion H; split; reflexivity. }
  destruct Hdet as [Hdet Hset].
  unfold close_spill in Hrun.
  bind_inversion Hrun. apply gets_inv in Hrun1 as [-> ->].
  bind_inversion Hrun2. rename h1 into hb.
  bind_inversion Hrun1. apply modify_inv in Hrun2. subst h1.
  bind_inversion Hrun3. apply modify_inv in Hrun1. subst h1.
  bind_inversion Hrun2. apply gets_inv in Hrun1 as [-> ->].
  apply modify_inv in Hrun3. subst h'.
  assert (Hb : detector hb = detector h0 /\ settings hb = settings h0).
  { revert Hrun.
    destruct (is_atmo h0).
    - destruct (fFluxD (drivers h0)) as [[] |]; try discriminate.
      unfold bind, modify, log. intros H; inversion H. split; reflexivity.
    - unfold modify. intros H; inversion H. split; reflexivity. }
  destruct Hb as [Hb1 Hb2].
  repeat split. cbn. rewrite Hb1, Hb2, Hdet, Hset. reflexivity.
Qed.

End StopFacts.

(** X1 (bears on C2).  A [Stop] that answers [false] changes nothing at
    all, so further [Stop] calls without a [Sample] in between answer
    [false] again and leave the helper as it is.  A [Stop] that answers
    [true] closes the spill: it zeroes [fSpillEvents] and
    [fSpillExposure] and redraws [fHistEventsPerSpill]. *)
Theorem stop_is_idempotent_while_open (o : StopObs) (h h' : GENIEHelper) :
  (Stop o h = Ok (false, h') ->
   h' = h /\ forall o', Stop o' h' = Ok (false, h'))
  /\ (Stop o h = Ok (true, h') ->
      SpillEvents h' = 0%Z /\ SpillExposure h' = 0%Q
      /\ HistEventsPerSpill h'
         = inject_Z (obsPoisson o (fXSecMassPOT (detector h)
                                   * fTotalHistFlux (settings h))%Q)).
Proof.
  split.
  - intros Hrun. destruct (Stop_false _ _ Hrun) as [Hopen ->].
    split; [reflexivity |]. intros o'. now apply Stop_open.
  - apply Stop_true.
Qed.

(** An example of a closing [Stop]: after the first
    successful [Sample] of a mono helper, [Stop] answers [true] and resets
    [fSpillEvents] from 1 to 0, and the next [Stop] answers [false]. *)
Lemma stop_closing_a_spill_mutates :
  exists h1 h2,
    Examples.after Examples.sys0 Examples.pset_mono
                   [CallSample (Examples.hit 0)] = Ok h1
    /\ Stop Examples.quiet h1 = Ok (true, h2)
    /\ SpillEvents h1 = 1%Z
    /\ SpillEvents h2 = 0%Z
    /\ Stop Examples.quiet h2 = Ok (false, h2).
Proof.
  do 2 eexists.
  split; [vm_compute; reflexivity |].
  split; [vm_compute; reflexivity |].
  split; [vm_compute; reflexivity |].
  split; vm_compute; reflexivity.
Qed.

Lemma stop_is_idempotent_while_open_witness :
  exists h,
    Examples.after Examples.sys0 Examples.pset_mono [] = Ok h
    /\ Stop Examples.quiet h = Ok (false, h)
    /\ forall o', Stop o' h = Ok (false, h).
Proof.
  eexists. split; [vm_compute; reflexivity |].
  match goal with
  | |- Stop ?o ?h = _ /\ _ =>
      assert (Hrun : Stop o h = Ok (false, h)) by (vm_compute; reflexivity);
      split; [exact Hrun |];
      apply (proj1 (@stop_is_idempotent_while_open o h h) Hrun)
  end.
Defined.

(** ** Sampling *)

Section SampleFacts.

(** [Sample] up to the flux bookkeeping. *)
Lemma Sample_entered (o : SampleObs) (h : GENIEHelper) :
  has_driver h ->
  Sample o h
  = match pack_flux_exposure o (entered o h) with
    | Failed f => Failed f
    | Ok (_, h1) =>
        match obsEvent o with
        | None => Ok (false, h1)
        | Some _ =>
            match count_event h1 with
            | Failed f => Failed f
            | Ok (_, h2) =>
                match fFluxD (drivers h2) with
                | None => Failed (Undefined "fFluxD is null")
                | Some _ =>
                    Ok (true,
                        with_world (add_call
                                      (GeoSetTopVolume (fWorldVolume (names h2))))
                          (with_world (set_geoTopVolume
                                         (fWorldVolume (names h2)))
                             (if negb (Z.land (fDebugFlags (settings h2)) 4
                                       =? 0)%Z
                              then with_world
                                     (add_log
                                        (mkLog LogInfo
                                           [LStr "vertex loc ";
                                            LStr " flux ray start "]))
                                     h2
                              else h2)))
                end
            end
        end
    end.
Proof.
  unfold has_driver. intros Hdrv.
  destruct (fDriver (drivers h)) as [d |] eqn:Hd; [| congruence].
  unfold Sample, entered.
  cbv beta iota delta [bind gets geo_SetTopVolume call modify ret].
  cbn [drivers with_world]. rewrite Hd. cbv beta iota.
  cbn [drivers with_world].
  destruct (pack_flux_exposure o _) as [[u h1] | f]; [| reflexivity].
  destruct (obsEvent o) as [ev |]; [| reflexivity].
  destruct (count_event h1) as [[u2 h2] | f]; [| reflexivity].
  destruct (fFluxD (drivers h2)); [| reflexivity].
  unfold log, modify.
  destruct (negb _); reflexivity.
Qed.

(** The flux bookkeeping for the two ntuple drivers. *)
Lemma pack_flux_exposure_ntuple (o : SampleObs) (h : GENIEHelper) :
  is_ntuple_like h = true ->
  flux_driver_ok h = true ->
  pack_flux_exposure o h
  = Ok (tt, with_spill (set_fSpillExposure (exposure_delta o h)) h).
Proof.
  unfold is_ntuple_like, flux_driver_ok, pack_flux_exposure, is_atmo.
  cbv beta iota delta [bind gets modify].
  intros Hlike Hok.
  destruct (is_type "ntuple" h) eqn:Hnt.
  - pose proof (@is_type_exclusive h "ntuple" "simple_flux") as E1.
    pose proof (@is_type_exclusive h "ntuple" "histogram") as E2.
    pose proof (@is_type_exclusive h "ntuple" "mono") as E3.
    pose proof (@is_type_exclusive h "ntuple" "atmo_FLUKA") as E4.
    pose proof (@is_type_exclusive h "ntuple" "atmo_BARTOL") as E5.
    rewrite E1, E2, E3, E4, E5 in Hok by (discriminate || assumption).
    destruct (fFluxD (drivers h)) as [[] |]; try discriminate; reflexivity.
  - cbn in Hlike. rewrite Hlike in *.
    pose proof (@is_type_exclusive h "simple_flux" "histogram") as E2.
    pose proof (@is_type_exclusive h "simple_flux" "mono") as E3.
    pose proof (@is_type_exclusive h "simple_flux" "atmo_FLUKA") as E4.
    pose proof (@is_type_exclusive h "simple_flux" "atmo_BARTOL") as E5.
    rewrite E2, E3, E4, E5 in Hok by (discriminate || assumption).
    destruct (fFluxD (drivers h)) as [[] |]; try discriminate; reflexivity.
Qed.

(** For every other flux type the bookkeeping step does nothing. *)
Lemma pack_flux_exposure_other (o : SampleObs) (h : GENIEHelper) :
  is_ntuple_like h = false ->
  pack_flux_exposure o h = Ok (tt, h).
Proof.
  unfold is_ntuple_like, pack_flux_exposure.
  cbv beta iota delta [bind gets].
  intros Hlike. apply orb_false_elim in Hlike as [-> ->]. reflexivity.
Qed.

Lemma entered_facts (o : SampleObs) (h : GENIEHelper) :
  settings (entered o h) = settings h
  /\ spill (entered o h) = spill h
  /\ names (entered o h) = names h
  /\ fFluxD (drivers (entered o h)) = fFluxD (drivers h)
  /\ fDriver (drivers (entered o h)) = fDriver (drivers h)
  /\ geoTopVolume (world (entered o h)) = fTopVolume (names h)
  /\ wTrace (world (entered o h))
     = (wTrace (world h)
        ++ [GeoSetTopVolume (fTopVolume (names h)); DriverGenerateEvent])%list.
Proof.
  destruct h as [s n [g f f2 d r] dt sp [t l tr]].
  repeat split. cbn. now rewrite <- app_assoc.
Qed.

End SampleFacts.

Section CountingFacts.

(** [count_event] writes nothing but [fSpillEvents]. *)
Lemma count_event_only_counts (h h' : GENIEHelper) (u : unit) :
  count_event h = Ok (u, h') ->
  exists n, h' = with_spill (set_fSpillEvents n) h.
Proof.
  unfold count_event, incr_fSpillEvents.
  cbv beta iota delta [bind gets modify ret die].
  destruct h as [s n d dt [ev ex tot hi] w].
  repeat match goal with
         | |- context [if ?b then _ else _] => destruct b
         end;
    intros H; inversion H; eexists; reflexivity.
Qed.

(** Off the histogram type, [count_event] cannot fail. *)
Lemma count_event_total (h : GENIEHelper) :
  is_type "histogram" h = false ->
  exists h', count_event h = Ok (tt, h').
Proof.
  unfold count_event, incr_fSpillEvents.
  cbv beta iota delta [bind gets modify ret die].
  intros ->.
  repeat match goal with
         | |- context [if ?b then _ else _] => destruct b
         end;
    eexists; reflexivity.
Qed.

(** A mono helper counts every viable event, once. *)
Lemma count_event_mono (h : GENIEHelper) :
  is_type "mono" h = true ->
  count_event h
  = Ok (tt, with_spill (fun s => set_fSpillEvents (fSpillEvents s + 1)%Z s) h).
Proof.
  intros Hmono.
  unfold count_event, incr_fSpillEvents, is_ntuple_like.
  cbv beta iota delta [bind gets modify ret].
  rewrite (@is_type_exclusive h "mono" "ntuple"),
    (@is_type_exclusive h "mono" "simple_flux"),
    (@is_type_exclusive h "mono" "histogram"), Hmono
    by (discriminate || assumption).
  rewrite andb_false_r. reflexivity.
Qed.

Lemma ntuple_like_has_flux (h : GENIEHelper) :
  is_ntuple_like h = true -> flux_driver_ok h = true ->
  fFluxD (drivers h) <> None.
Proof.
  unfold is_ntuple_like, flux_driver_ok, is_atmo. intros Hlike Hok Hnone.
  rewrite Hnone in Hok.
  apply negb_true_iff in Hok.
  repeat (apply orb_false_elim in Hok as [Hok ?]).
  rewrite Hok in Hlike. cbn in Hlike. congruence.
Qed.

Lemma mono_has_flux (h : GENIEHelper) :
  is_type "mono" h = true -> flux_driver_ok h = true ->
  fFluxD (drivers h) <> None.
Proof.
  unfold flux_driver_ok, is_atmo. intros Hmono Hok Hnone.
  rewrite Hnone, Hmono in Hok.
  rewrite !orb_true_r in Hok. discriminate.
Qed.

Lemma not_histogram_when_ntuple_like (h : GENIEHelper) :
  is_ntuple_like h = true -> is_type "histogram" h = false.
Proof.
  unfold is_ntuple_like. intros Hlike.
  apply orb_true_iff in Hlike as [H | H];
    [apply (@is_type_exclusive h "ntuple") | apply (@is_type_exclusive h "simple_flux")];
    (discriminate || assumption).
Qed.

End CountingFacts.

(** X2 (bears on C4).  For the ntuple and simple_flux drivers [Sample] recomputes the
    spill exposure as the used POTs over the global probability scale
    minus the total exposure already booked, whether or not an event came
    out; with no event record it returns [false] after that update, and the
    total exposure is as before. *)
Theorem failed_sample_still_books_exposure (o : SampleObs) (h : GENIEHelper) :
  ready h ->
  is_ntuple_like h = true ->
  exists h',
    Sample o h
    = Ok (match obsEvent o with Some _ => true | None => false end, h')
    /\ SpillExposure h'
       = (obsUsedPOTs o / obsGlobProbScale o - TotalExposure h)%Q
    /\ TotalExposure h' = TotalExposure h
    /\ (obsEvent o = None -> SpillEvents h' = SpillEvents h).
Proof.
  intros [Hdrv Hok] Hlike.
  rewrite Sample_entered by exact Hdrv.
  destruct (entered_facts o h) as (Hs & Hsp & Hn & Hf & Hd & _).
  assert (Hlike1 : is_ntuple_like (entered o h) = true).
  { unfold is_ntuple_like in *.
    now rewrite !(fun t => @is_type_settings h (entered o h) t Hs). }
  assert (Hok1 : flux_driver_ok (entered o h) = true).
  { now rewrite (@flux_driver_ok_settings h (entered o h) Hs Hf). }
  rewrite pack_flux_exposure_ntuple by assumption.
  set (h1 := with_spill _ (entered o h)).
  assert (Hexp : SpillExposure h1
                 = (obsUsedPOTs o / obsGlobProbScale o - TotalExposure h)%Q).
  { unfold h1, SpillExposure, exposure_delta, TotalExposure. cbn.
    reflexivity. }
  assert (Htot : TotalExposure h1 = TotalExposure h).
  { unfold h1, TotalExposure. cbn. reflexivity. }
  destruct (obsEvent o) as [ev |].
  - assert (Hs1 : settings h1 = settings h) by (unfold h1; cbn; exact Hs).
    assert (Hlike2 : is_ntuple_like h1 = true).
    { unfold is_ntuple_like in *.
      now rewrite !(fun t => @is_type_settings h h1 t Hs1). }
    destruct (@count_event_total h1) as (h2 & Hcount).
    { now apply not_histogram_when_ntuple_like. }
    rewrite Hcount.
    destruct (count_event_only_counts _ Hcount) as (n & ->).
    assert (Hflux : fFluxD (drivers h1) <> None).
    { apply ntuple_like_has_flux; [exact Hlike2 |].
      rewrite (@flux_driver_ok_settings h h1 Hs1); [exact Hok |].
      unfold h1. cbn. exact Hf. }
    cbn [with_spill drivers settings names].
    destruct (fFluxD (drivers h1)) as [fd |]; [| congruence].
    eexists. split; [reflexivity |].
    destruct (negb _); cbn; repeat split;
      solve [exact Hexp | exact Htot | discriminate].
  - exists h1. split; [reflexivity |].
    split; [exact Hexp |]. split; [exact Htot |].
    intros _. reflexivity.
Qed.

Lemma failed_sample_still_books_exposure_witness :
  let h := Examples.helper_after Examples.sys0 Examples.pset_ntuple []
                                 (Examples.helper_with_cut "") in
  exists h',
    Sample (Examples.miss 7) h = Ok (false, h')
    /\ SpillExposure h' = (7 / 1 - 0)%Q.
Proof.
  intros h.
  destruct (@failed_sample_still_books_exposure (Examples.miss 7) h)
    as (h' & Hrun & Hexp & _).
  - split; [vm_compute; discriminate | vm_compute; reflexivity].
  - vm_compute. reflexivity.
  - exists h'. split; [exact Hrun | exact Hexp].
Defined.

(** ** Construction facts *)

Section ConstructFacts.
Variable sys : System.

Lemma construct_inv (pset : ParameterSet) (h : GENIEHelper) :
  construct sys pset = Ok h ->
  fFluxType (settings h) = pFluxType pset
  /\ fEventsPerSpill (settings h)
     = (if String.eqb (pFluxType pset) "mono" then 1%Q
        else or_default (pEventsPerSpill pset) 0%Q)
  /\ spill h = mkSpill 0 0 0 0
  /\ exists files,
       resolved_flux_files sys pset = Ok files
       /\ check_atmo (pFluxType pset) (List.length (pGenFlavors pset))
                     (List.length files)
                     (or_default (pEventsPerSpill pset) 0%Q) = Ok tt
       /\ make_histograms sys (pFluxType pset) files
            (fold_left (fun s x => StdSet.insert_int x s) (pGenFlavors pset) [])
          = Ok (fFluxHistograms (settings h), fTotalHistFlux (settings h)).
Proof.
  unfold construct, rbind.
  destruct (xyz_of (pBeamCenter pset)) as [center |]; [| discriminate].
  destruct (xyz_of (pBeamDirection pset)) as [direction |]; [| discriminate].
  destruct (resolved_flux_files sys pset) as [files |]; [| discriminate].
  destruct (setup_environment sys pset) as [env |]; [| discriminate].
  destruct (check_atmo _ _ _ _) as [[] |] eqn:Hatmo; [| discriminate].
  destruct (make_histograms _ _ _ _) as [[hists total] |] eqn:Hhist;
    [| discriminate].
  intros H. inversion H; subst; clear H. cbn.
  repeat split. exists files. repeat split; assumption.
Qed.

End ConstructFacts.

Section MonoFacts.

Lemma mono_is_not_atmo (h : GENIEHelper) :
  is_type "mono" h = true -> is_atmo h = false.
Proof.
  intros Hmono. unfold is_atmo.
  now rewrite (@is_type_exclusive h "mono" "atmo_FLUKA"),
    (@is_type_exclusive h "mono" "atmo_BARTOL")
    by (discriminate || assumption).
Qed.

Lemma mono_is_not_ntuple_like (h : GENIEHelper) :
  is_type "mono" h = true -> is_ntuple_like h = false.
Proof.
  intros Hmono. unfold is_ntuple_like.
  now rewrite (@is_type_exclusive h "mono" "ntuple"),
    (@is_type_exclusive h "mono" "simple_flux")
    by (discriminate || assumption).
Qed.

(** Off the atmospheric types [close_spill] cannot fail. *)
Lemma close_spill_total (o : StopObs) (h : GENIEHelper) :
  is_atmo h = false -> exists h', close_spill o h = Ok (tt, h').
Proof.
  intros Hatmo. unfold close_spill.
  cbv beta iota delta [bind gets modify ret]. rewrite Hatmo.
  eexists. reflexivity.
Qed.

(** With a positive event target that has been reached, a helper that is
    not atmospheric closes the spill. *)
Lemma Stop_target_reached (o : StopObs) (h : GENIEHelper) :
  is_atmo h = false ->
  Qlt_bool 0 (fEventsPerSpill (settings h)) = true ->
  Qlt_bool (inject_Z (SpillEvents h)) (fEventsPerSpill (settings h)) = false ->
  exists h', Stop o h = Ok (true, h').
Proof.
  intros Hatmo Hpos Hreached.
  assert (Hkeep : keep_throwing h = Ok (false, h)).
  { unfold keep_throwing. cbv beta iota delta [bind gets ret].
    now rewrite Hatmo, Hpos, Hreached. }
  destruct (@close_spill_total o h Hatmo) as (h' & Hclose).
  exists h'. unfold Stop, bind. now rewrite Hkeep, Hclose.
Qed.

End MonoFacts.

(** X3 (bears on C7).  A mono configuration has its per-spill event target forced to 1
    by the constructor; after [Initialize], the first [Sample] that gets an
    event record succeeds and leaves [fSpillEvents] at 1, and the [Stop]
    that follows answers [true]. *)
Theorem mono_spill_closes_after_one_event
        (sys : System) (pset : ParameterSet) (h0 h1 : GENIEHelper) (u : unit)
        (o : SampleObs) (ev : EventRecord) (so : StopObs) :
  pFluxType pset = "mono" ->
  pGenFlavors pset <> [] ->
  construct sys pset = Ok h0 ->
  Initialize sys h0 = Ok (u, h1) ->
  obsEvent o = Some ev ->
  fEventsPerSpill (settings h0) = 1%Q
  /\ exists h2 h3,
       Sample o h1 = Ok (true, h2)
       /\ SpillEvents h2 = 1%Z
       /\ Stop so h2 = Ok (true, h3).
Proof.
  intros Htype _ Hctor Hinit Hev.
  destruct (@construct_inv sys pset h0 Hctor) as (Hft & Heps & _).
  rewrite Htype in Heps. cbn in Heps.
  split; [exact Heps |].
  destruct (@Initialize_post sys h0 h1 u Hinit) as (Hs & Hev0 & _ & _ & [Hdrv Hok]).
  assert (Hmono : is_type "mono" h1 = true).
  { unfold is_type, FluxType. rewrite Hs, Hft, Htype. reflexivity. }
  rewrite Sample_entered by exact Hdrv.
  destruct (entered_facts o h1) as (Hse & Hsp & Hn & Hf & Hd & _).
  assert (Hmono1 : is_type "mono" (entered o h1) = true).
  { now rewrite (@is_type_settings h1 (entered o h1) "mono" Hse). }
  rewrite pack_flux_exposure_other by now apply mono_is_not_ntuple_like.
  rewrite Hev, count_event_mono by exact Hmono1.
  cbn [with_spill drivers settings names].
  assert (Hflux : fFluxD (drivers (entered o h1)) <> None).
  { apply mono_has_flux; [exact Hmono1 |].
    now rewrite (@flux_driver_ok_settings h1 (entered o h1) Hse Hf). }
  destruct (fFluxD (drivers (entered o h1))) as [fd |]; [| congruence].
  match goal with
  | |- exists h2 h3, Ok (true, ?x) = Ok (true, h2) /\ _ => set (h2 := x)
  end.
  assert (Hs2 : settings h2 = settings h1).
  { unfold h2. destruct (negb _); cbn; exact Hse. }
  assert (Hev2 : SpillEvents h2 = 1%Z).
  { unfold h2, SpillEvents. unfold SpillEvents in Hev0.
    destruct (negb _); cbn; rewrite ?Hsp, Hev0; reflexivity. }
  destruct (@Stop_target_reached so h2) as (h3 & Hstop).
  - apply mono_is_not_atmo.
    now rewrite (@is_type_settings h1 h2 "mono" Hs2).
  - rewrite Hs2, Hs, Heps. reflexivity.
  - rewrite Hs2, Hs, Heps, Hev2. reflexivity.
  - exists h2, h3. repeat split; assumption.
Qed.

(** The scenario [{type: mono, flavors: [14], energy: 2.0,
    perSpillEvents: 1}]. *)
Lemma mono_spill_closes_after_one_event_witness :
  let dflt := Examples.helper_with_cut "" in
  let h0 := Examples.constructed Examples.sys0 Examples.pset_mono dflt in
  let h1 := Examples.helper_after Examples.sys0 Examples.pset_mono [] dflt in
  fEventsPerSpill (settings h0) = 1%Q
  /\ exists h2 h3,
       Sample (Examples.hit 0) h1 = Ok (true, h2)
       /\ SpillEvents h2 = 1%Z
       /\ Stop Examples.quiet h2 = Ok (true, h3).
Proof.
  intros dflt h0 h1.
  apply (@mono_spill_closes_after_one_event
           Examples.sys0 Examples.pset_mono h0 h1 tt
           (Examples.hit 0) Examples.event Examples.quiet).
  - reflexivity.
  - discriminate.
  - vm_compute. reflexivity.
  - vm_compute. reflexivity.
  - reflexivity.
Defined.

(** ** The geometry manager's top volume around [Sample] *)

Section TopVolume.

Lemma pack_flux_exposure_world (o : SampleObs) (h h' : GENIEHelper)
      (u : unit) :
  pack_flux_exposure o h = Ok (u, h') ->
  world h' = world h /\ names h' = names h.
Proof.
  unfold pack_flux_exposure.
  cbv beta iota delta [bind gets modify ret die].
  repeat match goal with
         | |- context [if ?b then _ else _] => destruct b
         | |- context [match fFluxD ?d with _ => _ end] =>
             destruct (fFluxD d) as [[] |]
         end;
    intros H; inversion H; split; reflexivity.
Qed.

(** With no event record [Sample] returns before the geometry manager is
    set back: its top volume stays the helper's top volume. *)
Lemma Sample_miss_keeps_top_volume (o : SampleObs) (h h' : GENIEHelper)
      (r : bool) :
  has_driver h -> obsEvent o = None ->
  Sample o h = Ok (r, h') ->
  r = false
  /\ geoTopVolume (world h') = fTopVolume (names h)
  /\ wTrace (world h')
     = (wTrace (world h)
        ++ [GeoSetTopVolume (fTopVolume (names h)); DriverGenerateEvent])%list.
Proof.
  intros Hdrv Hev. rewrite Sample_entered by exact Hdrv.
  destruct (pack_flux_exposure o (entered o h)) as [[u h1] | f] eqn:Hpack;
    [| discriminate].
  rewrite Hev. intros H; inversion H; subst.
  destruct (pack_flux_exposure_world _ _ Hpack) as [Hw _].
  destruct (entered_facts o h) as (_ & _ & _ & _ & _ & Htop & Htrace).
  rewrite Hw. repeat split; assumption.
Qed.

(** With an event record the geometry manager is set back to the world
    volume before [Sample] returns. *)
Lemma Sample_hit_restores_world (o : SampleObs) (h h' : GENIEHelper)
      (r : bool) (ev : EventRecord) :
  has_driver h -> obsEvent o = Some ev ->
  Sample o h = Ok (r, h') ->
  r = true /\ geoTopVolume (world h') = fWorldVolume (names h).
Proof.
  intros Hdrv Hev. rewrite Sample_entered by exact Hdrv.
  destruct (pack_flux_exposure o (entered o h)) as [[u h1] | f] eqn:Hpack;
    [| discriminate].
  rewrite Hev.
  destruct (count_event h1) as [[u2 h2] | f] eqn:Hcount; [| discriminate].
  destruct (fFluxD (drivers h2)); [| discriminate].
  intros H; inversion H; subst. split; [reflexivity |].
  destruct (count_event_only_counts _ Hcount) as (n & ->).
  destruct (pack_flux_exposure_world _ _ Hpack) as [_ Hn].
  destruct (entered_facts o h) as (_ & _ & Hn0 & _).
  cbn. now rewrite Hn, Hn0.
Qed.

End TopVolume.

(** An example (bears on C5): a mono helper whose top volume is the detector enclosure: a
    [Sample] that gets no event record returns [false] with the geometry
    manager still on [volDetEnclosure]; the only calls made are the switch
    to the detector volume and the event generation.  The same helper with
    an event record ends on [volWorld]. *)
Theorem failed_sample_leaves_detector_volume :
  let h := Examples.helper_after Examples.sys0 Examples.pset_mono []
                                 (Examples.helper_with_cut "") in
  fTopVolume (names h) = "volDetEnclosure"
  /\ fWorldVolume (names h) = "volWorld"
  /\ (exists h',
        Sample (Examples.miss 0) h = Ok (false, h')
        /\ geoTopVolume (world h') = "volDetEnclosure"
        /\ wTrace (world h')
           = (wTrace (world h)
              ++ [GeoSetTopVolume "volDetEnclosure"; DriverGenerateEvent])%list)
  /\ (exists h',
        Sample (Examples.hit 0) h = Ok (true, h')
        /\ geoTopVolume (world h') = "volWorld").
Proof.
  intros h.
  split; [vm_compute; reflexivity |].
  split; [vm_compute; reflexivity |].
  split.
  - eexists.
    split; [vm_compute; reflexivity |].
    split; vm_compute; reflexivity.
  - eexists.
    split; vm_compute; reflexivity.
Qed.

(** ** The constructor's checks *)

Section AtmoCheck.
Variable sys : System.

Lemma check_atmo_fails_with_exit (fluxType : string) (nflavors nfiles : nat)
      (eps : Q) (f : Fatal) :
  check_atmo fluxType nflavors nfiles eps = Failed f -> f = Exit 1.
Proof.
  unfold check_atmo.
  repeat match goal with
         | |- context [if ?b then _ else _] => destruct b
         end;
    intros H; inversion H; reflexivity.
Qed.

Lemma check_atmo_passes (fluxType : string) (nflavors nfiles : nat) (eps : Q) :
  fluxType = "atmo_FLUKA" \/ fluxType = "atmo_BARTOL" ->
  check_atmo fluxType nflavors nfiles eps = Ok tt ->
  nflavors = nfiles /\ (eps == 1)%Q.
Proof.
  intros Htype. unfold check_atmo.
  assert (Hc : StdString.contains fluxType "atmo" = true)
    by (destruct Htype as [-> | ->]; reflexivity).
  rewrite Hc.
  destruct (nflavors =? nfiles)%nat eqn:Hn; [| discriminate].
  destruct (Qeq_bool eps 1) eqn:He; [| discriminate].
  intros _. split.
  - now apply Nat.eqb_eq.
  - now apply Qeq_bool_eq.
Qed.

End AtmoCheck.

(** X4 (bears on C6).  For the flux types [atmo_FLUKA] and [atmo_BARTOL] the constructor
    ends fatally -- no helper exists to sample from -- whenever the number
    of configured flavors differs from the number of resolved flux files,
    or the events-per-spill setting is not 1; when the constructor gets as
    far as its atmospheric block, the end is [exit(1)]. *)
Theorem atmo_misconfiguration_is_fatal (sys : System) (pset : ParameterSet) :
  pFluxType pset = "atmo_FLUKA" \/ pFluxType pset = "atmo_BARTOL" ->
  (forall files,
      resolved_flux_files sys pset = Ok files ->
      List.length (pGenFlavors pset) <> List.length files)
  \/ ~ (or_default (pEventsPerSpill pset) 0 == 1)%Q ->
  exists f,
    construct sys pset = Failed f
    /\ (reaches_atmo_check sys pset -> f = Exit 1).
Proof.
  intros Htype Hbad.
  destruct (construct sys pset) as [h | f] eqn:Hctor.
  - exfalso.
    destruct (construct_inv _ _ Hctor) as (_ & _ & _ & files & Hfiles & Hatmo & _).
    destruct (check_atmo_passes _ _ _ Htype Hatmo) as [Hn He].
    destruct Hbad as [Hbad | Hbad]; [exact (Hbad files Hfiles Hn) | auto].
  - exists f. split; [reflexivity |].
    intros ((c & Hc) & (d & Hd) & (files & Hfiles) & (env & Henv)).
    revert Hctor. unfold construct, rbind.
    rewrite Hc, Hd, Hfiles, Henv.
    destruct (check_atmo _ _ _ _) as [[] |] eqn:Hatmo.
    + exfalso.
      destruct (check_atmo_passes _ _ _ Htype Hatmo) as [Hn He].
      destruct Hbad as [Hbad | Hbad]; [exact (Hbad files Hfiles Hn) | auto].
    + intros H. inversion H; subst.
      now apply check_atmo_fails_with_exit in Hatmo.
Qed.

(** The scenario: two flavors, one flux file. *)
Lemma atmo_misconfiguration_is_fatal_witness :
  construct Examples.sys0
            (Examples.pset_atmo [14; -14]%Z ["flux1.root"] 1)
  = Failed (Exit 1).
Proof.
  destruct (@atmo_misconfiguration_is_fatal
              Examples.sys0
              (Examples.pset_atmo [14; -14]%Z ["flux1.root"] 1))
    as (f & Hrun & Hexit).
  - left. reflexivity.
  - left. intros files Hfiles. vm_compute in Hfiles.
    inversion Hfiles; subst. cbn. discriminate.
  - rewrite Hrun. f_equal. apply Hexit.
    repeat split; eexists; vm_compute; reflexivity.
Defined.

(** ** The total histogram flux *)

Section HistFlux.
Variable sys : System.

Lemma TotalHistFlux_sentinel (h : GENIEHelper) :
  FluxType h = "ntuple" \/ FluxType h = "mono" \/ FluxType h = "simple_flux" ->
  TotalHistFlux h = (-999)%Q.
Proof.
  unfold TotalHistFlux. intros [-> | [-> | ->]]; reflexivity.
Qed.

(** The accumulation loop adds every integral to the value it starts
    from. *)
Lemma add_integrals_sum (hists : list (option TH1D)) :
  forall start total,
    add_integrals hists start = Ok total ->
    exists loaded,
      hists = map Some loaded
      /\ (total == start + sum_of_integrals loaded)%Q.
Proof.
  induction hists as [| [hist |] rest IH]; intros start total Hrun;
    cbn in Hrun.
  - inversion Hrun; subst. exists []. split; [reflexivity |].
    unfold sum_of_integrals. cbn [fold_right]. ring.
  - destruct (IH _ _ Hrun) as (loaded & -> & Hsum).
    exists (hist :: loaded). split; [reflexivity |].
    rewrite Hsum. unfold sum_of_integrals. cbn [fold_right]. ring.
  - discriminate.
Qed.

(** For the histogram type the accessor returns what the member held
    before the constructor ran, plus the sum of the integrals. *)
Lemma TotalHistFlux_histogram (pset : ParameterSet) (h : GENIEHelper) :
  pFluxType pset = "histogram" ->
  construct sys pset = Ok h ->
  exists loaded,
    fFluxHistograms (settings h) = map Some loaded
    /\ (TotalHistFlux h == raw_fTotalHistFlux sys + sum_of_integrals loaded)%Q.
Proof.
  intros Htype Hctor.
  destruct (construct_inv _ _ Hctor) as (Hft & _ & _ & files & _ & _ & Hhist).
  unfold TotalHistFlux, FluxType. rewrite Hft, Htype. cbn.
  unfold make_histograms in Hhist. rewrite Htype in Hhist. cbn in Hhist.
  destruct files as [| file rest]; [discriminate |].
  unfold rbind in Hhist.
  destruct (add_integrals _ _) as [total |] eqn:Hadd; [| discriminate].
  inversion Hhist as [[Hh Ht]]. rewrite <- Ht.
  destruct (add_integrals_sum _ _ Hadd) as (loaded & Hl & Hsum).
  exists loaded. split; [exact Hl | exact Hsum].
Qed.

(** For every other type that is not answered by the sentinel no
    histogram is loaded and the accessor returns the stale value as is. *)
Lemma TotalHistFlux_other (pset : ParameterSet) (h : GENIEHelper) :
  pFluxType pset <> "histogram" ->
  construct sys pset = Ok h ->
  fFluxHistograms (settings h) = []
  /\ fTotalHistFlux (settings h) = raw_fTotalHistFlux sys.
Proof.
  intros Htype Hctor.
  destruct (construct_inv _ _ Hctor) as (_ & _ & _ & files & _ & _ & Hhist).
  unfold make_histograms in Hhist.
  rewrite (proj2 (String.eqb_neq _ _) Htype) in Hhist.
  inversion Hhist. split; reflexivity.
Qed.

End HistFlux.

(** An example (bears on C10): a histogram configuration with one [numu] histogram of integral
    5, built in storage whose [fTotalHistFlux] bytes hold 1: the sentinel
    part holds (a mono helper answers -999), but the histogram helper
    answers 6, the stale 1 plus the integral, not the sum of the integrals,
    which is 5. *)
Theorem total_hist_flux_starts_from_stale_storage :
  (exists h,
      construct Examples.sys_stale Examples.pset_mono = Ok h
      /\ TotalHistFlux h = (-999)%Q)
  /\ exists h,
       construct Examples.sys_stale (Examples.pset_histogram 5e13) = Ok h
       /\ fFluxHistograms (settings h) = [Some (mkTH1D "numu" 5)]
       /\ sum_of_integrals [mkTH1D "numu" 5] == 5
       /\ TotalHistFlux h == 6
       /\ ~ TotalHistFlux h == 5.
Proof.
  split.
  - eexists. split; [vm_compute; reflexivity |].
    vm_compute. reflexivity.
  - eexists.
    split; [vm_compute; reflexivity |].
    split; [vm_compute; reflexivity |].
    split; [vm_compute; reflexivity |].
    split; [vm_compute; reflexivity |].
    vm_compute. discriminate.
Qed.

(** ** The total exposure along a run *)

Section ExposureSteps.



Lemma Sample_ok_has_driver (o : SampleObs) (h h' : GENIEHelper) (r : bool) :
  Sample o h = Ok (r, h') -> has_driver h.
Proof.
  unfold Sample, has_driver.
  cbv beta iota delta [bind gets geo_SetTopVolume call modify].
  cbn [drivers with_world].
  destruct (fDriver (drivers h)); [discriminate | discriminate].
Qed.

Lemma pack_flux_exposure_result (o : SampleObs) (h h1 : GENIEHelper)
      (u : unit) :
  pack_flux_exposure o h = Ok (u, h1) ->
  h1 = if is_ntuple_like h
       then with_spill (set_fSpillExposure (exposure_delta o h)) h
       else h.
Proof.
  unfold pack_flux_exposure, is_ntuple_like.
  cbv beta iota delta [bind gets ret modify die].
  destruct (is_type "ntuple" h).
  - destruct (fFluxD (drivers h)) as [[] |]; try discriminate.
    intros H; inversion H. reflexivity.
  - destruct (is_type "simple_flux" h).
    + destruct (fFluxD (drivers h)) as [[] |]; try discriminate.
      intros H; inversion H. reflexivity.
    + intros H; inversion H. reflexivity.
Qed.














End ExposureSteps.



(** An example (bears on C3): a histogram configuration with a negative
    POT per spill: the first [Stop] after [Initialize] closes an empty
    spill and books -1, taking the total exposure from 0 to -1. *)
Lemma negative_pot_lowers_total_exposure :
  exists h1 h2,
    Examples.after Examples.sys0 (Examples.pset_histogram (-1)) [] = Ok h1
    /\ Stop Examples.quiet h1 = Ok (true, h2)
    /\ TotalExposure h1 == 0
    /\ TotalExposure h2 == -1
    /\ ~ (TotalExposure h1 <= TotalExposure h2)%Q.
Proof.
  do 2 eexists.
  split; [vm_compute; reflexivity |].
  split; [vm_compute; reflexivity |].
  split; [vm_compute; reflexivity |].
  split; [vm_compute; reflexivity |].
  vm_compute. intros H. apply H. reflexivity.
Qed.

(** ** What the calls leave alone *)

Section RunFrames.
Variable I : GENIEHelper -> Prop.
Hypothesis HI : framed_run I.

Lemma keep_throwing_run_frame : preserves I keep_throwing.
Proof. destruct HI; unfold keep_throwing; frame. Qed.

Lemma close_spill_run_frame (o : StopObs) : preserves I (close_spill o).
Proof. destruct HI; unfold close_spill; frame. Qed.

Lemma Stop_run_frame (o : StopObs) : preserves I (Stop o).
Proof.
  unfold Stop.
  apply preserves_bind; [apply keep_throwing_run_frame | intros [|]].
  - apply preserves_ret.
  - apply preserves_bind; [apply close_spill_run_frame | intros _].
    apply preserves_ret.
Qed.

Lemma pack_flux_exposure_run_frame (o : SampleObs) :
  preserves I (pack_flux_exposure o).
Proof. destruct HI; unfold pack_flux_exposure; frame. Qed.

Lemma count_event_run_frame : preserves I count_event.
Proof. destruct HI; unfold count_event; frame. Qed.

Lemma Sample_run_frame (o : SampleObs) : preserves I (Sample o).
Proof.
  unfold Sample.
  repeat first
    [ apply pack_flux_exposure_run_frame
    | apply count_event_run_frame
    | match goal with
      | |- preserves _ (bind _ _) => apply preserves_bind; [| intros ?]
      | |- preserves _ (if ?b then _ else _) => destruct b
      | |- preserves _ (match ?x with _ => _ end) => destruct x
      end
    | solve [destruct HI; frame] ].
Qed.

End RunFrames.

Section RunKeeps.

Lemma step_preserves (I : GENIEHelper -> Prop) (c : Call)
      (h h' : GENIEHelper) :
  framed I \/ framed_run I ->
  I h -> step c h = Ok h' -> I h'.
Proof.
  intros HI Hh Hstep. destruct c as [o | o]; cbn [step] in Hstep.
  - destruct (Sample o h) as [[r h1] | f] eqn:Hrun; [| discriminate].
    inversion Hstep; subst h1.
    destruct HI as [HI | HI];
      [ exact (@Sample_frame I HI o h r h' Hh Hrun)
      | exact (@Sample_run_frame I HI o h r h' Hh Hrun) ].
  - destruct (Stop o h) as [[r h1] | f] eqn:Hrun; [| discriminate].
    inversion Hstep; subst h1.
    destruct HI as [HI | HI];
      [ exact (@Stop_frame I HI o h r h' Hh Hrun)
      | exact (@Stop_run_frame I HI o h r h' Hh Hrun) ].
Qed.

Lemma run_preserves (I : GENIEHelper -> Prop) (calls : list Call) :
  framed I \/ framed_run I ->
  forall h h', I h -> run calls h = Ok h' -> I h'.
Proof.
  intros HI. induction calls as [| c rest IH]; intros h h' Hh Hrun.
  - inversion Hrun; subst. exact Hh.
  - cbn [run] in Hrun.
    destruct (step c h) as [h1 |] eqn:Hstep; [| discriminate].
    apply (IH h1 h'); [| exact Hrun].
    exact (@step_preserves I c h h1 HI Hh Hstep).
Qed.

End RunKeeps.

(** X6.  However many [Sample] and [Stop] calls are made, they never
    change the settings, the volume names and scan texts, the detector
    numbers, the geometry analyzer, the flux driver, what is handed to the
    event driver, or the event driver; a helper that was ready stays
    ready. *)
Theorem sampling_keeps_the_configuration
        (calls : list Call) (h h' : GENIEHelper) :
  run calls h = Ok h' ->
  settings h' = settings h
  /\ names h' = names h
  /\ detector h' = detector h
  /\ fGeomD (drivers h') = fGeomD (drivers h)
  /\ fFluxD (drivers h') = fFluxD (drivers h)
  /\ fFluxD2GMCJD (drivers h') = fFluxD2GMCJD (drivers h)
  /\ fDriver (drivers h') = fDriver (drivers h)
  /\ (ready h -> ready h').
Proof.
  intros Hrun.
  assert (Hs : settings h' = settings h).
  { apply (@run_preserves (settings_are (settings h)) calls
             (or_introl (framed_settings _)) h h' eq_refl Hrun). }
  assert (Hf : fFluxD (drivers h') = fFluxD (drivers h)).
  { apply (@run_preserves (flux_is (fFluxD (drivers h))) calls
             (or_introl (framed_flux _)) h h' eq_refl Hrun). }
  assert (Hd : fDriver (drivers h') = fDriver (drivers h)).
  { apply (@run_preserves (driver_is (fDriver (drivers h))) calls
             (or_intror (framed_event_driver _)) h h' eq_refl Hrun). }
  split; [exact Hs |].
  split.
  { apply (@run_preserves (names_are (names h)) calls
             (or_intror (framed_names _)) h h' eq_refl Hrun). }
  split.
  { apply (@run_preserves (detector_is (detector h)) calls
             (or_intror (framed_detector _)) h h' eq_refl Hrun). }
  split.
  { apply (@run_preserves (geom_is (fGeomD (drivers h))) calls
             (or_intror (framed_geom _)) h h' eq_refl Hrun). }
  split; [exact Hf |].
  split.
  { apply (@run_preserves (blender_is (fFluxD2GMCJD (drivers h))) calls
             (or_intror (framed_blender _)) h h' eq_refl Hrun). }
  split; [exact Hd |].
  intros [Hdrv Hok]. split.
  - unfold has_driver in *. congruence.
  - rewrite (@flux_driver_ok_settings h h' Hs Hf). exact Hok.
Qed.

Lemma sampling_keeps_the_configuration_witness :
  let dflt := Examples.helper_with_cut "" in
  let h := Examples.helper_after Examples.sys0 Examples.pset_ntuple [] dflt in
  let calls := [CallSample (Examples.hit 3); CallStop Examples.quiet;
                CallSample (Examples.miss 4)] in
  let h' := Examples.helper_after Examples.sys0 Examples.pset_ntuple calls
                                  dflt in
  settings h' = settings h /\ names h' = names h /\ ready h'.
Proof.
  intros dflt h calls h'.
  destruct (@sampling_keeps_the_configuration calls h h')
    as (Hs & Hn & _ & _ & _ & _ & _ & Hready).
  - vm_compute. reflexivity.
  - split; [exact Hs |]. split; [exact Hn |].
    apply Hready. split; [vm_compute; discriminate | vm_compute; reflexivity].
Defined.

(** ** Event counting, spill booking and the top volume *)

Section CountingRule.

Lemma counts_event_settings (h h' : GENIEHelper) :
  settings h' = settings h -> counts_event h' = counts_event h.
Proof.
  intros Hs. unfold counts_event, is_ntuple_like.
  now rewrite (@is_atmo_settings h h' Hs),
    !(fun t => @is_type_settings h h' t Hs), Hs.
Qed.

Ltac split_type h t :=
  destruct (String.eqb_spec (FluxType h) t).

(** [count_event] adds one exactly when [counts_event] says so: the two
    counting statements of [Sample] never both fire. *)
Lemma count_event_exact (h h' : GENIEHelper) (u : unit) :
  count_event h = Ok (u, h') ->
  SpillEvents h'
  = (SpillEvents h + (if counts_event h then 1 else 0))%Z.
Proof.
  unfold count_event, counts_event, incr_fSpillEvents, is_ntuple_like,
    is_atmo, is_type.
  cbv beta iota delta [bind gets modify ret die].
  split_type h "ntuple"; split_type h "simple_flux";
    split_type h "histogram"; split_type h "mono";
    split_type h "atmo_FLUKA"; split_type h "atmo_BARTOL";
    try congruence;
    destruct (Qlt_bool 0 (fEventsPerSpill (settings h)));
    cbn [andb orb];
    try destruct (histogram_reads_ok h);
    intros H; inversion H; unfold SpillEvents; cbn; lia.
Qed.


Lemma unknown_type_has_no_flux (h : GENIEHelper) :
  unknown_type h = true -> flux_driver_ok h = true ->
  fFluxD (drivers h) = None /\ is_ntuple_like h = false
  /\ counts_event h = false.
Proof.
  unfold unknown_type, flux_driver_ok, counts_event, is_ntuple_like.
  intros Hunk Hok.
  apply negb_true_iff in Hunk.
  repeat (apply orb_false_elim in Hunk as [Hunk ?]).
  rewrite Hunk in *.
  repeat match goal with H : _ = false |- _ => rewrite H in * end.
  split; [| split; [reflexivity | now rewrite andb_false_r]].
  destruct (fFluxD (drivers h)) as [[] |]; (discriminate || reflexivity).
Qed.

End CountingRule.

(** X7.  A [Sample] answers [true] exactly when the driver produced an
    event record, and it then counts the event into [fSpillEvents] once or
    not at all: once for the histogram and mono types, once for the ntuple
    and atmospheric types when a positive events-per-spill target is set,
    and never otherwise or when no event came out. *)
Theorem sample_counts_an_event_at_most_once
        (o : SampleObs) (h h' : GENIEHelper) (r : bool) :
  Sample o h = Ok (r, h') ->
  r = (match obsEvent o with Some _ => true | None => false end)
  /\ SpillEvents h'
     = (SpillEvents h + (if r && counts_event h then 1 else 0))%Z.
Proof.
  intros Hrun.
  pose proof (@Sample_ok_has_driver o h h' r Hrun) as Hdrv.
  rewrite Sample_entered in Hrun by exact Hdrv.
  destruct (pack_flux_exposure o (entered o h)) as [[u h1] | f] eqn:Hpack;
    [| discriminate].
  apply pack_flux_exposure_result in Hpack.
  destruct (entered_facts o h) as (Hs & Hsp & _).
  assert (H1 : settings h1 = settings h /\ SpillEvents h1 = SpillEvents h).
  { subst h1. unfold SpillEvents.
    destruct (is_ntuple_like (entered o h)); cbn; rewrite ?Hsp; auto. }
  destruct H1 as [Hs1 Hev1].
  destruct (obsEvent o).
  - destruct (count_event h1) as [[u2 h2] | f] eqn:Hcount; [| discriminate].
    pose proof (@count_event_exact h1 h2 u2 Hcount) as Hexact.
    destruct (@count_event_only_counts h1 h2 u2 Hcount) as (n & Hh2).
    rewrite (@counts_event_settings h h1 Hs1), Hev1 in Hexact.
    destruct (fFluxD (drivers h2)); [| discriminate].
    inversion Hrun; subst r h'. split; [reflexivity |].
    cbn [andb]. rewrite <- Hexact.
    unfold SpillEvents. destruct (negb _); reflexivity.
  - inversion Hrun; subst r h'. split; [reflexivity |].
    cbn [andb]. rewrite Hev1. lia.
Qed.

Lemma sample_counts_an_event_at_most_once_witness :
  let dflt := Examples.helper_with_cut "" in
  let h := Examples.helper_after Examples.sys0 Examples.pset_ntuple [] dflt in
  let h' := Examples.helper_after Examples.sys0 Examples.pset_ntuple
              [CallSample (Examples.hit 3)] dflt in
  SpillEvents h' = (SpillEvents h + (if true && counts_event h then 1 else 0))%Z.
Proof.
  intros dflt h h'.
  apply (@sample_counts_an_event_at_most_once (Examples.hit 3) h h' true).
  vm_compute. reflexivity.
Defined.



(** X9.  [Sample] first points the geometry manager at the helper's top
    volume and asks the driver for an event.  With an event record it ends
    by pointing the geometry manager back at the world volume; with none it
    returns [false] at once and the geometry manager stays on the top
    volume. *)
Theorem sample_top_volume_protocol
        (o : SampleObs) (h h' : GENIEHelper) (r : bool) :
  Sample o h = Ok (r, h') ->
  (obsEvent o = None ->
   r = false
   /\ geoTopVolume (world h') = fTopVolume (names h)
   /\ wTrace (world h')
      = (wTrace (world h)
         ++ [GeoSetTopVolume (fTopVolume (names h)); DriverGenerateEvent])%list)
  /\ (obsEvent o <> None ->
      r = true
      /\ geoTopVolume (world h') = fWorldVolume (names h)
      /\ wTrace (world h')
         = (wTrace (world h)
            ++ [GeoSetTopVolume (fTopVolume (names h)); DriverGenerateEvent;
                GeoSetTopVolume (fWorldVolume (names h))])%list).
Proof.
  intros Hrun.
  pose proof (@Sample_ok_has_driver o h h' r Hrun) as Hdrv.
  split.
  - intros Hev. exact (@Sample_miss_keeps_top_volume o h h' r Hdrv Hev Hrun).
  - intros Hev. destruct (obsEvent o) as [ev |] eqn:Hobs; [| congruence].
    destruct (@Sample_hit_restores_world o h h' r ev Hdrv Hobs Hrun)
      as [Hr Hgeo].
    split; [exact Hr |]. split; [exact Hgeo |].
    rewrite Sample_entered in Hrun by exact Hdrv.
    destruct (pack_flux_exposure o (entered o h)) as [[u h1] | f] eqn:Hpack;
      [| discriminate].
    rewrite Hobs in Hrun.
    destruct (count_event h1) as [[u2 h2] | f] eqn:Hcount; [| discriminate].
    destruct (fFluxD (drivers h2)); [| discriminate].
    inversion Hrun; subst r h'.
    destruct (@count_event_only_counts h1 h2 u2 Hcount) as (n & ->).
    destruct (@pack_flux_exposure_world o (entered o h) h1 u Hpack)
      as [Hw Hn].
    destruct (entered_facts o h) as (_ & _ & Hn0 & _ & _ & _ & Htrace).
    destruct (negb _); cbn; rewrite Hw, Htrace, Hn, Hn0, <- app_assoc;
      reflexivity.
Qed.

Lemma sample_top_volume_protocol_witness :
  let dflt := Examples.helper_with_cut "" in
  let h := Examples.helper_after Examples.sys0 Examples.pset_mono [] dflt in
  let h' := Examples.helper_after Examples.sys0 Examples.pset_mono
              [CallSample (Examples.miss 0)] dflt in
  fWorldVolume (names h) = "volWorld"
  /\ fTopVolume (names h) = "volDetEnclosure"
  /\ geoTopVolume (world h') = fTopVolume (names h).
Proof.
  intros dflt h h'.
  split; [vm_compute; reflexivity |].
  split; [vm_compute; reflexivity |].
  apply (@sample_top_volume_protocol (Examples.miss 0) h h' false).
  - vm_compute. reflexivity.
  - reflexivity.
Defined.

(** X10.  A helper whose flux type is none of ntuple, simple_flux,
    histogram, mono, atmo_FLUKA, atmo_BARTOL has no flux driver after
    initialization: a [Sample] without an event record still answers
    [false], but the first [Sample] that gets an event record dereferences
    the null flux driver. *)
Theorem unknown_flux_type_cannot_deliver (o : SampleObs) (h : GENIEHelper) :
  ready h ->
  unknown_type h = true ->
  (obsEvent o = None -> exists h', Sample o h = Ok (false, h'))
  /\ (obsEvent o <> None -> Sample o h = Failed (Undefined "fFluxD is null")).
Proof.
  intros [Hdrv Hok] Hunk.
  destruct (@unknown_type_has_no_flux h Hunk Hok) as (Hnone & Hlike & _).
  destruct (entered_facts o h) as (Hs & Hsp & _ & Hf & _).
  assert (Hlike1 : is_ntuple_like (entered o h) = false).
  { unfold is_ntuple_like in *.
    now rewrite !(fun t => @is_type_settings h (entered o h) t Hs). }
  rewrite Sample_entered by exact Hdrv.
  rewrite pack_flux_exposure_other by exact Hlike1.
  split.
  - intros ->. eexists. reflexivity.
  - intros Hev. destruct (obsEvent o) as [ev |]; [| congruence].
    assert (Hnh : is_type "histogram" (entered o h) = false).
    { rewrite (@is_type_settings h (entered o h) "histogram" Hs).
      unfold unknown_type in Hunk. apply negb_true_iff in Hunk.
      repeat (apply orb_false_elim in Hunk as [Hunk ?]). assumption. }
    destruct (@count_event_total (entered o h) Hnh) as (h2 & Hcount).
    rewrite Hcount.
    destruct (@count_event_only_counts (entered o h) h2 tt Hcount)
      as (n & ->).
    cbn [with_spill drivers]. rewrite Hf, Hnone. reflexivity.
Qed.

Lemma unknown_flux_type_cannot_deliver_witness :
  let dflt := Examples.helper_with_cut "" in
  let h := Examples.helper_after Examples.sys0
             (Examples.pset_of "beam" [14%Z] [] None None None) [] dflt in
  Sample (Examples.hit 0) h = Failed (Undefined "fFluxD is null").
Proof.
  intros dflt h.
  apply (@unknown_flux_type_cannot_deliver (Examples.hit 0) h).
  - split; [vm_compute; discriminate | vm_compute; reflexivity].
  - vm_compute. reflexivity.
  - discriminate.
Defined.

(** ** More of the cut language *)

Section CutEdges.
Import StdString GenieUtils.

Lemma append_log_nil (h : GENIEHelper) : append_log [] h = h.
Proof.
  destruct h as [s n d dt sp [g l t]]. unfold append_log, with_world. cbn.
  now rewrite app_nil_r.
Qed.

Lemma append_log_app (e1 e2 : list LogEntry) (h : GENIEHelper) :
  append_log e2 (append_log e1 h) = append_log (e1 ++ e2) h.
Proof.
  destruct h as [s n d dt sp [g l t]]. unfold append_log, with_world. cbn.
  now rewrite app_assoc.
Qed.

Lemma log_appends (sev : Severity) (text : list LogArg) (h : GENIEHelper) :
  log sev text h = Ok (tt, append_log [mkLog sev text] h).
Proof. reflexivity. Qed.

Lemma log_strtok_appends (pieces : list string) :
  forall i h,
    log_strtok i pieces h = Ok (tt, append_log (strtok_entries i pieces) h).
Proof.
  induction pieces as [| p rest IH]; intros i h; cbn [log_strtok strtok_entries].
  - unfold ret. now rewrite append_log_nil.
  - unfold bind. rewrite log_appends, IH, append_log_app. reflexivity.
Qed.

(** The padding loop: up to [want] values are padded with zeros to
    exactly [want]; with more, the unsigned bound wraps around and the
    allocation fails. *)
Lemma pad_values_fits (want : nat) (vals : list Q) :
  (List.length vals <= want)%nat ->
  (Z.of_nat want <= vector_max_size)%Z ->
  pad_values want vals
  = Ok (vals ++ repeat 0%Q (want - List.length vals))%list.
Proof.
  intros Hle Hmax. unfold pad_values, size_t_sub.
  assert (Hmod : ((Z.of_nat want - Z.of_nat (List.length vals)) mod 2 ^ 64
                  = Z.of_nat (want - List.length vals))%Z).
  { rewrite Z.mod_small; [lia |].
    unfold vector_max_size in Hmax. lia. }
  rewrite Hmod.
  destruct (Z.ltb_spec vector_max_size
              (Z.of_nat (want - List.length vals)
               + Z.of_nat (List.length vals))) as [Hbig | _]; [lia |].
  now rewrite Nat2Z.id.
Qed.

Lemma pad_values_overflows (want : nat) (vals : list Q) :
  (want < List.length vals)%nat ->
  pad_values want vals = Failed (Throw "std::bad_alloc").
Proof.
  intros Hlt. unfold pad_values, size_t_sub.
  set (n := Z.of_nat (List.length vals)).
  set (w := Z.of_nat want).
  assert (Hn : (0 <= w < n)%Z) by (unfold n, w; lia).
  destruct (Z.ltb_spec vector_max_size ((w - n) mod 2 ^ 64 + n)) as [_ | Hsmall];
    [reflexivity | exfalso].
  pose proof (Z.mod_pos_bound (w - n) (2 ^ 64) ltac:(lia)) as Hb.
  unfold vector_max_size in Hsmall.
  assert (Hn60 : (n < 2 ^ 60)%Z) by lia.
  assert (Hm : ((w - n) mod 2 ^ 64 = 2 ^ 64 + (w - n))%Z).
  { symmetry. apply Z.mod_unique_pos with (q := (-1)%Z); lia. }
  lia.
Qed.

End CutEdges.

Section RockEdges.
Import StdString GenieUtils.

(** The rock-box routine on six or more values. *)
Lemma rock_run (h : GENIEHelper) (g : ROOTGeomAnalyzer)
      (stype valtext : string) :
  fGeomD (drivers h) = Some g ->
  Split (normalized_fidcut h) ":" = [stype; valtext] ->
  (6 <= List.length (parse_values valtext))%nat ->
  let vals := parse_values valtext in
  let world_name := fWorldVolume (names h) in
  let xyzmin := (val vals 0, val vals 1, val vals 2) in
  let xyzmax := (val vals 3, val vals 4, val vals 5) in
  let sel :=
    let '(rockonly, wallmin, dedx, fudge) := rock_options vals in
    SelRockBox
      (mkRock (mkFid (Some (if negb rockonly then Sphere 0 0 0 1.0e-10
                            else Box xyzmin xyzmax))
                     true false false)
              (Some (xyzmin, xyzmax)) (Some wallmin)
              (Some (dedx / fudge)%Q)) in
  InitializeRockBoxSelection h
  = Ok (tt,
        mkHelper (settings h)
          (set_fTopVolume world_name (names h))
          (set_fGeomD
             (Some (set_rgSelector (Some sel)
                      (set_rgTopVolName world_name g)))
             (drivers h))
          (detector h) (spill h)
          (mkWorld (geoTopVolume (world h))
             (wLog (world h)
              ++ [mkLog LogInfo [LStr "fiducial (rock) cut: ";
                                 LStr (normalized_fidcut h)]])%list
             (wTrace (world h)
              ++ [RgeomSetTopVolName world_name;
                  RgeomAdoptGeomVolSelector sel])%list)).
Proof.
  intros Hgeom Hsplit Hlen vals world_name xyzmin xyzmax sel.
  unfold InitializeRockBoxSelection.
  cbv beta iota delta [bind gets].
  rewrite Hgeom, Hsplit. cbv beta iota.
  fold vals.
  assert (Hsix : (List.length vals <? 6)%nat = false)
    by (apply Nat.ltb_ge; exact Hlen).
  destruct h as [s n d dt sp w]. destruct d as [gd fd fd2 drv rec].
  cbn in Hgeom. subst gd.
  unfold rgeom_AdoptGeomVolSelector, rgeom_SetTopVolName, rgeom_update,
    call, log, modify, bind, ret, with_drivers, with_world, with_names,
    add_call, add_log.
  cbn [names drivers world settings detector spill fGeomD option_map
       set_fGeomD fFluxD fFluxD2GMCJD fDriver fGenieEventRecord
       geoTopVolume wLog wTrace fWorldVolume].
  rewrite Hsix. cbv beta iota.
  subst sel xyzmin xyzmax world_name.
  destruct (rock_options vals) as [[[rockonly wallmin] dedx] fudge].
  cbn [names drivers world settings detector spill fGeomD option_map
       set_fGeomD fFluxD fFluxD2GMCJD fDriver fGenieEventRecord
       geoTopVolume wLog wTrace fWorldVolume].
  rewrite <- app_assoc. reflexivity.
Qed.

Lemma rock_short (h : GENIEHelper) (g : ROOTGeomAnalyzer)
      (stype valtext : string) :
  fGeomD (drivers h) = Some g ->
  Split (normalized_fidcut h) ":" = [stype; valtext] ->
  (List.length (parse_values valtext) < 6)%nat ->
  InitializeRockBoxSelection h = Failed (AssertFailed "nvals >= 6").
Proof.
  intros Hgeom Hsplit Hlen.
  unfold InitializeRockBoxSelection.
  cbv beta iota delta [bind gets].
  rewrite Hgeom, Hsplit. cbv beta iota.
  assert (Hsix : (List.length (parse_values valtext) <? 6)%nat = true)
    by (apply Nat.ltb_lt; exact Hlen).
  destruct h as [s n d dt sp w]. destruct d as [gd fd fd2 drv rec].
  cbn in Hgeom. subst gd.
  unfold rgeom_SetTopVolName, rgeom_update, call, log, modify, bind, die.
  rewrite Hsix. reflexivity.
Qed.

End RockEdges.

Section CutTheorems.
Import StdString GenieUtils.

Lemma contains_rock_named (s : string) :
  contains s "rock" = true -> s <> "" /\ s <> "none".
Proof.
  intros H. split; intros ->; vm_compute in H; discriminate.
Qed.

(** A shape cut with an analyzer and one colon: everything up to the
    padding loop. *)
Lemma shape_run (h : GENIEHelper) (g : ROOTGeomAnalyzer)
      (stype valtext : string) :
  normalized_fidcut h <> "" -> normalized_fidcut h <> "none" ->
  contains (normalized_fidcut h) "rock" = false ->
  fGeomD (drivers h) = Some g ->
  Split (normalized_fidcut h) ":" = [stype; valtext] ->
  InitializeFiducialSelection h
  = match pad_values 7 (parse_values valtext) with
    | Failed f => Failed f
    | Ok vals =>
        bind (make_shape stype (normalized_fidcut h)
                (List.length (parse_values valtext)) vals
                (mkFid None true false false))
          (fun shaped =>
             bind (log_if (contains stype "m") LogInfo
                     [LStr "Convert fiducial volume from master to topvol coords"])
               (fun _ =>
                  bind (log_if (contains stype "0") LogInfo
                          [LStr "Reverse sense of fiducial volume cut"])
                    (fun _ =>
                       rgeom_AdoptGeomVolSelector
                         (SelFiducial
                            (mkFid (fidShape shaped) (fidRemoveEntries shaped)
                                   (contains stype "m")
                                   (contains stype "0"))))))
          (append_log [mkLog LogInfo [LStr "fiducial cut: ";
                                      LStr (normalized_fidcut h)]] h)
    end.
Proof.
  intros Hne Hnn Hrock Hgeom Hsplit.
  unfold InitializeFiducialSelection.
  cbv beta iota delta [bind gets].
  rewrite Hrock.
  rewrite (proj2 (String.eqb_neq _ _)) by congruence.
  rewrite (proj2 (String.eqb_neq _ _)) by congruence.
  cbv beta iota delta [orb].
  rewrite Hgeom, Hsplit. cbv beta iota.
  rewrite log_appends.
  destruct (pad_values 7 (parse_values valtext)); reflexivity.
Qed.



(** X12.  A cut that names "rock" with one colon and fewer than six values
    after it does not return: the assertion [nvals >= 6] fails. *)
Theorem rock_cut_with_too_few_values_asserts
        (h : GENIEHelper) (g : ROOTGeomAnalyzer) (stype valtext : string) :
  fGeomD (drivers h) = Some g ->
  contains (normalized_fidcut h) "rock" = true ->
  Split (normalized_fidcut h) ":" = [stype; valtext] ->
  (List.length (parse_values valtext) < 6)%nat ->
  InitializeFiducialSelection h = Failed (AssertFailed "nvals >= 6").
Proof.
  intros Hgeom Hrock Hsplit Hlen.
  destruct (contains_rock_named _ Hrock) as [Hne Hnn].
  rewrite (@dispatch_rock h Hne Hnn Hrock).
  exact (@rock_short h g stype valtext Hgeom Hsplit Hlen).
Qed.

Lemma rock_cut_with_too_few_values_asserts_witness :
  InitializeFiducialSelection (Examples.helper_with_cut "rockbox: 0 0 0 1 1")
  = Failed (AssertFailed "nvals >= 6").
Proof.
  apply (@rock_cut_with_too_few_values_asserts
           (Examples.helper_with_cut "rockbox: 0 0 0 1 1")
           (mkRgeom "volDetEnclosure" None 200 200 10000 false None)
           "rockbox" " 0 0 0 1 1").
  - reflexivity.
  - vm_compute. reflexivity.
  - vm_compute. reflexivity.
  - vm_compute. lia.
Defined.

(** X13.  A shape cut (no "rock") with more than seven values after the
    colon does not return either: the bound [7 - nvals] of the padding
    loop wraps around on [size_t] and the vector grows until allocation
    fails. *)
Theorem shape_cut_with_too_many_values_throws
        (h : GENIEHelper) (g : ROOTGeomAnalyzer) (stype valtext : string) :
  normalized_fidcut h <> "" -> normalized_fidcut h <> "none" ->
  contains (normalized_fidcut h) "rock" = false ->
  fGeomD (drivers h) = Some g ->
  Split (normalized_fidcut h) ":" = [stype; valtext] ->
  (7 < List.length (parse_values valtext))%nat ->
  InitializeFiducialSelection h = Failed (Throw "std::bad_alloc").
Proof.
  intros Hne Hnn Hrock Hgeom Hsplit Hlen.
  rewrite (@shape_run h g stype valtext Hne Hnn Hrock Hgeom Hsplit).
  now rewrite (@pad_values_overflows 7 (parse_values valtext) Hlen).
Qed.

Lemma shape_cut_with_too_many_values_throws_witness :
  InitializeFiducialSelection
    (Examples.helper_with_cut "zpoly: 6,(2,-1),1.75,0,{0.25,8.75},1")
  = Failed (Throw "std::bad_alloc").
Proof.
  apply (@shape_cut_with_too_many_values_throws
           (Examples.helper_with_cut "zpoly: 6,(2,-1),1.75,0,{0.25,8.75},1")
           (mkRgeom "volDetEnclosure" None 200 200 10000 false None)
           "zpoly" " 6,(2,-1),1.75,0,{0.25,8.75},1").
  - vm_compute. discriminate.
  - vm_compute. discriminate.
  - vm_compute. reflexivity.
  - reflexivity.
  - vm_compute. reflexivity.
  - vm_compute. lia.
Defined.

(** X14.  A shape keyword that is none of zcyl, box, zpoly, sphere is
    reported as an error, and yet the analyzer adopts a selector: one with
    no shape at all, carrying the master and reverse flags read off the
    keyword. *)
Theorem unknown_shape_installs_a_shapeless_selector
        (h : GENIEHelper) (g : ROOTGeomAnalyzer) (stype valtext : string) :
  normalized_fidcut h <> "" -> normalized_fidcut h <> "none" ->
  contains (normalized_fidcut h) "rock" = false ->
  fGeomD (drivers h) = Some g ->
  Split (normalized_fidcut h) ":" = [stype; valtext] ->
  (List.length (parse_values valtext) <= 7)%nat ->
  contains stype "zcyl" = false -> contains stype "box" = false ->
  contains stype "zpoly" = false -> contains stype "sphere" = false ->
  exists h',
    InitializeFiducialSelection h = Ok (tt, h')
    /\ option_map rgSelector (fGeomD (drivers h'))
       = Some (Some (SelFiducial
                       (mkFid None true (contains stype "m")
                              (contains stype "0"))))
    /\ In (mkLog LogError
                 [LStr "Can not create GeomVolSelectorFiduction for shape ";
                  LStr stype])
          (wLog (world h'))
    /\ settings h' = settings h /\ names h' = names h.
Proof.
  intros Hne Hnn Hrock Hgeom Hsplit Hlen Hz Hb Hp Hs.
  rewrite (@shape_run h g stype valtext Hne Hnn Hrock Hgeom Hsplit).
  rewrite (@pad_values_fits 7 (parse_values valtext) Hlen)
    by (unfold vector_max_size; lia).
  unfold make_shape. rewrite Hz, Hb, Hp, Hs.
  destruct h as [s n d dt sp w]. destruct d as [gd fd fd2 drv rec].
  cbn in Hgeom. subst gd.
  unfold rgeom_AdoptGeomVolSelector, rgeom_update, call, log_if, log,
    modify, bind, ret, append_log, with_drivers, with_world, add_call,
    add_log.
  destruct (contains stype "m"), (contains stype "0");
    cbn; eexists; (split; [reflexivity |]);
    (split; [reflexivity |]);
    (split; [| split; reflexivity]);
    cbn; rewrite !in_app_iff; cbn; tauto.
Qed.

Lemma unknown_shape_installs_a_shapeless_selector_witness :
  exists h',
    InitializeFiducialSelection (Examples.helper_with_cut "cone: 1 2 3")
    = Ok (tt, h')
    /\ option_map rgSelector (fGeomD (drivers h'))
       = Some (Some (SelFiducial (mkFid None true false false))).
Proof.
  destruct (@unknown_shape_installs_a_shapeless_selector
              (Examples.helper_with_cut "cone: 1 2 3")
              (mkRgeom "volDetEnclosure" None 200 200 10000 false None)
              "cone" " 1 2 3")
    as [h' [Hrun [Hsel _]]].
  - vm_compute. discriminate.
  - vm_compute. discriminate.
  - vm_compute. reflexivity.
  - reflexivity.
  - vm_compute. reflexivity.
  - vm_compute. lia.
  - vm_compute. reflexivity.
  - vm_compute. reflexivity.
  - vm_compute. reflexivity.
  - vm_compute. reflexivity.
  - exists h'. split; [exact Hrun | exact Hsel].
Defined.

(** X15.  A cut other than the empty one and "none" that does not split
    at colons into exactly two pieces installs nothing, whether it names
    "rock" or not: with an analyzer in place the call returns, and all it
    leaves behind is log entries, a warning among them. *)
Theorem cut_without_one_colon_only_logs
        (h : GENIEHelper) (g : ROOTGeomAnalyzer) :
  normalized_fidcut h <> "" -> normalized_fidcut h <> "none" ->
  fGeomD (drivers h) = Some g ->
  List.length (Split (normalized_fidcut h) ":") <> 2%nat ->
  exists entries,
    InitializeFiducialSelection h = Ok (tt, append_log entries h)
    /\ existsb is_report entries = true.
Proof.
  intros Hne Hnn Hgeom Hsplit.
  assert (Hwarn : forall (first : LogEntry) (text : list LogArg)
                         (pieces : list string),
             bind (log LogWarning text) (fun _ => log_strtok 0 pieces)
                  (append_log [first] h)
             = Ok (tt, append_log
                         ([first] ++ [mkLog LogWarning text]
                          ++ strtok_entries 0 pieces) h)).
  { intros first text pieces. unfold bind.
    rewrite log_appends. cbv beta iota.
    rewrite log_strtok_appends, !append_log_app.
    rewrite <- ?app_assoc. reflexivity. }
  unfold InitializeFiducialSelection.
  cbv beta iota delta [bind gets].
  rewrite (proj2 (String.eqb_neq _ _)) by congruence.
  rewrite (proj2 (String.eqb_neq _ _)) by congruence.
  cbv beta iota delta [orb].
  destruct (contains (normalized_fidcut h) "rock");
    [unfold InitializeRockBoxSelection; cbv beta iota delta [bind gets] |];
    rewrite Hgeom; cbv beta iota; rewrite !log_appends;
    destruct (Split (normalized_fidcut h) ":") as [| a [| b [| c rest]]];
    try (exfalso; apply Hsplit; reflexivity);
    fold (bind (A := unit) (B := unit)); 
    eexists; (split; [apply Hwarn | reflexivity]).
Qed.

Lemma cut_without_one_colon_only_logs_witness :
  exists entries,
    InitializeFiducialSelection (Examples.helper_with_cut "box 0 0 0 1 1 1")
    = Ok (tt, append_log entries (Examples.helper_with_cut "box 0 0 0 1 1 1"))
    /\ existsb is_report entries = true.
Proof.
  apply (@cut_without_one_colon_only_logs
           (Examples.helper_with_cut "box 0 0 0 1 1 1")
           (mkRgeom "volDetEnclosure" None 200 200 10000 false None)).
  - vm_compute. discriminate.
  - vm_compute. discriminate.
  - reflexivity.
  - vm_compute. discriminate.
Defined.

End CutTheorems.

(** ** Trimming, and the geometry scan configuration *)

Section Trimming.
Import StdString.

Lemma append_empty_r (s : string) : (s ++ "")%string = s.
Proof. induction s as [| c s IH]; cbn; [reflexivity | now rewrite IH]. Qed.

Lemma find_first_not_of_cut (set : string) :
  forall s n,
    find_first_not_of s set = Some n ->
    s = (take n s ++ drop n s)%string
    /\ find_first_not_of (take n s) set = None
    /\ find_first_not_of (drop n s) set = Some O.
Proof.
  induction s as [| c rest IH]; intros n H; cbn in H; [discriminate |].
  destruct (mem c set) eqn:Hm.
  - destruct (find_first_not_of rest set) as [k |] eqn:Hk; cbn in H;
      [| discriminate].
    injection H as <-.
    destruct (IH k eq_refl) as (Hcut & Hlead & Hrest).
    cbn [take drop append]. repeat split.
    + now rewrite <- Hcut.
    + cbn. now rewrite Hm, Hlead.
    + exact Hrest.
  - injection H as <-. cbn [take drop append]. repeat split.
    cbn. now rewrite Hm.
Qed.

(** X16.  The trimming idiom at the head of the cut, mixer and scan
    parsers removes the leading run of blanks, tabs and newlines and
    nothing else: the text is that run followed by the result, and the
    result is empty or starts with another character.  Blanks further on,
    trailing ones included, stay. *)
Theorem trim_leading_removes_the_leading_run (s : string) :
  exists lead,
    s = (lead ++ trim_leading s)%string
    /\ find_first_not_of lead blanks = None
    /\ (trim_leading s = ""
        \/ find_first_not_of (trim_leading s) blanks = Some O).
Proof.
  unfold trim_leading.
  destruct (find_first_not_of s blanks) as [[| n] |] eqn:Hfind.
  - exists "". repeat split. now right.
  - destruct (find_first_not_of_cut _ _ Hfind) as (Hcut & Hlead & Hrest).
    exists (take (S n) s). cbn [erase_front]. repeat split.
    + exact Hcut.
    + exact Hlead.
    + now right.
  - exists s. cbn [erase_front]. repeat split.
    + now rewrite append_empty_r.
    + exact Hfind.
    + now left.
Qed.

End Trimming.

Section GeomScan.
Import StdString GenieUtils.
Variable sys : System.

(** X17.  The scan specification is searched for the word default before
    it is lower-cased, and the method is read off its first word after.
    So a specification that does not contain the lower-case word default
    and whose first word names none of file, box and flux never returns:
    with up to four numbers the assertion in the unknown-method branch
    fails, with more the padding loop has already run the vector out of
    memory.  "Default" in capitals is such a specification. *)
Theorem unknown_scan_method_is_fatal (h : GENIEHelper) (g : ROOTGeomAnalyzer) :
  fGeomD (drivers h) = Some g ->
  let scan := tolower (trim_leading (fGeomScan (names h))) in
  let scanmethod := hd "" (Split scan " ") in
  contains (trim_leading (fGeomScan (names h))) "default" = false ->
  contains scanmethod "file" = false ->
  contains scanmethod "box" = false ->
  contains scanmethod "flux" = false ->
  ConfigGeomScan sys h
  = Failed (if (List.length (scan_values (Split scan " ")) <=? 4)%nat
            then AssertFailed "0" else Throw "std::bad_alloc").
Proof.
  intros Hgeom scan scanmethod Hdef Hfile Hbox Hflux.
  unfold ConfigGeomScan.
  destruct h as [s n d dt sp w]. destruct n as [top wv mix scan0 info].
  subst scan scanmethod.
  cbn [names drivers fGeomD fGeomScan] in Hgeom, Hdef, Hfile, Hbox, Hflux |- *.
  cbv beta iota delta [bind gets modify].
  cbn [names with_names set_fGeomScan fGeomScan drivers].
  rewrite Hdef. cbv beta iota.
  cbn [names with_names set_fGeomScan fGeomScan drivers].
  rewrite Hgeom. cbv beta iota. rewrite Hfile. cbv beta iota.
  destruct (Nat.leb_spec
              (List.length
                 (scan_values (Split (tolower (trim_leading scan0)) " ")))
              4) as [Hle | Hgt].
  - rewrite (@pad_values_fits 4 _ Hle) by (unfold vector_max_size; lia).
    cbv beta iota. rewrite Hbox, Hflux. reflexivity.
  - now rewrite (@pad_values_overflows 4 _ Hgt).
Qed.


End GeomScan.

Lemma unknown_scan_method_is_fatal_witness :
  ConfigGeomScan Examples.sys0
    (with_names (set_fGeomScan "Default") (Examples.helper_with_cut "none"))
  = Failed (AssertFailed "0").
Proof.
  apply (@unknown_scan_method_is_fatal Examples.sys0
           (with_names (set_fGeomScan "Default")
                       (Examples.helper_with_cut "none"))
           (mkRgeom "volDetEnclosure" None 200 200 10000 false None)).
  - reflexivity.
  - vm_compute. reflexivity.
  - vm_compute. reflexivity.
  - vm_compute. reflexivity.
  - vm_compute. reflexivity.
Defined.


(** ** The flux drivers that [InitializeFluxDriver] builds *)

Section FluxDrivers.
Import StdString.

Lemma atmo_inner_all (pdg : Z) (files : list string) :
  forall n acc,
    atmo_inner pdg files n n acc
    = ((n + List.length files)%nat, (n + List.length files)%nat,
       (acc ++ map (pair pdg) files)%list).
Proof.
  induction files as [| file rest IH]; intros n acc; cbn [atmo_inner].
  - now rewrite !Nat.add_0_r, app_nil_r.
  - rewrite Nat.eqb_refl, IH. cbn [List.length map].
    rewrite <- app_assoc, Nat.add_succ_r. reflexivity.
Qed.

Lemma atmo_outer_all (files : list string) (flavors : list Z) :
  forall n acc,
    atmo_outer flavors files n n acc
    = (acc ++ flat_map (fun pdg => map (pair pdg) files) flavors)%list.
Proof.
  induction flavors as [| pdg rest IH]; intros n acc;
    cbn [atmo_outer flat_map].
  - now rewrite app_nil_r.
  - rewrite atmo_inner_all, IH, <- app_assoc. reflexivity.
Qed.

Lemma atmo_is_no_other_type (h : GENIEHelper) :
  is_atmo h = true ->
  is_type "ntuple" h = false /\ is_type "simple_flux" h = false
  /\ is_type "histogram" h = false /\ is_type "mono" h = false.
Proof.
  unfold is_atmo. intros H. apply orb_true_iff in H.
  destruct H as [H | H];
    repeat split;
    apply (fun t Hne => @is_type_exclusive h _ t Hne H); discriminate.
Qed.

(** X19.  For an atmospheric flux the two counters of the flux-file loop
    advance together, so the test between them never fails and the driver
    is told every pair of a flavor and a file: flavor by flavor, each with
    all the files in set order.  With as many files as flavors, as the
    constructor demands, the last file is the last one set for every
    flavor. *)
Theorem atmo_driver_gets_every_file_for_every_flavor (h : GENIEHelper) :
  is_atmo h = true ->
  let s := settings h in
  make_flux_driver h
  = Ok (Some (GAtmoFlux (if is_type "atmo_BARTOL" h then Bartol else Fluka3D)
                (fAtmoEmin s) (fAtmoEmax s)
                (flat_map (fun pdg => map (pair pdg) (fFluxFiles s))
                          (fGenFlavors s))
                (fAtmoRl s) (fAtmoRt s))).
Proof.
  intros Hatmo s.
  destruct (atmo_is_no_other_type h Hatmo) as (Hnt & Hsf & Hhi & Hmo).
  unfold make_flux_driver. rewrite Hnt, Hsf, Hhi, Hmo, Hatmo.
  fold s. now rewrite atmo_outer_all.
Qed.

Lemma atmo_driver_gets_every_file_for_every_flavor_witness :
  make_flux_driver
    (Examples.constructed Examples.sys0
       (Examples.pset_atmo [14%Z; 12%Z] ["fluxA"; "fluxB"] 1)
       (Examples.helper_with_cut "none"))
  = Ok (Some (GAtmoFlux Fluka3D 0.1 10.0
                [(12%Z, "/data/fluxA"); (12%Z, "/data/fluxB");
                 (14%Z, "/data/fluxA"); (14%Z, "/data/fluxB")]
                20.0 20.0)).
Proof.
  rewrite (@atmo_driver_gets_every_file_for_every_flavor
             (Examples.constructed Examples.sys0
                (Examples.pset_atmo [14%Z; 12%Z] ["fluxA"; "fluxB"] 1)
                (Examples.helper_with_cut "none"))).
  - vm_compute. reflexivity.
  - vm_compute. reflexivity.
Defined.

Lemma sum_constant (w : Q) (l : list Z) :
  (fold_right Qplus 0 (map snd (map (fun pdg => (pdg, w)) l))
   == inject_Z (Z.of_nat (List.length l)) * w)%Q.
Proof.
  induction l as [| x rest IH].
  - cbn. ring.
  - cbn [map fold_right snd List.length]. rewrite IH.
    rewrite Nat2Z.inj_succ. unfold Z.succ. rewrite inject_Z_plus.
    ring.
Qed.

(** X20.  For a mono-energetic flux with at least one flavor, the driver
    gets the configured energy, direction and origin and one weight per
    flavor of the set, all equal, adding up to one. *)
Theorem mono_driver_weights_add_up_to_one (h : GENIEHelper) :
  is_type "mono" h = true ->
  fGenFlavors (settings h) <> [] ->
  exists pdgw,
    make_flux_driver h
    = Ok (Some (GMonoEnergeticFlux (fMonoEnergy (settings h)) pdgw
                  (fBeamDirection (settings h)) (fBeamCenter (settings h))))
    /\ map fst pdgw = fGenFlavors (settings h)
    /\ (forall w, In w (map snd pdgw) ->
                  w == 1 / inject_Z (Z.of_nat (List.length pdgw)))%Q
    /\ (fold_right Qplus 0 (map snd pdgw) == 1)%Q.
Proof.
  intros Hmono Hne.
  unfold make_flux_driver.
  rewrite (@is_type_exclusive h "mono" "ntuple"),
    (@is_type_exclusive h "mono" "simple_flux"),
    (@is_type_exclusive h "mono" "histogram"), Hmono
    by (discriminate || assumption).
  eexists. split; [reflexivity |].
  split; [| split].
  - rewrite map_map. cbn. now rewrite map_id.
  - intros w Hin. rewrite map_map in Hin. cbn in Hin.
    apply in_map_iff in Hin as (x & <- & _).
    now rewrite length_map.
  - rewrite sum_constant. field.
    intros Hzero.
    assert (Hz : Z.of_nat (List.length (fGenFlavors (settings h))) = 0%Z).
    { unfold Qeq in Hzero. cbn in Hzero. lia. }
    destruct (fGenFlavors (settings h)); [now apply Hne | discriminate].
Qed.

Lemma mono_driver_weights_add_up_to_one_witness :
  exists pdgw,
    make_flux_driver
      (Examples.constructed Examples.sys0 Examples.pset_mono
         (Examples.helper_with_cut "none"))
    = Ok (Some (GMonoEnergeticFlux 2.0 pdgw (0, 0, 1)%Q (0, 0, 0)%Q))
    /\ (fold_right Qplus 0 (map snd pdgw) == 1)%Q.
Proof.
  destruct (@mono_driver_weights_add_up_to_one
              (Examples.constructed Examples.sys0 Examples.pset_mono
         (Examples.helper_with_cut "none")))
    as (pdgw & Hrun & _ & _ & Hsum).
  - vm_compute. reflexivity.
  - vm_compute. discriminate.
  - exists pdgw. split; [| exact Hsum].
    rewrite Hrun. vm_compute. reflexivity.
Defined.

End FluxDrivers.

Section FlavorMixing.
Import StdString.
Variable sys : System.

(** The warnings [log_known_mixers] writes. *)
Lemma log_known_mixers_appends (known : list string) :
  forall j h,
    exists entries,
      log_known_mixers j known h = Ok (tt, append_log entries h).
Proof.
  induction known as [| name rest IH]; intros j h; cbn [log_known_mixers].
  - exists []. unfold ret. now rewrite append_log_nil.
  - unfold bind. rewrite log_appends. cbv beta iota.
    destruct (IH (S j) (append_log
                          [mkLog LogWarning
                                 [LStr "   ["; LInt (Z.of_nat j);
                                  LStr "]  "; LStr name]] h))
      as (entries & ->).
    eexists. now rewrite append_log_app.
Qed.

(** X21.  Whenever a flux driver can be built (or none is, for an unknown
    flux type), [InitializeFluxDriver] returns and keeps it as the real
    flux driver, and what it hands to the event driver depends only on
    the first word of the mixer configuration after its leading blanks:
    the bare flux driver when that word is exactly "none", and in every
    other case, an empty configuration and an unknown word included, a
    flux blender with the configured baseline, with or without a mixer.
    The settings are not touched. *)
Theorem flavor_mixing_wraps_the_flux_driver
        (h : GENIEHelper) (fd : option GFluxI) :
  make_flux_driver h = Ok fd ->
  let config := trim_leading (fMixerConfig (names h)) in
  let keyword := match find_first_of config blanks with
                 | Some k => take k config
                 | None => config
                 end in
  exists h',
    InitializeFluxDriver sys h = Ok (tt, h')
    /\ fFluxD (drivers h') = fd
    /\ settings h' = settings h
    /\ fFluxD2GMCJD (drivers h')
       = (if String.eqb keyword "none"
          then option_map (fun _ => BareFlux) fd
          else Some (GFluxBlender (fMixerBaseline (settings h))
                                  (fst (make_mixer sys keyword config))))
    /\ fMixerConfig (names h')
       = (if String.eqb keyword "none" then config
          else snd (make_mixer sys keyword config)).
Proof.
  intros Hmake config keyword.
  unfold InitializeFluxDriver.
  cbv beta iota delta [bind gets]. rewrite Hmake.
  destruct h as [s n d dt sp w]. destruct n as [top wv mix scan info].
  destruct d as [gd fd0 fd2 drv rec].
  subst keyword config.
  cbn [names fMixerConfig settings] in *.
  set (config := trim_leading mix).
  set (keyword := match find_first_of config blanks with
                  | Some k => take k config
                  | None => config
                  end).
  cbv beta iota delta [modify].
  cbn [names with_names with_drivers set_fMixerConfig fMixerConfig drivers
       settings set_fFluxD set_fFluxD2GMCJD].
  fold config. fold keyword.
  destruct (String.eqb keyword "none").
  { eexists. split; [reflexivity |]. cbn. repeat split. }
  destruct (make_mixer sys keyword config) as [mixer config'].
  cbv beta iota.
  cbn [names with_names with_drivers set_fMixerConfig fMixerConfig drivers
       settings set_fFluxD set_fFluxD2GMCJD fst snd].
  destruct mixer as [mixer |].
  { eexists. split; [reflexivity |]. cbn. repeat split. }
  destruct (FLAVORMIXERFACTORY sys).
  - rewrite log_appends. cbv beta iota.
    match goal with
    | |- context [log_known_mixers ?j ?known ?x] =>
        destruct (log_known_mixers_appends known j x) as (entries & ->)
    end.
    cbv beta iota. rewrite log_appends. cbv beta iota.
    eexists. split; [reflexivity |]. cbn. repeat split.
  - unfold ret. cbv beta iota. rewrite log_appends. cbv beta iota.
    eexists. split; [reflexivity |]. cbn. repeat split.
Qed.

End FlavorMixing.

Lemma flavor_mixing_wraps_the_flux_driver_witness :
  exists h',
    InitializeFluxDriver Examples.sys0
      (with_names (set_fMixerConfig " None")
         (Examples.constructed Examples.sys0 Examples.pset_mono
            (Examples.helper_with_cut "none")))
    = Ok (tt, h')
    /\ fFluxD2GMCJD (drivers h') = Some (GFluxBlender 0 None).
Proof.
  destruct (@flavor_mixing_wraps_the_flux_driver Examples.sys0
              (with_names (set_fMixerConfig " None")
                 (Examples.constructed Examples.sys0 Examples.pset_mono
                    (Examples.helper_with_cut "none")))
              (Some (GMonoEnergeticFlux 2.0 [(14%Z, 1 / 1)%Q]
                                        (0, 0, 1)%Q (0, 0, 0)%Q)))
    as (h' & Hrun & _ & _ & Hwrap & _).
  - vm_compute. reflexivity.
  - exists h'. split; [exact Hrun |].
    rewrite Hwrap. vm_compute. reflexivity.
Defined.

Section HistogramSpectra.
Variable sys : System.

Lemma histogram_names_known (pdg : Z) :
  known_flavor pdg = true ->
  histogram_names pdg = [spectrum_name pdg].
Proof.
  unfold known_flavor, histogram_names, spectrum_name. intros H.
  cbn [existsb] in H.
  destruct (Z.eqb_spec pdg 12) as [E | H1]; [now rewrite E |].
  destruct (Z.eqb_spec pdg (-12)) as [E | H2]; [now rewrite E |].
  destruct (Z.eqb_spec pdg 14) as [E | H3]; [now rewrite E |].
  destruct (Z.eqb_spec pdg (-14)) as [E | H4]; [now rewrite E |].
  destruct (Z.eqb_spec pdg 16) as [E | H5]; [now rewrite E |].
  destruct (Z.eqb_spec pdg (-16)) as [E | H6]; [reflexivity |].
  rewrite ?(proj2 (Z.eqb_neq _ _) H1), ?(proj2 (Z.eqb_neq _ _) H2),
    ?(proj2 (Z.eqb_neq _ _) H3), ?(proj2 (Z.eqb_neq _ _) H4),
    ?(proj2 (Z.eqb_neq _ _) H5), ?(proj2 (Z.eqb_neq _ _) H6) in H.
  cbn in H. discriminate H.
Qed.

Lemma energy_spectra_aligned (file : string) (flavors : list Z) :
  forallb known_flavor flavors = true ->
  forall (before : list (option TH1D)) (loaded : list TH1D),
    load_histograms sys file flavors = map Some loaded ->
    energy_spectra flavors (List.length before)
                   (before ++ load_histograms sys file flavors)
    = Ok (combine flavors loaded).
Proof.
  induction flavors as [| pdg rest IH]; intros Hknown before loaded Hload.
  - reflexivity.
  - cbn [forallb] in Hknown. apply andb_true_iff in Hknown as [Hk Hrest].
    unfold load_histograms in *. cbn [flat_map] in *.
    rewrite (histogram_names_known _ Hk) in *. cbn [map app] in *.
    destruct loaded as [| hist loaded]; [discriminate |].
    cbn [map] in Hload. injection Hload as Hhist Hload.
    cbn [energy_spectra].
    rewrite nth_error_app2 by lia. rewrite Nat.sub_diag. cbn [nth_error].
    rewrite Hhist.
    specialize (IH Hrest (before ++ [Some hist])%list loaded Hload).
    rewrite length_app in IH. cbn [List.length] in IH.
    rewrite Nat.add_1_r in IH. rewrite <- app_assoc in IH. cbn [app] in IH.
    rewrite IH. reflexivity.
Qed.

End HistogramSpectra.

(** ** More of the constructor *)

Section ConstructorFacts.
Variable sys : System.

Lemma construct_members (pset : ParameterSet) (h : GENIEHelper) :
  construct sys pset = Ok h ->
  fGenFlavors (settings h)
  = fold_left (fun s x => StdSet.insert_int x s) (pGenFlavors pset) []
  /\ resolved_flux_files sys pset = Ok (fFluxFiles (settings h))
  /\ xyz_of (pBeamCenter pset) = Ok (fBeamCenter (settings h))
  /\ xyz_of (pBeamDirection pset) = Ok (fBeamDirection (settings h))
  /\ fBeamRadius (settings h) = or_default (pBeamRadius pset) 3.0%Q.
Proof.
  unfold construct, rbind.
  destruct (xyz_of (pBeamCenter pset)) as [center |]; [| discriminate].
  destruct (xyz_of (pBeamDirection pset)) as [direction |]; [| discriminate].
  destruct (resolved_flux_files sys pset) as [files |]; [| discriminate].
  destruct (setup_environment sys pset) as [env |]; [| discriminate].
  destruct (check_atmo _ _ _ _) as [[] |] eqn:Hatmo; [| discriminate].
  destruct (make_histograms _ _ _ _) as [[hists total] |] eqn:Hhist;
    [| discriminate].
  intros H. inversion H; subst; clear H. cbn. repeat split.
Qed.

(** X22.  The histogram driver relies on the histograms having been
    loaded in the order of the flavor set.  When the constructor succeeds
    for a histogram flux and every flavor is one of 12, -12, 14, -14, 16,
    -16, that holds: there is one histogram per flavor, each the one the
    first flux file holds under the flavor's name, and the driver gets
    every flavor with its own histogram, with the configured direction,
    beam spot and radius. *)
Theorem histogram_driver_pairs_flavors_with_their_spectra
        (pset : ParameterSet) (h : GENIEHelper) :
  pFluxType pset = "histogram" ->
  construct sys pset = Ok h ->
  forallb known_flavor (fGenFlavors (settings h)) = true ->
  exists file loaded,
    hd_error (fFluxFiles (settings h)) = Some file
    /\ fFluxHistograms (settings h) = map Some loaded
    /\ map Some loaded
       = map (fun pdg => sys_TFile_Get sys file (spectrum_name pdg))
             (fGenFlavors (settings h))
    /\ make_flux_driver h
       = Ok (Some (GCylindTH1Flux
                     (combine (fGenFlavors (settings h)) loaded)
                     (fBeamDirection (settings h)) (fBeamCenter (settings h))
                     (fBeamRadius (settings h)))).
Proof.
  intros Htype Hctor Hknown.
  destruct (construct_inv _ _ Hctor) as (Hft & _ & _ & files & Hfiles & _ & Hhist).
  destruct (construct_members _ Hctor) as (Hfl & Hfiles' & _).
  rewrite Hfiles in Hfiles'. injection Hfiles' as ->.
  rewrite <- Hfl in Hhist.
  unfold make_histograms in Hhist. rewrite Htype in Hhist. cbn in Hhist.
  destruct (fFluxFiles (settings h)) as [| file rest] eqn:Hff;
    [discriminate |].
  unfold rbind in Hhist.
  destruct (add_integrals _ _) as [total |] eqn:Hadd; [| discriminate].
  injection Hhist as Hh Ht.
  destruct (add_integrals_sum _ _ Hadd) as (loaded & Hl & _).
  exists file, loaded.
  split; [reflexivity |].
  split; [now rewrite <- Hh |].
  split.
  { rewrite <- Hl. unfold load_histograms.
    clear - Hknown.
    induction (fGenFlavors (settings h)) as [| pdg more IH];
      [reflexivity |].
    cbn [forallb] in Hknown. apply andb_true_iff in Hknown as [Hk Hmore].
    cbn [flat_map map]. rewrite (histogram_names_known _ Hk).
    cbn [map app]. now rewrite (IH Hmore). }
  unfold make_flux_driver.
  assert (Hhi : is_type "histogram" h = true).
  { unfold is_type, FluxType. rewrite Hft, Htype. reflexivity. }
  rewrite (@is_type_exclusive h "histogram" "ntuple"),
    (@is_type_exclusive h "histogram" "simple_flux"), Hhi
    by (discriminate || assumption).
  rewrite <- Hh.
  pose proof (@energy_spectra_aligned sys file _ Hknown [] loaded Hl) as Hes.
  cbn [List.length app] in Hes. unfold rbind. rewrite Hes.
  reflexivity.
Qed.

End ConstructorFacts.

Lemma histogram_driver_pairs_flavors_with_their_spectra_witness :
  exists loaded,
    map Some loaded = [Some (mkTH1D "numu" 5)]
    /\ make_flux_driver
         (Examples.constructed Examples.sys0 (Examples.pset_histogram 5e13)
            (Examples.helper_with_cut "none"))
       = Ok (Some (GCylindTH1Flux (combine [14%Z] loaded)
                     (0, 0, 1)%Q (0, 0, 0)%Q 3.0)).
Proof.
  destruct (@histogram_driver_pairs_flavors_with_their_spectra Examples.sys0
              (Examples.pset_histogram 5e13)
              (Examples.constructed Examples.sys0
                 (Examples.pset_histogram 5e13)
                 (Examples.helper_with_cut "none")))
    as (file & loaded & _ & Hhists & _ & Hrun).
  - reflexivity.
  - vm_compute. reflexivity.
  - vm_compute. reflexivity.
  - exists loaded. split.
    + rewrite <- Hhists. vm_compute. reflexivity.
    + rewrite Hrun. vm_compute. reflexivity.
Defined.

(** ** Flux files: the search for the fullest path, and the file loop *)

Section FluxPath.
Import StdString.
Variable sys : System.

Lemma map_add_counted (key : string) (n : nat) (m : list (string * nat)) :
  (0 < n)%nat -> counted m -> counted (StdSet.map_add key n m).
Proof.
  intros Hn. unfold counted.
  induction m as [| [k v] rest IH]; intros Hm; cbn [StdSet.map_add].
  - constructor; [exact Hn | constructor].
  - inversion Hm as [| e l Hv Hrest]; subst. cbn [snd] in Hv.
    destruct (String.ltb key k).
    + constructor; [exact Hn | exact Hm].
    + destruct (String.eqb key k).
      * constructor; [cbn; lia | exact Hrest].
      * constructor; [exact Hv | exact (IH Hrest)].
Qed.

Lemma count_alternatives_counted (userpattern : string) (dirs : list string) :
  counted (count_alternatives sys userpattern dirs).
Proof.
  unfold count_alternatives.
  assert (Hgen : forall m, counted m ->
            counted (fold_left
                       (fun path2n dir =>
                          match alternative sys userpattern dir with
                          | (filepatt, Some (S k)) =>
                              StdSet.map_add filepatt (S k) path2n
                          | _ => path2n
                          end) dirs m)).
  { induction dirs as [| dir rest IH]; intros m Hm; cbn [fold_left].
    - exact Hm.
    - apply IH.
      destruct (alternative sys userpattern dir) as [filepatt [[| k] |]];
        try exact Hm.
      apply map_add_counted; [lia | exact Hm]. }
  apply Hgen. constructor.
Qed.

Lemma path_with_most_from (path2n : list (string * nat)) :
  forall best0,
    let best :=
      fold_left (fun best entry =>
                   if (snd best <? snd entry)%nat then entry else best)
                path2n best0 in
    (snd best0 <= snd best)%nat
    /\ (forall e, In e path2n -> (snd e <= snd best)%nat)
    /\ (best = best0 \/ In best path2n).
Proof.
  induction path2n as [| entry rest IH]; intros best0; cbn [fold_left].
  - repeat split; [lia | intros e [] | now left].
  - destruct (IH (if (snd best0 <? snd entry)%nat then entry else best0))
      as (Hge & Hall & Hin).
    destruct (Nat.ltb_spec (snd best0) (snd entry)) as [Hlt | Hle].
    + repeat split.
      * lia.
      * intros e [<- | He]; [exact Hge | exact (Hall e He)].
      * destruct Hin as [-> | Hin]; right; [now left | now right].
    + repeat split.
      * exact Hge.
      * intros e [<- | He]; [lia | exact (Hall e He)].
      * destruct Hin as [-> | Hin]; [now left | right; now right].
Qed.

Lemma total_of_counted (m : list (string * nat)) :
  forall a, (a <= fold_left (fun acc e => (acc + snd e)%nat) m a)%nat
            /\ (m <> [] -> counted m ->
                (a < fold_left (fun acc e => (acc + snd e)%nat) m a)%nat).
Proof.
  induction m as [| e rest IH]; intros a; cbn [fold_left].
  - split; [lia | intros H; now elim H].
  - destruct (IH (a + snd e)%nat) as (Hge & _). split; [lia |].
    intros _ Hm. inversion Hm; subst. lia.
Qed.

(** X23.  [FindFluxPath] counts, for every directory of the search path,
    the entries that match the pattern there, and settles on an
    alternative no other one beats: when some alternative has a match,
    the path it returns is one of them and none has more matches; when
    none has, it returns the empty path.  For the ntuple and simple_flux
    types the empty path is not accepted: the assertion fails exactly
    when the path chosen is empty, and in particular when nothing
    matches; for every other type the function always returns. *)
Theorem FindFluxPath_takes_a_fullest_alternative
        (fluxType userpattern : string) :
  let dirs0 :=
    sys_split_path sys (or_default (sys_getenv sys "FW_SEARCH_PATH") "") in
  let dirs := match dirs0 with [] => [""] | _ => dirs0 end in
  let path2n := count_alternatives sys userpattern dirs in
  let strict :=
    String.eqb fluxType "ntuple" || String.eqb fluxType "simple_flux" in
  exists path,
    (path2n = [] /\ path = ""
     \/ exists n, In (path, n) path2n /\ (0 < n)%nat
                  /\ forall e, In e path2n -> (snd e <= n)%nat)
    /\ FindFluxPath sys fluxType userpattern
       = (if strict && String.eqb path ""
          then Failed (AssertFailed "pathmax != && nftot > 0")
          else Ok path).
Proof.
  intros dirs0 dirs path2n strict.
  unfold FindFluxPath. fold dirs0. fold dirs. fold path2n. fold strict.
  unfold path_with_most.
  pose proof (count_alternatives_counted userpattern dirs) as Hpos.
  fold path2n in Hpos.
  destruct (path_with_most_from path2n ("", O)) as (_ & Hall & Hin).
  cbv zeta in Hall, Hin.
  set (best := fold_left _ path2n ("", O)) in *.
  exists (fst best). split.
  - destruct path2n as [| e rest] eqn:Hp.
    + left. split; [reflexivity |]. reflexivity.
    + right. exists (snd best).
      assert (Hbest : In best (e :: rest)).
      { destruct Hin as [Heq | Hin]; [| exact Hin].
        exfalso. inversion Hpos as [| x l He _]; subst.
        specialize (Hall e (or_introl eq_refl)).
        rewrite Heq in Hall. cbn in Hall. lia. }
      repeat split.
      * now rewrite <- surjective_pairing.
      * unfold counted in Hpos. rewrite Forall_forall in Hpos.
        exact (Hpos best Hbest).
      * exact Hall.
  - destruct strict; [| reflexivity]. cbn [andb].
    destruct (String.eqb (fst best) "") eqn:Hempty; [reflexivity |].
    cbn [orb].
    destruct path2n as [| e rest] eqn:Hp.
    + exfalso. cbn in best. subst best. cbn in Hempty. discriminate.
    + destruct (total_of_counted (e :: rest) O) as (_ & Htot).
      specialize (Htot ltac:(discriminate) Hpos).
      destruct (Nat.eqb_spec
                  (fold_left (fun acc e0 => (acc + snd e0)%nat) (e :: rest) O)
                  O) as [Hz | _]; [lia | reflexivity].
Qed.

Lemma insert_string_in (x y : string) (s : list string) :
  In x (StdSet.insert_string y s) -> x = y \/ In x s.
Proof.
  induction s as [| z rest IH]; cbn [StdSet.insert_string].
  - intros [<- | []]. now left.
  - destruct (String.ltb y z).
    + intros [<- | Hin]; [now left | now right].
    + destruct (String.eqb y z).
      * intros Hin. now right.
      * intros [<- | Hin]; [right; now left |].
        destruct (IH Hin) as [-> | Hin']; [now left | right; now right].
Qed.

(** X24.  The file loop of the constructor keeps the name of the last
    file the search path found.  The branch that accepts an absolute path
    as it stands is taken only while that name is empty, so once a file
    has been found every file of the result is one the search path
    returned: a later absolute path the search does not find is not
    added. *)
Theorem found_file_shadows_later_absolute_paths
        (files : list string) :
  forall (fileName : string) (acc : list string),
    fileName <> "" ->
    (forall f p, In f files ->
                 sys_find_file sys "FW_SEARCH_PATH" f = Some p -> p <> "") ->
    forall x,
      In x (resolve_files sys files fileName acc) ->
      In x acc \/ x = fileName
      \/ exists f, In f files
                   /\ sys_find_file sys "FW_SEARCH_PATH" f = Some x.
Proof.
  induction files as [| f rest IH]; intros fileName acc Hne Hfound x Hin;
    cbn [resolve_files] in Hin.
  - now left.
  - assert (Hrest : forall f0 p, In f0 rest ->
              sys_find_file sys "FW_SEARCH_PATH" f0 = Some p -> p <> "").
    { intros f0 p Hf0. apply Hfound. now right. }
    destruct (sys_find_file sys "FW_SEARCH_PATH" f) as [p |] eqn:Hp;
      cbn [or_default] in Hin.
    + assert (Hpne : p <> "") by (apply (Hfound f p); [now left | exact Hp]).
      rewrite (proj2 (String.eqb_neq _ _) Hpne) in Hin. cbn [negb] in Hin.
      destruct (IH p _ Hpne Hrest x Hin) as [Hacc | [-> | (f0 & Hf0 & Hx)]].
      * destruct (insert_string_in _ _ _ Hacc) as [-> | Hacc'].
        -- right. right. exists f. split; [now left | exact Hp].
        -- now left.
      * right. right. exists f. split; [now left | exact Hp].
      * right. right. exists f0. split; [now right | exact Hx].
    + rewrite (proj2 (String.eqb_neq _ _) Hne) in Hin. cbn [negb] in Hin.
      destruct (IH fileName _ Hne Hrest x Hin)
        as [Hacc | [-> | (f0 & Hf0 & Hx)]].
      * destruct (insert_string_in _ _ _ Hacc) as [-> | Hacc'].
        -- right. now left.
        -- now left.
      * right. now left.
      * right. right. exists f0. split; [now right | exact Hx].
Qed.

End FluxPath.

Lemma found_file_shadows_later_absolute_paths_witness :
  resolve_files Examples.sys0 ["/abs/other.root"] "/data/flux.root"
                ["/data/flux.root"] = ["/data/flux.root"]
  /\ (In "/data/flux.root" ["/data/flux.root"]
      \/ "/data/flux.root" = "/data/flux.root"
      \/ exists f, In f ["/abs/other.root"]
                   /\ sys_find_file Examples.sys0 "FW_SEARCH_PATH" f
                      = Some "/data/flux.root").
Proof.
  split; [vm_compute; reflexivity |].
  apply (@found_file_shadows_later_absolute_paths Examples.sys0
           ["/abs/other.root"] "/data/flux.root" ["/data/flux.root"]).
  - discriminate.
  - intros f p [<- | []]. vm_compute. discriminate.
  - vm_compute. left. reflexivity.
Defined.

(** ** What initialization measures *)

Section LateFrames.
Variable I : GENIEHelper -> Prop.
Hypothesis HI : framed_late I.
Variable sys : System.

Lemma InitializeFluxDriver_late : preserves I (InitializeFluxDriver sys).
Proof. destruct HI; unfold InitializeFluxDriver; frame. Qed.

Lemma SetMaxPathOutInfo_late : preserves I (SetMaxPathOutInfo sys).
Proof. destruct HI; unfold SetMaxPathOutInfo; frame. Qed.

Lemma ConfigGeomScan_late : preserves I (ConfigGeomScan sys).
Proof.
  unfold ConfigGeomScan.
  repeat first
    [ apply SetMaxPathOutInfo_late
    | match goal with
      | |- preserves _ (bind _ _) => apply preserves_bind; [| intros ?]
      | |- preserves _ (if ?b then _ else _) => destruct b
      | |- preserves _ (match ?x with _ => _ end) => destruct x
      | |- preserves _ (let _ := _ in _) => cbv zeta
      end
    | solve [destruct HI; frame] ].
Qed.

End LateFrames.

Section GeometryMeasured.
Variable sys : System.

Lemma InitializeFiducialSelection_world (w : string) :
  preserves (world_volume_is w) InitializeFiducialSelection.
Proof.
  unfold InitializeFiducialSelection, InitializeRockBoxSelection.
  apply preserves_bind; [apply preserves_gets | intros fidcut].
  destruct (_ || _); [apply preserves_ret |].
  destruct (StdString.contains _ _).
  { frame. }
  apply preserves_bind; [apply preserves_gets | intros [g |]].
  2: { apply preserves_log. auto with frame. }
  apply preserves_bind; [apply preserves_log; auto with frame | intros _].
  destruct (GenieUtils.Split fidcut ":") as [| stype [| valtext [| x rest]]].
  1, 2, 4: frame.
  destruct (pad_values _ _) as [vals | f]; [| apply preserves_die].
  unfold make_shape. frame.
Qed.

Lemma InitializeFiducialSelection_detector (d : Detector) :
  preserves (detector_is d) InitializeFiducialSelection.
Proof.
  unfold InitializeFiducialSelection, InitializeRockBoxSelection.
  apply preserves_bind; [apply preserves_gets | intros fidcut].
  destruct (_ || _); [apply preserves_ret |].
  destruct (StdString.contains _ _).
  { frame. }
  apply preserves_bind; [apply preserves_gets | intros [g |]].
  2: { apply preserves_log. auto with frame. }
  apply preserves_bind; [apply preserves_log; auto with frame | intros _].
  destruct (GenieUtils.Split fidcut ":") as [| stype [| valtext [| x rest]]].
  1, 2, 4: frame.
  destruct (pad_values _ _) as [vals | f]; [| apply preserves_die].
  unfold make_shape. frame.
Qed.

(** What [InitializeGeometry] leaves behind when it returns. *)
Lemma InitializeGeometry_measures (h h' : GENIEHelper) (u : unit) :
  InitializeGeometry sys h = Ok (u, h') ->
  fWorldVolume (names h') = geo_TopVolumeName sys
  /\ fDetLength (detector h') = geo_DetLength sys
  /\ fDetectorMass (detector h')
     = geo_TotalMass sys (fTopVolume (names h'))
  /\ fXSecMassPOT (detector h') = fXSecMassPOT (detector h).
Proof.
  unfold InitializeGeometry. cbv zeta. intros Hrun.
  bind_inversion Hrun. apply modify_inv in Hrun0. subst h0.
  bind_inversion Hrun1. apply gets_inv in Hrun as [-> ->].
  bind_inversion Hrun0. apply modify_inv in Hrun. subst h0.
  bind_inversion Hrun1. rename h0 into h3, Hrun into Htop.
  bind_inversion Hrun0. rename h0 into h4, Hrun into Hcut.
  bind_inversion Hrun1. apply modify_inv in Hrun. subst h0.
  bind_inversion Hrun0. apply gets_inv in Hrun as [-> ->].
  apply modify_inv in Hrun1. subst h'.
  set (h2 := with_drivers _ (with_names _ h)) in *.
  assert (Hw3 : world_volume_is (geo_TopVolumeName sys) h3).
  { revert Htop.
    match goal with
    | |- ?m ?x = Ok (?a, ?y) -> _ =>
        assert (Hp : preserves (world_volume_is (geo_TopVolumeName sys)) m)
          by frame;
        intros Hrest; apply (Hp x a y); [| exact Hrest]
    end.
    destruct h as [? ? [? ? ? ? ?] ? ? ?]. reflexivity. }
  assert (Hd3 : detector_is (detector h) h3).
  { revert Htop.
    match goal with
    | |- ?m ?x = Ok (?a, ?y) -> _ =>
        assert (Hp : preserves (detector_is (detector h)) m) by frame;
        intros Hrest; apply (Hp x a y); [| exact Hrest]
    end.
    destruct h as [? ? [? ? ? ? ?] ? ? ?]. reflexivity. }
  pose proof (@InitializeFiducialSelection_world _ h3 _ h4 Hw3 Hcut) as Hw4.
  pose proof (@InitializeFiducialSelection_detector _ h3 _ h4 Hd3 Hcut) as Hd4.
  unfold world_volume_is, detector_is in Hw4, Hd4.
  destruct h4 as [s4 n4 d4 dt4 sp4 w4]. cbn in *.
  subst dt4. repeat split. exact Hw4.
Qed.

End GeometryMeasured.

Section InitializeMeasures.
Variable sys : System.

(** X26.  When [Initialize] returns, the helper knows the geometry it
    will sample: the world volume is the geometry's top volume, the
    detector length is the geometry's, and the detector mass is the mass
    of the volume that is the helper's top volume at the end, which a rock
    cut has replaced by the world volume.  For a histogram flux with fewer
    than 0.01 events per spill configured, the events of the first spill
    are a Poisson draw whose mean is 1e-58 times the POT per spill times
    that mass plus the surrounding mass, in nucleon masses, times the
    total histogram flux; otherwise the cross-section product keeps the
    value it had. *)
Theorem initialize_measures_the_top_volume
        (h0 h1 : GENIEHelper) (u : unit) :
  Initialize sys h0 = Ok (u, h1) ->
  let mass := geo_TotalMass sys (fTopVolume (names h1)) in
  let xsecmasspot :=
    (1.0e-38 * 1.0e-20
     * (fPOTPerSpill (settings h0)
        * (mass + fSurroundingMass (settings h0)) / nucleon_mass_kg))%Q in
  fWorldVolume (names h1) = geo_TopVolumeName sys
  /\ fDetLength (detector h1) = geo_DetLength sys
  /\ fDetectorMass (detector h1) = mass
  /\ (if is_type "histogram" h0
         && Qlt_bool (fEventsPerSpill (settings h0)) 0.01
      then fXSecMassPOT (detector h1) = xsecmasspot
           /\ HistEventsPerSpill h1
              = inject_Z (sys_Poisson sys
                            (xsecmasspot * fTotalHistFlux (settings h0)))
      else fXSecMassPOT (detector h1) = fXSecMassPOT (detector h0)).
Proof.
  unfold Initialize. intros Hrun. cbv zeta.
  bind_inversion Hrun. apply modify_inv in Hrun0. subst h.
  bind_inversion Hrun1. rename h into hb, Hrun into Hgeom.
  bind_inversion Hrun0. rename h into hc, Hrun into Hflux.
  bind_inversion Hrun1. rename h into hd, Hrun into Hscan.
  bind_inversion Hrun0. apply gets_inv in Hrun as [-> ->].
  bind_inversion Hrun1. rename h into he, Hrun into Hhist.
  bind_inversion Hrun0. apply modify_inv in Hrun. subst h.
  bind_inversion Hrun1. apply modify_inv in Hrun. subst h.
  apply modify_inv in Hrun0. subst h1.
  set (ha := with_drivers (set_fDriver (Some (mkDriver None))) h0) in *.
  destruct (@InitializeGeometry_measures sys ha hb _ Hgeom)
    as (Hworld & Hlen & Hmass & Hxsec).
  (* settings *)
  assert (Hsb : settings hb = settings h0).
  { apply (@InitializeGeometry_frame _ (framed_settings (settings h0)) sys
             ha _ hb eq_refl Hgeom). }
  assert (Hsc : settings hc = settings h0).
  { apply (@InitializeFluxDriver_settings sys (settings h0) hb _ hc Hsb Hflux). }
  assert (Hsd : settings hd = settings h0).
  { apply (@ConfigGeomScan_frame _ (framed_settings (settings h0)) sys
             hc _ hd Hsc Hscan). }
  (* names and detector *)
  assert (Hwd : fWorldVolume (names hd) = geo_TopVolumeName sys).
  { eapply (@ConfigGeomScan_late _ (framed_world_volume _) sys hc _ hd);
      [| exact Hscan].
    eapply (@InitializeFluxDriver_late _ (framed_world_volume _) sys hb _ hc);
      [exact Hworld | exact Hflux]. }
  assert (Htd : fTopVolume (names hd) = fTopVolume (names hb)).
  { eapply (@ConfigGeomScan_late _ (framed_top_volume _) sys hc _ hd);
      [| exact Hscan].
    eapply (@InitializeFluxDriver_late _ (framed_top_volume _) sys hb _ hc);
      [reflexivity | exact Hflux]. }
  assert (Hdd : detector hd = detector hb).
  { eapply (@ConfigGeomScan_late _ (framed_late_detector _) sys hc _ hd);
      [| exact Hscan].
    eapply (@InitializeFluxDriver_late _ (framed_late_detector _) sys hb _ hc);
      [reflexivity | exact Hflux]. }
  rewrite <- (@is_type_settings h0 hd "histogram" Hsd).
  rewrite <- Hsd.
  destruct (is_type "histogram" hd
            && Qlt_bool (fEventsPerSpill (settings hd)) 0.01).
  - unfold bind, modify, log in Hhist. injection Hhist as _ <-.
    unfold HistEventsPerSpill.
    cbn [with_spill with_world with_detector names detector spill settings
         fWorldVolume fDetLength fDetectorMass fXSecMassPOT
         fHistEventsPerSpill set_fXSecMassPOT set_fHistEventsPerSpill
         set_fSpillEvents set_fSpillExposure set_fTotalExposure].
    rewrite Hdd, Hmass, Htd, Hlen. repeat split. exact Hwd.
  - unfold ret in Hhist. injection Hhist as _ <-.
    cbn [with_spill with_world with_detector names detector spill settings
         fWorldVolume fDetLength fDetectorMass fXSecMassPOT
         fHistEventsPerSpill set_fXSecMassPOT set_fHistEventsPerSpill
         set_fSpillEvents set_fSpillExposure set_fTotalExposure].
    rewrite Hdd, Hmass, Htd, Hlen, Hxsec. repeat split. exact Hwd.
Qed.

End InitializeMeasures.


Lemma initialize_measures_the_top_volume_witness :
  let h0 := Examples.constructed Examples.sys0 (Examples.pset_histogram 5e13)
              (Examples.helper_with_cut "none") in
  let h1 := Examples.helper_after Examples.sys0 (Examples.pset_histogram 5e13)
              [] (Examples.helper_with_cut "none") in
  Initialize Examples.sys0 h0 = Ok (tt, h1)
  /\ fDetectorMass (detector h1) = 1000%Q
  /\ fWorldVolume (names h1) = "volWorld".
Proof.
  intros h0 h1.
  assert (Hrun : Initialize Examples.sys0 h0 = Ok (tt, h1))
    by (vm_compute; reflexivity).
  destruct (@initialize_measures_the_top_volume Examples.sys0 h0 h1 tt Hrun)
    as (Hworld & _ & Hmass & _).
  split; [exact Hrun |]. split.
  - rewrite Hmass. reflexivity.
  - rewrite Hworld. reflexivity.
Defined.

Section RockGeometry.
Import StdString GenieUtils.
Variable sys : System.

(** X27.  With a rock cut (one colon, six or more values) the geometry
    initialization always returns, and what it measures is the world:
    the cut makes the world volume the top volume before the detector
    mass is taken, so the helper's top volume and the analyzer's are the
    geometry's top volume and the detector mass is the mass of that
    volume, whatever top volume was configured. *)
Theorem rock_cut_measures_the_world_volume
        (h : GENIEHelper) (stype valtext : string) :
  contains (normalized_fidcut h) "rock" = true ->
  Split (normalized_fidcut h) ":" = [stype; valtext] ->
  (6 <= List.length (parse_values valtext))%nat ->
  exists h',
    InitializeGeometry sys h = Ok (tt, h')
    /\ fTopVolume (names h') = geo_TopVolumeName sys
    /\ fWorldVolume (names h') = geo_TopVolumeName sys
    /\ option_map rgTopVolName (fGeomD (drivers h'))
       = Some (geo_TopVolumeName sys)
    /\ fDetectorMass (detector h')
       = geo_TotalMass sys (geo_TopVolumeName sys).
Proof.
  intros Hrock Hsplit Hlen.
  destruct (contains_rock_named _ Hrock) as [Hne Hnn].
  set (rgeom := mkRgeom "" None (genie_ScannerNPoints sys)
                        (genie_ScannerNRays sys)
                        (genie_ScannerNParticles sys) false None).
  set (h3 := with_world (add_call (RgeomSetTopVolName (fTopVolume (names h))))
               (with_drivers
                  (set_fGeomD
                     (Some (set_rgTopVolName (fTopVolume (names h)) rgeom)))
                  (with_names (set_fWorldVolume (geo_TopVolumeName sys)) h))).
  assert (Hstart :
            InitializeGeometry sys h
            = bind InitializeFiducialSelection
                (fun _ =>
                   bind (modify (with_detector
                                   (set_fDetLength (geo_DetLength sys))))
                     (fun _ =>
                        bind (gets (fun h => fTopVolume (names h)))
                          (fun top' =>
                             modify (with_detector
                                       (set_fDetectorMass
                                          (geo_TotalMass sys top'))))))
                h3).
  { destruct h as [s n [gd fd fd2 drv rec] dt sp w]. reflexivity. }
  rewrite Hstart. clear Hstart.
  assert (Hnorm : normalized_fidcut h3 = normalized_fidcut h) by reflexivity.
  unfold bind at 1.
  rewrite (@dispatch_rock h3) by (rewrite Hnorm; assumption).
  rewrite (@rock_run h3 (set_rgTopVolName (fTopVolume (names h)) rgeom)
                     stype valtext)
    by (first [reflexivity | rewrite Hnorm; assumption | exact Hlen]).
  cbv beta iota zeta.
  destruct (rock_options (parse_values valtext))
    as [[[rockonly wallmin] dedx] fudge].
  unfold bind, modify, gets.
  eexists. split; [reflexivity |].
  cbn [names detector drivers with_detector fTopVolume fWorldVolume fGeomD
       set_fTopVolume set_fGeomD set_fDetectorMass set_fDetLength
       fDetectorMass option_map rgTopVolName set_rgSelector set_rgTopVolName
       h3 with_world with_drivers with_names set_fWorldVolume settings].
  repeat split.
Qed.

End RockGeometry.

Lemma rock_cut_measures_the_world_volume_witness :
  exists h',
    InitializeGeometry Examples.sys0
      (Examples.helper_with_cut "rockbox: (0,0,0) (10,20,30)") = Ok (tt, h')
    /\ fTopVolume (names h') = "volWorld"
    /\ fDetectorMass (detector h') = 1000%Q.
Proof.
  destruct (@rock_cut_measures_the_world_volume Examples.sys0
              (Examples.helper_with_cut "rockbox: (0,0,0) (10,20,30)")
              "rockbox" " (0,0,0) (10,20,30)")
    as (h' & Hrun & Htop & _ & _ & Hmass).
  - vm_compute. reflexivity.
  - vm_compute. reflexivity.
  - vm_compute. lia.
  - exists h'. split; [exact Hrun |]. split.
    + rewrite Htop. reflexivity.
    + rewrite Hmass. reflexivity.
Defined.

Section TotalHistFluxValue.
Variable sys : System.

(** X25.  What [TotalHistFlux] answers for a helper the constructor has
    built: -999 for the ntuple, mono and simple_flux types; for every
    other type the value the member's storage held before the
    constructor ran, plus the integrals of the histograms loaded, which
    are none unless the type is histogram.  The constructor never assigns
    the member, it only adds to it. *)
Theorem total_hist_flux_is_stale_storage_plus_integrals
        (pset : ParameterSet) (h : GENIEHelper) :
  construct sys pset = Ok h ->
  exists loaded,
    fFluxHistograms (settings h) = map Some loaded
    /\ (pFluxType pset <> "histogram" -> loaded = [])
    /\ (TotalHistFlux h
        == if String.eqb (pFluxType pset) "ntuple"
              || String.eqb (pFluxType pset) "mono"
              || String.eqb (pFluxType pset) "simple_flux"
           then -999
           else raw_fTotalHistFlux sys + sum_of_integrals loaded)%Q.
Proof.
  intros Hctor.
  destruct (construct_inv _ _ Hctor) as (Hft & _).
  destruct (String.eqb_spec (pFluxType pset) "histogram") as [Hh | Hh].
  - destruct (@TotalHistFlux_histogram sys pset h Hh Hctor)
      as (loaded & Hl & Hsum).
    exists loaded. split; [exact Hl |]. split; [congruence |].
    rewrite Hh. exact Hsum.
  - destruct (@TotalHistFlux_other sys pset h Hh Hctor) as (Hl & Hraw).
    exists []. split; [exact Hl |]. split; [reflexivity |].
    unfold TotalHistFlux, FluxType. rewrite Hft, Hraw.
    destruct (_ || _); [reflexivity |].
    unfold sum_of_integrals. cbn [fold_right]. ring.
Qed.

End TotalHistFluxValue.

Lemma total_hist_flux_is_stale_storage_plus_integrals_witness :
  exists loaded,
    fFluxHistograms
      (settings (Examples.constructed Examples.sys_stale
                   (Examples.pset_histogram 5e13)
                   (Examples.helper_with_cut "none")))
    = map Some loaded
    /\ (TotalHistFlux
          (Examples.constructed Examples.sys_stale
             (Examples.pset_histogram 5e13)
             (Examples.helper_with_cut "none"))
        == 1 + sum_of_integrals loaded)%Q.
Proof.
  destruct (@total_hist_flux_is_stale_storage_plus_integrals
              Examples.sys_stale (Examples.pset_histogram 5e13)
              (Examples.constructed Examples.sys_stale
                 (Examples.pset_histogram 5e13)
                 (Examples.helper_with_cut "none")))
    as (loaded & Hl & _ & Hsum).
  - vm_compute. reflexivity.
  - exists loaded. split; [exact Hl |]. exact Hsum.
Defined.

(** * View2D: the object pool *)

Section View2DFacts.
Import View2D.

Section Pattern.
Context {Obj : Type}.

Lemma update_length (p : nat) (f : Obj -> Obj) (heap : list Obj) :
  List.length (update p f heap) = List.length heap.
Proof.
  revert p. induction heap as [| o rest IH]; intros [| k]; cbn;
    try reflexivity.
  now rewrite IH.
Qed.

Lemma update_nth (p : nat) (f : Obj -> Obj) (heap : list Obj) (o : Obj) :
  nth_error heap p = Some o ->
  nth_error (update p f heap) p = Some (f o).
Proof.
  revert p. induction heap as [| x rest IH]; intros [| k]; cbn;
    try discriminate.
  - now intros [= ->].
  - apply IH.
Qed.

Lemma held_once_moved (c c' : Cache Obj) (m o m' o' : list nat) :
  held_once c m o ->
  Permutation (fgL c ++ m ++ o) (fgL c' ++ m' ++ o') ->
  List.length (objects c') = List.length (objects c) ->
  held_once c' m' o'.
Proof.
  intros [Hnd Hcov] Hperm Hlen. split.
  - exact (Permutation_NoDup Hperm Hnd).
  - intros p. rewrite Hlen, <- Hcov. split; intros Hin.
    + exact (Permutation_in p (Permutation_sym Hperm) Hin).
    + exact (Permutation_in p Hperm Hin).
Qed.

(** The pattern, on one class: the object handed out was cached or is
    new, and afterwards this view holds it and nobody else does. *)
Lemma Add_held_once (fresh : Obj) (reset : Obj -> Obj) (c : Cache Obj)
      (mine others : list nat) :
  held_once c mine others ->
  let '(m, c', mine') := Add fresh reset c mine in
  held_once c' mine' others
  /\ mine' = (mine ++ [m])%list
  /\ ~ In m (fgL c') /\ ~ In m mine /\ ~ In m others
  /\ (m < List.length (objects c'))%nat
  /\ List.length (objects c')
     = (List.length (objects c)
        + match fgL c with [] => 1 | _ => 0 end)%nat.
Proof.
  intros [Hnd Hcov]. unfold Add.
  destruct (fgL c) as [| first more] eqn:Hcache.
  - cbn [app] in Hnd, Hcov.
    assert (Hnew : ~ In (List.length (objects c)) (mine ++ others)).
    { intros Hin. apply Hcov in Hin. lia. }
    split; [| repeat split].
    + split; cbn [fgL objects app].
      * rewrite <- app_assoc. cbn [app].
        apply NoDup_Add with (a := List.length (objects c))
                             (l := (mine ++ others)%list).
        -- apply Add_app.
        -- split; assumption.
      * intros p. rewrite length_app. cbn [List.length].
        rewrite !in_app_iff. cbn [In].
        pose proof (Hcov p) as Hp. rewrite in_app_iff in Hp.
        split.
        -- intros [[Hm | [<- | []]] | Ho].
           ++ assert (p < List.length (objects c))%nat
                by (apply Hp; now left).
              lia.
           ++ lia.
           ++ assert (p < List.length (objects c))%nat
                by (apply Hp; now right).
              lia.
        -- intros Hlt.
           destruct (Nat.eq_dec p (List.length (objects c))) as [-> | Hne].
           ++ left. right. now left.
           ++ assert (Hin : In p mine \/ In p others) by (apply Hp; lia).
              destruct Hin; [left; now left | now right].
    + intros [].
    + intros Hin. apply Hnew. apply in_app_iff. now left.
    + intros Hin. apply Hnew. apply in_app_iff. now right.
    + cbn [objects]. rewrite length_app. cbn. lia.
    + cbn [objects]. rewrite length_app. cbn. lia.
  - set (l := first :: more) in *.
    assert (Hl : l = (removelast l ++ [last l O])%list)
      by (apply app_removelast_last; discriminate).
    set (m := last l O) in *. set (front := removelast l) in *.
    rewrite Hl in Hnd, Hcov.
    assert (Hperm : Permutation ((front ++ [m]) ++ mine ++ others)
                                (front ++ (mine ++ [m]) ++ others)).
    { rewrite <- !app_assoc. apply Permutation_app_head.
      cbn [app]. apply Permutation_middle. }
    assert (Hnd' := Permutation_NoDup Hperm Hnd).
    split; [| repeat split].
    + split; cbn [fgL objects].
      * exact Hnd'.
      * intros p. rewrite update_length, <- Hcov. split; intros Hin.
        -- exact (Permutation_in p (Permutation_sym Hperm) Hin).
        -- exact (Permutation_in p Hperm Hin).
    + cbn [fgL]. intros Hin.
      rewrite <- app_assoc in Hnd.
      apply NoDup_remove_2 in Hnd. apply Hnd.
      apply in_app_iff. now left.
    + intros Hin. rewrite <- app_assoc in Hnd.
      apply NoDup_remove_2 in Hnd. apply Hnd.
      rewrite !in_app_iff. tauto.
    + intros Hin. rewrite <- app_assoc in Hnd.
      apply NoDup_remove_2 in Hnd. apply Hnd.
      rewrite !in_app_iff. tauto.
    + cbn [objects]. rewrite update_length. apply Hcov.
      rewrite !in_app_iff. cbn. tauto.
    + cbn [objects]. rewrite update_length. lia.
Qed.

End Pattern.

Section Views.
Context {Obj : Type}.
Variable getL : View -> list nat.

Lemma update_at_split (pre post : list View) (v v' : View) :
  update (List.length pre) (fun _ => v') (pre ++ v :: post)
  = (pre ++ v' :: post)%list.
Proof.
  induction pre as [| x pre IH]; cbn; [reflexivity | now rewrite IH].
Qed.

Lemma concat_around (pre post : list View) (v : View) :
  concat (map getL (pre ++ v :: post))
  = (concat (map getL pre) ++ getL v ++ concat (map getL post))%list.
Proof. now rewrite map_app, concat_app. Qed.

Lemma held_add (fresh : Obj) (reset : Obj -> Obj) (c c' : Cache Obj)
      (pre post : list View) (v v' : View) (m : nat) :
  held c (map getL (pre ++ v :: post)) ->
  Add fresh reset c (getL v) = (m, c', getL v') ->
  held c' (map getL (pre ++ v' :: post)).
Proof.
  unfold held. rewrite !concat_around. intros Hheld Hadd.
  set (others := (concat (map getL pre) ++ concat (map getL post))%list).
  assert (Hmine : held_once c (getL v) others).
  { eapply held_once_moved; [exact Hheld | | reflexivity].
    apply Permutation_app_head. cbn [app].
    unfold others. apply Permutation_app_swap_app. }
  pose proof (@Add_held_once _ fresh reset c (getL v) others Hmine) as Hpost.
  rewrite Hadd in Hpost. destruct Hpost as (Hpost & _).
  eapply held_once_moved; [exact Hpost | | reflexivity].
  apply Permutation_app_head. cbn [app].
  unfold others. apply Permutation_app_swap_app.
Qed.

Lemma held_same (c : Cache Obj) (pre post : list View) (v v' : View) :
  getL v' = getL v ->
  held c (map getL (pre ++ v :: post)) ->
  held c (map getL (pre ++ v' :: post)).
Proof. unfold held. rewrite !concat_around. now intros ->. Qed.

Lemma held_splice (c : Cache Obj) (pre post : list View) (v v' : View) :
  getL v' = [] ->
  held c (map getL (pre ++ v :: post)) ->
  held (fst (splice c (getL v))) (map getL (pre ++ v' :: post)).
Proof.
  unfold held. rewrite !concat_around. intros -> Hheld.
  eapply held_once_moved; [exact Hheld | | reflexivity].
  cbn [splice fst fgL app]. rewrite <- !app_assoc.
  apply Permutation_app_head.
  apply Permutation_app_swap_app.
Qed.

Lemma held_new (c : Cache Obj) (views : list View) (v : View) :
  getL v = [] ->
  held c (map getL views) ->
  held c (map getL (views ++ [v])).
Proof.
  unfold held. intros Hv.
  rewrite map_app, concat_app. cbn. now rewrite Hv, !app_nil_r.
Qed.

End Views.

Ltac split_view Hview :=
  let pre := fresh "pre" in
  let post := fresh "post" in
  let Hlen := fresh "Hlen" in
  apply nth_error_split in Hview as (pre & post & -> & Hlen);
  rewrite <- Hlen.

Ltac each_class tac :=
  unfold consistent;
  cbn [fgMarkerL fgPolyMarkerL fgLineL fgPolyLineL fgArcL fgBoxL fgTextL
       fgLatexL];
  split; [tac | split; [tac | split; [tac | split; [tac | split;
    [tac | split; [tac | split; [tac | tac]]]]]]].

Ltac keep_class :=
  first [ eapply held_add; [eassumption | eassumption]
        | eapply held_same; [| eassumption]; reflexivity ].

Lemma step_consistent (op : Op) (s : Statics) (views : list View) :
  consistent s views ->
  consistent (fst (step op (s, views))) (snd (step op (s, views))).
Proof.
  intros Hc.
  destruct op; unfold step, on_view; cbn [fst snd].
  - (* NewView *)
    destruct Hc as (H1 & H2 & H3 & H4 & H5 & H6 & H7 & H8).
    each_class ltac:(apply held_new; [reflexivity | assumption]).
  - (* Clear *)
    destruct (nth_error views i) as [v |] eqn:Hview; [| exact Hc].
    split_view Hview.
    destruct Hc as (H1 & H2 & H3 & H4 & H5 & H6 & H7 & H8).
    unfold Clear. cbn [splice fst snd]. rewrite update_at_split.
    each_class ltac:(
      idtac;
      match goal with
      | H : held ?c (map ?g _) |- held _ (map ?g _) =>
          exact (@held_splice _ g c _ _ _ new_View eq_refl H)
      end).
  - destruct (nth_error views i) as [v |] eqn:Hview; [| exact Hc].
    split_view Hview.
    destruct Hc as (H1 & H2 & H3 & H4 & H5 & H6 & H7 & H8).
    unfold AddMarker.
    destruct (Add _ _ _ _) as [[m c'] mine'] eqn:Hadd.
    cbn [dropping_reference fst snd]. rewrite update_at_split.
    each_class keep_class.
  - destruct (nth_error views i) as [v |] eqn:Hview; [| exact Hc].
    split_view Hview.
    destruct Hc as (H1 & H2 & H3 & H4 & H5 & H6 & H7 & H8).
    unfold AddPolyMarker.
    destruct (Add _ _ _ _) as [[m c'] mine'] eqn:Hadd.
    cbn [dropping_reference fst snd]. rewrite update_at_split.
    each_class keep_class.
  - destruct (nth_error views i) as [v |] eqn:Hview; [| exact Hc].
    split_view Hview.
    destruct Hc as (H1 & H2 & H3 & H4 & H5 & H6 & H7 & H8).
    unfold AddLine.
    destruct (Add _ _ _ _) as [[m c'] mine'] eqn:Hadd.
    cbn [dropping_reference fst snd]. rewrite update_at_split.
    each_class keep_class.
  - destruct (nth_error views i) as [v |] eqn:Hview; [| exact Hc].
    split_view Hview.
    destruct Hc as (H1 & H2 & H3 & H4 & H5 & H6 & H7 & H8).
    unfold AddPolyLine.
    destruct (Add _ _ _ _) as [[m c'] mine'] eqn:Hadd.
    cbn [dropping_reference fst snd]. rewrite update_at_split.
    each_class keep_class.
  - destruct (nth_error views i) as [v |] eqn:Hview; [| exact Hc].
    split_view Hview.
    destruct Hc as (H1 & H2 & H3 & H4 & H5 & H6 & H7 & H8).
    unfold AddArc.
    destruct (Add _ _ _ _) as [[m c'] mine'] eqn:Hadd.
    cbn [dropping_reference fst snd]. rewrite update_at_split.
    each_class keep_class.
  - destruct (nth_error views i) as [v |] eqn:Hview; [| exact Hc].
    split_view Hview.
    destruct Hc as (H1 & H2 & H3 & H4 & H5 & H6 & H7 & H8).
    unfold AddBox.
    destruct (Add _ _ _ _) as [[m c'] mine'] eqn:Hadd.
    cbn [dropping_reference fst snd]. rewrite update_at_split.
    each_class keep_class.
  - destruct (nth_error views i) as [v |] eqn:Hview; [| exact Hc].
    split_view Hview.
    destruct Hc as (H1 & H2 & H3 & H4 & H5 & H6 & H7 & H8).
    unfold AddText.
    destruct (Add _ _ _ _) as [[m c'] mine'] eqn:Hadd.
    cbn [dropping_reference fst snd]. rewrite update_at_split.
    each_class keep_class.
  - destruct (nth_error views i) as [v |] eqn:Hview; [| exact Hc].
    split_view Hview.
    destruct Hc as (H1 & H2 & H3 & H4 & H5 & H6 & H7 & H8).
    unfold AddLatex.
    destruct (Add _ _ _ _) as [[m c'] mine'] eqn:Hadd.
    cbn [dropping_reference fst snd]. rewrite update_at_split.
    each_class keep_class.
Qed.

Lemma run_consistent (ops : list Op) :
  forall st, consistent (fst st) (snd st) ->
             consistent (fst (run ops st)) (snd (run ops st)).
Proof.
  unfold run.
  induction ops as [| op rest IH]; intros [s views] Hc; cbn [fold_left].
  - exact Hc.
  - apply IH. apply (@step_consistent op s views Hc).
Qed.

Lemma initial_consistent (style : Style) :
  consistent (fst (initial style)) (snd (initial style)).
Proof.
  unfold consistent, held, held_once. cbn.
  repeat split; try constructor; intros H; (contradiction || lia).
Qed.

Lemma update_elsewhere {Obj : Type} (p q : nat) (f : Obj -> Obj)
      (heap : list Obj) :
  q <> p -> nth_error (update p f heap) q = nth_error heap q.
Proof.
  revert p q. induction heap as [| o rest IH]; intros [| p] [| q] Hne; cbn;
    try reflexivity.
  - now elim Hne.
  - apply IH. lia.
Qed.

(** X28.  From the start of the program, whatever views are created and
    whatever [Add] and [Clear] calls are made on them, in any order, the
    pool stays consistent: for each of the eight classes, every object
    ever allocated is held exactly once, either by the static list or by
    one view, and nothing that was not allocated is held.  So no two
    views share an object, no view holds an object that is also cached,
    and no object is lost. *)
Theorem view2d_every_object_is_held_exactly_once
        (style : Style) (ops : list Op) :
  consistent (fst (run ops (initial style))) (snd (run ops (initial style))).
Proof.
  apply run_consistent. apply initial_consistent.
Qed.

(** X29.  The pattern all eight [Add] functions share recycles before it
    allocates.  With the static list empty it allocates exactly one
    object, the one asked for, and touches no other.  Otherwise it
    allocates nothing: it takes the pointer at the back of the static
    list, resets the object there and leaves every other object as it
    was.  Either way the pointer goes to the end of the view's own list
    and is held by nobody else. *)
Theorem view2d_add_recycles_before_it_allocates
        {Obj : Type} (fresh : Obj) (reset : Obj -> Obj) (c : Cache Obj)
        (mine others : list nat) :
  held_once c mine others ->
  let '(m, c', mine') := Add fresh reset c mine in
  mine' = (mine ++ [m])%list
  /\ ~ In m mine /\ ~ In m others /\ ~ In m (fgL c')
  /\ match fgL c with
     | [] =>
         m = List.length (objects c)
         /\ objects c' = (objects c ++ [fresh])%list
         /\ fgL c' = []
     | _ =>
         fgL c = (fgL c' ++ [m])%list
         /\ List.length (objects c') = List.length (objects c)
         /\ (exists old, nth_error (objects c) m = Some old
                         /\ nth_error (objects c') m = Some (reset old))
         /\ forall p, p <> m ->
                      nth_error (objects c') p = nth_error (objects c) p
     end.
Proof.
  intros Hheld.
  pose proof (@Add_held_once _ fresh reset c mine others Hheld) as Hpost.
  destruct Hheld as [Hnd Hcov].
  unfold Add in *.
  destruct (fgL c) as [| first more] eqn:Hcache.
  - destruct Hpost as (_ & Hmine & Hc & Hm & Ho & _).
    repeat split; assumption.
  - destruct Hpost as (_ & Hmine & Hc & Hm & Ho & Hlt & _).
    cbn [objects fgL] in *.
    repeat split; try assumption.
    + apply app_removelast_last. discriminate.
    + apply update_length.
    + rewrite update_length in Hlt.
      destruct (nth_error (objects c) (last (first :: more) O))
        as [old |] eqn:Hold.
      * exists old. split; [reflexivity |]. now apply update_nth.
      * apply nth_error_None in Hold. lia.
    + intros p Hne. now apply update_elsewhere.
Qed.

Lemma view2d_add_recycles_before_it_allocates_witness :
  Add 7%Z (fun _ => 7%Z) (mkCache [1%Z; 2%Z; 3%Z] [2%nat; 0%nat]) [1%nat] =
  (0%nat, mkCache [7%Z; 2%Z; 3%Z] [2%nat], [1%nat; 0%nat])
  /\ let '(m, c', mine') :=
       Add 7%Z (fun _ => 7%Z) (mkCache [1%Z; 2%Z; 3%Z] [2%nat; 0%nat])
           [1%nat] in
     mine' = ([1%nat] ++ [m])%list.
Proof.
  split; [reflexivity |].
  pose proof (@view2d_add_recycles_before_it_allocates
                Z 7%Z (fun _ => 7%Z)
                (mkCache [1%Z; 2%Z; 3%Z] [2%nat; 0%nat]) [1%nat] []) as H.
  cbv beta iota zeta delta [Add fgL objects last removelast] in H |- *.
  apply H. split.
  - cbn. repeat constructor; cbn; intuition discriminate.
  - intros p. cbn. lia.
Defined.

(** X30.  [AddLine] resets the end points of a recycled line and nothing
    else.  When the static list of lines is not empty, the line it
    returns is the one at the back of that list, with the end points
    asked for and with the colour, width and style its last user left on
    it, not those of the current style that a newly made line gets. *)
Theorem view2d_recycled_line_keeps_its_attributes
        (x1 y1 x2 y2 : Q) (s : Statics) (v : View)
        (front : list nat) (ln : nat) (old : TLine) :
  fgL (fgLineL s) = (front ++ [ln])%list ->
  nth_error (objects (fgLineL s)) ln = Some old ->
  let '(r, s', v') := AddLine x1 y1 x2 y2 s v in
  r = ln
  /\ fLineL v' = (fLineL v ++ [ln])%list
  /\ fgL (fgLineL s') = front
  /\ nth_error (objects (fgLineL s')) ln
     = Some (mkTLine x1 y1 x2 y2 (lnAtt old) (lnCanDelete old)).
Proof.
  intros Hcache Hold. unfold AddLine, Add. rewrite Hcache.
  destruct front as [| first more] eqn:Hfront.
  - cbn [app last removelast fgLineL fLineL fgL objects].
    repeat split.
    exact (@update_nth _ ln
             (fun o => mkTLine x1 y1 x2 y2 (lnAtt o) (lnCanDelete o))
             _ old Hold).
  - rewrite <- Hfront.
    assert (Hne : (front ++ [ln])%list <> []) by (now destruct front).
    destruct (front ++ [ln])%list as [| a rest] eqn:Hl; [now elim Hne |].
    rewrite <- Hl.
    rewrite last_last, removelast_last.
    cbn [fgLineL fLineL fgL objects]. subst front.
    repeat split.
    exact (@update_nth _ ln
             (fun o => mkTLine x1 y1 x2 y2 (lnAtt o) (lnCanDelete o))
             _ old Hold).
Qed.

Lemma view2d_recycled_line_keeps_its_attributes_witness :
  let style := mkStyle (mkAttLine 1 1 1) (mkAttFill 0 1001) 1 1 1
                       (mkAttText 1 62 (1 # 20)) in
  let '(s0, _) := initial style in
  let '(ln, s1, v1) := AddLine 0 0 1 1 s0 new_View in
  let s2 := SetLineColor ln 2 s1 in
  let '(s3, _) := Clear s2 v1 in
  let '(r, s4, _) := AddLine 5 5 6 6 s3 new_View in
  r = ln
  /\ nth_error (objects (fgLineL s4)) r
     = Some (mkTLine 5 5 6 6 (mkAttLine 2 1 1) false).
Proof.
  cbv zeta.
  pose proof (@view2d_recycled_line_keeps_its_attributes 5 5 6 6
                (mkStatics
                   (mkStyle (mkAttLine 1 1 1) (mkAttFill 0 1001) 1 1 1
                            (mkAttText 1 62 (1 # 20)))
                   (mkCache [] []) (mkCache [] [])
                   (mkCache [mkTLine 0 0 1 1 (mkAttLine 2 1 1) false]
                            [0%nat])
                   (mkCache [] []) (mkCache [] []) (mkCache [] [])
                   (mkCache [] []) (mkCache [] []))
                new_View [] 0%nat
                (mkTLine 0 0 1 1 (mkAttLine 2 1 1) false)
                eq_refl eq_refl) as H.
  cbn in H |- *. destruct H as (Hr & _ & _ & Hobj).
  split; [exact Hr | exact Hobj].
Defined.

End View2DFacts.
